(** * Constituent import pipeline: model of [src/transform.py] and
    [src/validate.py], and the properties of its six stages.

    Conventions of the model.
    - A Python [str] is a [string]; each [ascii] stands for one code point
      below 256, so the text handled here is Latin-1 text.
    - A DataFrame cell is a [cell]: [None] is pandas' NaN, [Some s] is a
      value whose [str()] is [s].
    - Library routines whose behaviour is fixed outside this repository
      ([pd.to_datetime], [float()], the [,.2f] format, grouped sums) are
      section variables: every theorem holds for whatever they compute. *)

From Stdlib Require Import ZArith Ascii String List Bool Lia DecimalString.
From Stdlib Require Import Sorting.Sorted Sorting.Permutation.
From stdpp Require Import base decidable option list strings gmap sorting.

(** A cell of a pandas table. *)
Definition cell := option string.

(* ------------------------------------------------------------------ *)
(** ** The [str] methods the code calls *)
(* ------------------------------------------------------------------ *)
Module Py.

(** [c.isspace()] for a code point below 256: TAB..CR, FS..US, space,
    NEL and the no-break space. *)
Definition isspace (c : ascii) : bool :=
  let n := nat_of_ascii c in
  ((9 <=? n) && (n <=? 13)) || ((28 <=? n) && (n <=? 32))
  || (n =? 133) || (n =? 160).

Fixpoint contains_char (c : ascii) (s : string) : bool :=
  match s with
  | EmptyString => false
  | String a s' => Ascii.eqb a c || contains_char c s'
  end.

Fixpoint lstrip_by (p : ascii -> bool) (s : string) : string :=
  match s with
  | EmptyString => EmptyString
  | String a s' => if p a then lstrip_by p s' else s
  end.

(** Trailing characters go while nothing that stays follows them. *)
Fixpoint rstrip_by (p : ascii -> bool) (s : string) : string :=
  match s with
  | EmptyString => EmptyString
  | String a s' =>
      match rstrip_by p s' with
      | EmptyString => if p a then EmptyString else String a EmptyString
      | r => String a r
      end
  end.

Definition strip_by (p : ascii -> bool) (s : string) : string :=
  rstrip_by p (lstrip_by p s).

(** [s.strip()] *)
Definition strip (s : string) : string := strip_by isspace s.

(** [s.strip(chars)] *)
Definition strip_chars (chars s : string) : string :=
  strip_by (fun a => contains_char a chars) s.

(** [c.lower()] below 256: A..Z and the Latin-1 capitals except the
    multiplication sign move up by 32. *)
Definition lower_char (c : ascii) : ascii :=
  let n := nat_of_ascii c in
  if ((65 <=? n) && (n <=? 90))
     || ((192 <=? n) && (n <=? 222) && negb (n =? 215))
  then ascii_of_nat (n + 32) else c.

Fixpoint lower (s : string) : string :=
  match s with
  | EmptyString => EmptyString
  | String a s' => String (lower_char a) (lower s')
  end.

(** [s.count(c)] for a one-character [c]. *)
Fixpoint count_char (c : ascii) (s : string) : nat :=
  match s with
  | EmptyString => 0
  | String a s' => (if Ascii.eqb a c then 1 else 0) + count_char c s'
  end.

(** [s.replace(c, empty)] for a one-character [c]. *)
Fixpoint remove_char (c : ascii) (s : string) : string :=
  match s with
  | EmptyString => EmptyString
  | String a s' =>
      if Ascii.eqb a c then remove_char c s' else String a (remove_char c s')
  end.

(** [s.split(c)] for a one-character separator: never the empty list. *)
Fixpoint split (c : ascii) (s : string) : list string :=
  match s with
  | EmptyString => [EmptyString]
  | String a s' =>
      if Ascii.eqb a c then EmptyString :: split c s'
      else match split c s' with
           | [] => [String a EmptyString]
           | w :: ws => String a w :: ws
           end
  end.

(** [s.split(c, 1)]: cut at the first [c], if there is one. *)
Fixpoint split1 (c : ascii) (s : string) : list string :=
  match s with
  | EmptyString => [EmptyString]
  | String a s' =>
      if Ascii.eqb a c then [EmptyString; s']
      else match split1 c s' with
           | w :: ws => String a w :: ws
           | [] => [String a EmptyString]
           end
  end.

(** [sep.join(l)] *)
Definition join (sep : string) (l : list string) : string :=
  String.concat sep l.

(** Truth value of a [str]: non-empty. *)
Definition truthy (s : string) : bool := negb (String.eqb s EmptyString).

End Py.

(* ------------------------------------------------------------------ *)
(** ** Scalar helpers of [transform.py] *)
(* ------------------------------------------------------------------ *)

(** [_clean_str]: NaN becomes the empty string, anything else is
    stringified and stripped. *)
Definition _clean_str (x : cell) : string :=
  match x with
  | None => EmptyString
  | Some s => Py.strip s
  end.

(** The characters that [standardize_email] strips after lowercasing:
    space, angle brackets, double quote, apostrophe. *)
Definition email_wrappers : string :=
  " <>" +:+ String (ascii_of_nat 34) "'".

(** [standardize_email] *)
Definition standardize_email (raw : cell) : string :=
  let s := Py.lower (_clean_str raw) in
  Py.strip_chars email_wrappers s.

(** [is_valid_email] *)
Definition is_valid_email (email : cell) : bool :=
  let e := standardize_email email in
  if negb (Py.truthy e) || Py.contains_char " " e then false
  else if negb (Py.count_char "@" e =? 1) then false
  else
    match Py.split1 "@" e with
    | [local; domain] =>
        if negb (Py.truthy local) || negb (Py.truthy domain) then false
        else if negb (Py.contains_char "." domain) then false
        else true
    | _ => false (* the unpacking would raise; not reached: one at-sign *)
    end.

(** [normalize_salutation] *)
Definition normalize_salutation (raw : cell) : string :=
  let s := _clean_str raw in
  if negb (Py.truthy s) then EmptyString
  else
    let s := Py.lower (Py.strip (Py.remove_char "." s)) in
    if String.eqb s "mr" then "Mr."
    else if String.eqb s "mrs" then "Mrs."
    else if String.eqb s "ms" then "Ms."
    else if String.eqb s "dr" then "Dr."
    else EmptyString.

(** The two constituent types. *)
Inductive ctype := Person | Company.

(** [classify_constituent_type], on the Company cell of the row. *)
Definition classify_constituent_type (company : cell) : ctype :=
  if Py.truthy (_clean_str company) then Company else Person.

(** [fill_missing_person_names] *)
Definition fill_missing_person_names (patron_id : string) (first last : cell)
  : string * string :=
  let f := _clean_str first in
  let l := _clean_str last in
  if Py.truthy f && Py.truthy l then (f, l)
  else ("Unknown", "Unknown-" +:+ patron_id).

(* ------------------------------------------------------------------ *)
(** ** The library routines the pipeline relies on *)
(* ------------------------------------------------------------------ *)

(** What Python and pandas compute for the pipeline.  A timestamp is a
    point of the time line, an integer; only its order and its calendar
    date are observed.  [num] is a float that is a number: NaN is the
    [None] of an [option num], as pandas itself treats NaN and [None]
    alike as missing. *)
Class Runtime := {
  (** [pd.to_datetime(column, errors=coerce)]: one entry per cell, [None]
      for NaT. *)
  to_datetime : list cell -> list (option Z);
  (** [pd.to_datetime(s, errors=coerce, infer_datetime_format=True)] *)
  to_datetime_scalar : string -> option Z;
  (** [ts.date().isoformat()] *)
  isoformat : Z -> string;
  num : Type;
  (** [float(s)]: [None] when it raises ValueError or yields NaN. *)
  py_float : string -> option num;
  (** The order of two floats that are numbers. *)
  num_compare : num -> num -> comparison;
  (** The sum pandas computes for one group; NaN is [None]. *)
  series_sum : list num -> option num;
  (** The format specification [,.2f]. *)
  format_2f : num -> string;
  (** Whether [pd.to_numeric] accepts the string as a number. *)
  str_is_numeric : string -> bool
}.

(* ------------------------------------------------------------------ *)
(** ** Generic table operations *)
(* ------------------------------------------------------------------ *)
Module Pd.
Section Generic.
Context {A : Type}.

(** Lexicographic combination of the comparisons of two sort keys. *)
Definition cmp_then (c1 c2 : comparison) : comparison :=
  match c1 with Eq => c2 | _ => c1 end.

Fixpoint insert_by (cmp : A -> A -> comparison) (x : A) (l : list A)
  : list A :=
  match l with
  | [] => [x]
  | y :: l' =>
      match cmp x y with
      | Gt => y :: insert_by cmp x l'
      | _ => x :: l
      end
  end.

(** [df.sort_values(keys, ascending=...)] on several keys is a stable
    sort; [cmp] compares two rows on the keys, in the directions
    asked for. *)
Definition sort_values (cmp : A -> A -> comparison) (l : list A) : list A :=
  foldr (insert_by cmp) [] l.

Fixpoint drop_duplicates_from {K : Type} `{EqDecision K}
    (key : A -> K) (seen : list K) (l : list A) : list A :=
  match l with
  | [] => []
  | x :: l' =>
      if bool_decide (key x ∈ seen) then drop_duplicates_from key seen l'
      else x :: drop_duplicates_from key (key x :: seen) l'
  end.

(** [df.drop_duplicates(subset=key, keep=first)] *)
Definition drop_duplicates {K : Type} `{EqDecision K}
    (key : A -> K) (l : list A) : list A :=
  drop_duplicates_from key [] l.

(** The rows of one group, in table order. *)
Definition group {K : Type} `{EqDecision K}
    (key : A -> K) (k : K) (l : list A) : list A :=
  filter (fun x => key x = k) l.

(** [left.merge(right, how=left)] on one key column: the left order
    is kept, a left row without a match meets a row of NaN. *)
Definition merge_left {B : Type} (lkey : A -> string) (rkey : B -> string)
    (left : list A) (right : list B) : list (A * option B) :=
  mbind
    (fun l =>
       match filter (fun r => rkey r = lkey l) right with
       | [] => [(l, None)]
       | ms => fmap (fun r => (l, Some r)) ms
       end)
    left.
End Generic.

(** Comparison of a key sorted in descending order. *)
Definition desc {K : Type} (cmp : K -> K -> comparison) (a b : K)
  : comparison := cmp b a.

(** Missing keys go last, in either direction (na_position=last). *)
Definition na_last {K : Type} (cmp : K -> K -> comparison)
    (a b : option K) : comparison :=
  match a, b with
  | Some x, Some y => cmp x y
  | Some _, None => Lt
  | None, Some _ => Gt
  | None, None => Eq
  end.

(** The keys of [groupby(key)]: each once, sorted. *)
Definition group_keys (keys : list string) : list string :=
  sort_values String.compare (drop_duplicates id keys).

(** [a.union(b)] on two duplicate-free string indexes: sorted, unless
    [b] is empty or equal to [a], or [a] is empty. *)
Definition index_union (a b : list string) : list string :=
  if bool_decide (b = []) || bool_decide (a = b) then a
  else if bool_decide (a = []) then b
  else sort_values String.compare (drop_duplicates id (a ++ b)).

(** [series.astype(str)] on one cell. *)
Definition astype_str (x : cell) : string :=
  match x with
  | None => "nan"
  | Some s => s
  end.

(** [series.fillna(empty string)] on one cell. *)
Definition fillna_empty (x : cell) : string :=
  match x with
  | None => EmptyString
  | Some s => s
  end.
End Pd.

(* ------------------------------------------------------------------ *)
(** ** The input and output tables *)
(* ------------------------------------------------------------------ *)

(** A row of the constituents table. *)
Record Constituent := {
  patron_id : cell;
  company : cell;
  first_name : cell;
  last_name : cell;
  salutation : cell;
  title : cell;
  date_entered : cell;
  primary_email : cell;
  tags : cell
}.

(** A row of the emails table. *)
Record EmailRow := { e_patron_id : cell; e_email : cell }.

(** A row of the donations table; whether the table has a Status column
    at all is a property of the table. *)
Record DonationRow := {
  d_patron_id : cell;
  d_amount : cell;
  d_date : cell;
  d_status : cell
}.

Record Donations := { has_status : bool; donation_rows : list DonationRow }.

(** A row of the output constituents table.  The two email columns come
    out of a left merge and can hold NaN. *)
Record OutRow := {
  cb_id : string;
  cb_type : ctype;
  cb_first_name : string;
  cb_last_name : string;
  cb_company_name : string;
  cb_created_at : string;
  cb_email1 : cell;
  cb_email2 : cell;
  cb_title : string;
  cb_tags : string;
  cb_background : string;
  cb_lifetime : string;
  cb_recent_date : string;
  cb_recent_amount : string
}.

(** A table given by its column names and its records, one value per
    column in each. *)
Inductive value := VStr (s : string) | VInt (n : Z) | VNaN.

Record Frame := { columns : list string; records : list (list value) }.

(** [df.empty]: no column or no record. *)
Definition frame_empty (df : Frame) : bool :=
  (length (columns df) =? 0) || (length (records df) =? 0).

Definition tags_columns : list string := ["CB Tag Name"; "CB Tag Count"].

(** The Patron ID of a row, as a string. *)
Definition pid_of (r : Constituent) : string := Pd.astype_str (patron_id r).

(** The row after [c[Patron ID] = c[Patron ID].astype(str)]. *)
Definition with_pid_str (r : Constituent) : Constituent :=
  {| patron_id := Some (pid_of r);
     company := company r;
     first_name := first_name r;
     last_name := last_name r;
     salutation := salutation r;
     title := title r;
     date_entered := date_entered r;
     primary_email := primary_email r;
     tags := tags r |}.

(* ------------------------------------------------------------------ *)
(** ** Tag normalisation *)
(* ------------------------------------------------------------------ *)

Fixpoint split_tags_loop (parts : list string) (seen : gset string)
    (out : list string) : list string :=
  match parts with
  | [] => out
  | p :: parts' =>
      if negb (Py.truthy p) then split_tags_loop parts' seen out
      else
        let key := Py.lower p in
        if bool_decide (key ∈ seen) then split_tags_loop parts' seen out
        else split_tags_loop parts' ({[key]} ∪ seen) (out ++ [p])
  end.

(** [split_tags] *)
Definition split_tags (raw : cell) : list string :=
  let s := _clean_str raw in
  if negb (Py.truthy s) then []
  else
    let parts := fmap Py.strip (Py.split "," s) in
    split_tags_loop parts ∅ [].

Fixpoint apply_tag_mapping_loop (mapping : gmap string string)
    (tags : list string) (seen : gset string) (out : list string)
  : list string :=
  match tags with
  | [] => out
  | t :: tags' =>
      let key := Py.lower (Py.strip t) in
      let mapped := default t (mapping !! key) in
      let mapped_clean := _clean_str (Some mapped) in
      if negb (Py.truthy mapped_clean)
      then apply_tag_mapping_loop mapping tags' seen out
      else
        let k2 := Py.lower mapped_clean in
        if bool_decide (k2 ∈ seen)
        then apply_tag_mapping_loop mapping tags' seen out
        else apply_tag_mapping_loop mapping tags' ({[k2]} ∪ seen)
               (out ++ [mapped_clean])
  end.

(** [apply_tag_mapping] *)
Definition apply_tag_mapping (tags : list string)
    (mapping : gmap string string) : list string :=
  apply_tag_mapping_loop mapping tags ∅ [].

(** The final tag list of a Tags cell, as [transform] computes it. *)
Definition final_tags (mapping : gmap string string) (raw : cell)
  : list string :=
  apply_tag_mapping (split_tags raw) mapping.

(* ------------------------------------------------------------------ *)
(** ** Contact resolution *)
(* ------------------------------------------------------------------ *)

(** The [candidates] dictionary, in insertion order. *)
Definition candidates_dict := list (string * list string).

(** [candidates[pid].append(x)], after [candidates[pid] = []] when the
    key is new. *)
Fixpoint dict_append (pid x : string) (d : candidates_dict)
  : candidates_dict :=
  match d with
  | [] => [(pid, [x])]
  | (k, v) :: d' =>
      if bool_decide (k = pid) then (k, v ++ [x]) :: d'
      else (k, v) :: dict_append pid x d'
  end.

(** The dictionary comprehension: every Patron ID once, at the place of
    its first row, with an empty list. *)
Definition dict_init (pids : list string) : candidates_dict :=
  fmap (fun pid => (pid, [])) (Pd.drop_duplicates id pids).

(** The loop over the constituents: the primary email, when valid. *)
Fixpoint add_primary (base : list Constituent) (d : candidates_dict)
  : candidates_dict :=
  match base with
  | [] => d
  | r :: base' =>
      let pid := pid_of r in
      let pe := standardize_email (Some (_clean_str (primary_email r))) in
      if Py.truthy pe && is_valid_email (Some pe)
      then add_primary base' (dict_append pid pe d)
      else add_primary base' d
  end.

(** The loop over the emails table, in file order. *)
Fixpoint add_emails (em : list EmailRow) (d : candidates_dict)
  : candidates_dict :=
  match em with
  | [] => d
  | r :: em' =>
      let pid := Pd.astype_str (e_patron_id r) in
      let email := standardize_email (e_email r) in
      if negb (Py.truthy email) || negb (is_valid_email (Some email))
      then add_emails em' d
      else add_emails em' (dict_append pid email d)
  end.

Fixpoint uniq_loop (arr : list string) (seen : gset string)
    (uniq : list string) : list string :=
  match arr with
  | [] => uniq
  | x :: arr' =>
      if bool_decide (x ∈ seen) then uniq_loop arr' seen uniq
      else uniq_loop arr' ({[x]} ∪ seen) (uniq ++ [x])
  end.

Record EmailCols := { ec_pid : string; ec_email1 : string; ec_email2 : string }.

(** The body of the last loop: one output row per dictionary entry. *)
Definition email_row (pid : string) (arr : list string) : EmailCols :=
  let uniq := uniq_loop arr ∅ [] in
  let email1 := if 1 <=? length uniq then default EmptyString (uniq !! 0)
                else EmptyString in
  let email2 :=
    if Py.truthy email1 && (2 <=? length uniq) then
      let e2 := default EmptyString (uniq !! 1) in
      if bool_decide (e2 = email1) then EmptyString else e2
    else EmptyString in
  {| ec_pid := pid; ec_email1 := email1; ec_email2 := email2 |}.

Definition candidates (constituents : list Constituent)
    (emails : list EmailRow) : candidates_dict :=
  add_emails emails
    (add_primary constituents (dict_init (fmap pid_of constituents))).

(** [build_email_columns]; the empty list is the frame without columns
    that [pd.DataFrame] makes of no rows. *)
Definition build_email_columns (constituents : list Constituent)
    (emails : list EmailRow) : list EmailCols :=
  fmap (fun kv => email_row (fst kv) (snd kv)) (candidates constituents emails).

Section Pipeline.
Context `{RT : Runtime}.

(* ---------------------------------------------------------------- *)
(** ** Dates and amounts *)
(* ---------------------------------------------------------------- *)

(** [parse_date_any] *)
Definition parse_date_any (raw : cell) : string :=
  let s := _clean_str raw in
  if negb (Py.truthy s) then EmptyString
  else
    match to_datetime_scalar s with
    | None => EmptyString
    | Some dt => isoformat dt
    end.

(** [parse_currency_to_float] *)
Definition parse_currency_to_float (raw : cell) : option num :=
  let s := _clean_str raw in
  if negb (Py.truthy s) then None
  else
    let s2 := Py.strip (Py.remove_char "," (Py.remove_char "$" s)) in
    py_float s2.

(** [format_currency] *)
Definition format_currency (amount : option num) : string :=
  match amount with
  | None => EmptyString
  | Some x => "$" +:+ format_2f x
  end.

(* ---------------------------------------------------------------- *)
(** ** Identity canonicalisation *)
(* ---------------------------------------------------------------- *)

(** A constituent row with the two helper columns of the sort. *)
Record Stamped := {
  s_row : Constituent;
  s_dt : option Z;   (* _date_entered_dt *)
  s_index : nat      (* _row *)
}.

Definition stamp (dts : list (option Z)) (i : nat) (r : Constituent)
  : Stamped :=
  {| s_row := with_pid_str r; s_dt := mjoin (dts !! i); s_index := i |}.

(** The order of [sort_values] on Patron ID, _date_entered_dt and _row,
    ascending = True, False, False. *)
Definition constituents_order (a b : Stamped) : comparison :=
  Pd.cmp_then (String.compare (pid_of (s_row a)) (pid_of (s_row b)))
    (Pd.cmp_then (Pd.na_last (Pd.desc Z.compare) (s_dt a) (s_dt b))
       (Pd.desc Nat.compare (s_index a) (s_index b))).

Definition stamped_constituents (c : list Constituent) : list Stamped :=
  imap (stamp (to_datetime (fmap date_entered c))) c.

(** [dedupe_constituents_latest] *)
Definition dedupe_constituents_latest (c : list Constituent)
  : list Constituent :=
  let c1 := stamped_constituents c in
  let c2 := Pd.sort_values constituents_order c1 in
  let c3 := Pd.drop_duplicates (fun s => pid_of (s_row s)) c2 in
  fmap s_row c3.

(* ---------------------------------------------------------------- *)
(** ** Donation aggregation *)
(* ---------------------------------------------------------------- *)

(** A donation row with the two parsed columns. *)
Record DonationWork := {
  w_pid : string;
  w_amount : option num;   (* amount_num *)
  w_date : option Z;       (* date_dt *)
  w_status : cell
}.

Definition donation_work (dates : list (option Z)) (i : nat)
    (r : DonationRow) : DonationWork :=
  {| w_pid := Pd.astype_str (d_patron_id r);
     w_amount := parse_currency_to_float (d_amount r);
     w_date := mjoin (dates !! i);
     w_status := d_status r |}.

Definition donation_frame (rows : list DonationRow) : list DonationWork :=
  imap (donation_work (to_datetime (fmap d_date rows))) rows.

(** [df[Status].fillna(empty).str.lower() == paid] *)
Definition is_paid (w : DonationWork) : bool :=
  String.eqb (Py.lower (Pd.fillna_empty (w_status w))) "paid".

(** A row that survived [dropna]: both parsed columns hold a value. *)
Record Qualified := { q_pid : string; q_amount : num; q_date : Z }.

Definition dropna (w : DonationWork) : option Qualified :=
  match w_amount w, w_date w with
  | Some a, Some d => Some {| q_pid := w_pid w; q_amount := a; q_date := d |}
  | _, _ => None
  end.

(** The rows that reach the aggregation. *)
Definition qualifying (d : Donations) : list Qualified :=
  let df := donation_frame (donation_rows d) in
  let df := if has_status d then filter (fun w => is_paid w = true) df
            else df in
  omap dropna df.

(** The order of [sort_values] on Patron ID, date_dt and amount_num,
    ascending = True, False, False. *)
Definition donations_order (a b : Qualified) : comparison :=
  Pd.cmp_then (String.compare (q_pid a) (q_pid b))
    (Pd.cmp_then (Pd.desc Z.compare (q_date a) (q_date b))
       (Pd.desc num_compare (q_amount a) (q_amount b))).

(** [df.groupby(Patron ID).sum()]: the lifetime_sum column, by key. *)
Definition lifetime (df : list Qualified) : list (string * option num) :=
  fmap (fun k => (k, series_sum (fmap q_amount (Pd.group q_pid k df))))
      (Pd.group_keys (fmap q_pid df)).

(** [df_sorted.groupby(Patron ID).first()]: recent_date and
    recent_amount, by key. *)
Definition recent (df : list Qualified) : list (string * (Z * num)) :=
  let df_sorted := Pd.sort_values donations_order df in
  omap (fun k =>
          (fun r => (k, (q_date r, q_amount r)))
            <$> head (Pd.group q_pid k df_sorted))
       (Pd.group_keys (fmap q_pid df_sorted)).

Record Metrics := {
  m_pid : string;
  m_lifetime : string;
  m_recent_date : string;
  m_recent_amount : string
}.

(** The value of a key in a two-column table with distinct keys. *)
Definition lookup_key {V : Type} (k : string) (t : list (string * V))
  : option V :=
  snd <$> head (filter (fun kv => fst kv = k) t).

(** One row of the outer merge of [lifetime] and [recent], rendered. *)
Definition metrics_row (lt : list (string * option num))
    (rc : list (string * (Z * num))) (k : string) : Metrics :=
  {| m_pid := k;
     m_lifetime := format_currency (mjoin (lookup_key k lt));
     m_recent_date :=
       match lookup_key k rc with
       | Some (d, _) => isoformat d
       | None => EmptyString
       end;
     m_recent_amount :=
       match lookup_key k rc with
       | Some (_, a) => format_currency (Some a)
       | None => EmptyString
       end |}.

(** [build_donation_metrics] *)
Definition build_donation_metrics (d : Donations) : list Metrics :=
  let df := qualifying d in
  if bool_decide (df = []) then []
  else
    let lt := lifetime df in
    let rc := recent df in
    fmap (metrics_row lt rc) (Pd.group_keys (fmap fst lt ++ fmap fst rc)).

(* ---------------------------------------------------------------- *)
(** ** Tag counting *)
(* ---------------------------------------------------------------- *)

(** The order of [sort_values] on CB Tag Count and CB Tag Name,
    ascending = False, True. *)
Definition tags_order (a b : string * nat) : comparison :=
  Pd.cmp_then (Pd.desc Nat.compare (snd a) (snd b))
    (String.compare (fst a) (fst b)).

(** The (Patron ID, CB Tag Name) rows of [tag_rows]. *)
Definition tag_rows (mapping : gmap string string) (c : list Constituent)
  : list (string * string) :=
  mbind
    (fun r => fmap (fun t => (pid_of r, t)) (final_tags mapping (tags r)))
    c.

(** The non-empty branch: distinct pairs, grouped by tag, the number
    of distinct Patron IDs of each, sorted. *)
Definition tag_counts (rows : list (string * string))
  : list (string * nat) :=
  let tags_unique := Pd.drop_duplicates id rows in
  let counted :=
    fmap (fun t =>
           (t, length (Pd.drop_duplicates id
                         (fmap fst (Pd.group snd t tags_unique)))))
        (Pd.group_keys (fmap snd tags_unique)) in
  Pd.sort_values tags_order counted.

Definition tags_record (tc : string * nat) : list value :=
  [VStr (fst tc); VInt (Z.of_nat (snd tc))].

(** The tags table of [transform]. *)
Definition tags_table (mapping : gmap string string)
    (c : list Constituent) : Frame :=
  let rows := tag_rows mapping c in
  if bool_decide (rows = [])
  then {| columns := tags_columns; records := [] |}
  else {| columns := tags_columns;
          records := fmap tags_record (tag_counts rows) |}.

(* ---------------------------------------------------------------- *)
(** ** Record assembly *)
(* ---------------------------------------------------------------- *)

(** The columns computed from the left merge of the identifiers with
    the constituents: [oc] is the matching row, if there is one. *)
Record CoreRow := {
  k_id : string;
  k_type : ctype;
  k_first_name : string;
  k_last_name : string;
  k_company_name : string;
  k_created_at : string;
  k_title : string;
  k_tags : string;
  k_background : string
}.

Definition core_row (mapping : gmap string string)
    (merged : string * option Constituent) : CoreRow :=
  let id := fst merged in
  let col (f : Constituent -> cell) : cell := snd merged ≫= f in
  let ty := match col patron_id with
            | Some _ => classify_constituent_type (col company)
            | None => Person
            end in
  let names := fill_missing_person_names id (col first_name) (col last_name) in
  let job := _clean_str (col title) in
  {| k_id := id;
     k_type := ty;
     k_first_name := match ty with Person => fst names | Company => EmptyString end;
     k_last_name := match ty with Person => snd names | Company => EmptyString end;
     k_company_name :=
       match ty with Company => _clean_str (col company) | Person => EmptyString end;
     k_created_at := parse_date_any (col date_entered);
     k_title := normalize_salutation (col salutation);
     k_tags :=
       Py.join ", "
         (apply_tag_mapping (split_tags (Some (Pd.fillna_empty (col tags))))
            mapping);
     k_background :=
       if Py.truthy job then "Job Title: " +:+ job else EmptyString |}.

(** A core row with what the two further left merges bring, the blanks
    for missing donations, and the rule on the second email. *)
Definition out_row (merged : CoreRow * option EmailCols * option Metrics)
  : OutRow :=
  let core := fst (fst merged) in
  let oe := snd (fst merged) in
  let om := snd merged in
  let e1 : cell := ec_email1 <$> oe in
  let e2 : cell := ec_email2 <$> oe in
  {| cb_id := k_id core;
     cb_type := k_type core;
     cb_first_name := k_first_name core;
     cb_last_name := k_last_name core;
     cb_company_name := k_company_name core;
     cb_created_at := k_created_at core;
     cb_email1 := e1;
     cb_email2 :=
       if bool_decide (Pd.fillna_empty e1 = EmptyString)
       then Some EmptyString else e2;
     cb_title := k_title core;
     cb_tags := k_tags core;
     cb_background := k_background core;
     cb_lifetime := Pd.fillna_empty (m_lifetime <$> om);
     cb_recent_date := Pd.fillna_empty (m_recent_date <$> om);
     cb_recent_amount := Pd.fillna_empty (m_recent_amount <$> om) |}.

(** [transform], with the tag mapping given.  The result is [None]
    where the run raises: [build_email_columns] made a frame without
    columns, and its Patron ID column is asked for.  The names of the
    Person rows and the company name of the Company rows are assigned
    row by row in [core_row]; where a table has no row of one kind, the
    assignment for that kind touches nothing. *)
Definition transform (constituents : list Constituent)
    (emails : list EmailRow) (donations : Donations)
    (mapping : gmap string string) : option (list OutRow * Frame) :=
  let c := dedupe_constituents_latest constituents in
  let email_cols := build_email_columns c emails in
  let donation_metrics := build_donation_metrics donations in
  if bool_decide (email_cols = []) then None
  else
    let all_ids :=
      Pd.index_union
        (Pd.index_union (fmap pid_of c) (fmap ec_pid email_cols))
        (fmap m_pid donation_metrics) in
    let out := Pd.merge_left id pid_of all_ids c in
    let out := fmap (core_row mapping) out in
    let out := Pd.merge_left k_id ec_pid out email_cols in
    let out := Pd.merge_left (fun r => k_id (fst r)) m_pid out
                 donation_metrics in
    Some (fmap out_row out, tags_table mapping c).

(* ---------------------------------------------------------------- *)
(** ** Validation of the tags table ([validate.py]) *)
(* ---------------------------------------------------------------- *)

(** The values of a column, by its first position in the header. *)
Definition column_values (col : string) (df : Frame) : list value :=
  match list_find (fun c => c = col) (columns df) with
  | Some (i, _) => fmap (fun r => default VNaN (r !! i)) (records df)
  | None => []
  end.

(** [pd.to_numeric(v, errors=coerce)] is NaN. *)
Definition not_numeric (v : value) : bool :=
  match v with
  | VInt _ => false
  | VNaN => true
  | VStr s => negb (str_is_numeric s)
  end.

(** [validate_tags] *)
Definition validate_tags (df : Frame) : list string :=
  if frame_empty df then []
  else
    let issues :=
      mbind
        (fun col =>
           if bool_decide (col ∈ columns df) then []
           else ["Missing required column: " +:+ col])
        tags_columns in
    if bool_decide ("CB Tag Count" ∈ columns df) then
      let bad := filter (fun v => not_numeric v = true)
                   (column_values "CB Tag Count" df) in
      if negb (length bad =? 0)
      then issues ++ ["Non-numeric CB Tag Count values found"]
      else issues
    else issues.

End Pipeline.


(* ------------------------------------------------------------------ *)
(** ** The remote tag taxonomy ([fetch_tag_mapping]) *)
(* ------------------------------------------------------------------ *)

(** A row of the decoded answer of the taxonomy service: what [row.get]
    finds under the keys name and mapped_name.  [_clean_str] makes the
    empty string of a null and of the default of a missing key alike, so
    [None] stands for both. *)
Record TagRow := { tr_name : cell; tr_mapped_name : cell }.

(** The loop over the rows of the answer; an assignment to a key that
    is already there replaces its value. *)
Fixpoint tag_mapping_loop (data : list TagRow) (mapping : gmap string string)
  : gmap string string :=
  match data with
  | [] => mapping
  | row :: data' =>
      let name := _clean_str (tr_name row) in
      let mapped := _clean_str (tr_mapped_name row) in
      if Py.truthy name && Py.truthy mapped
      then tag_mapping_loop data'
             (<[Py.lower (Py.strip name) := Py.strip mapped]> mapping)
      else tag_mapping_loop data' mapping
  end.

(** [fetch_tag_mapping].  [response] is the decoded answer of the
    service; it is [None] when the requests module is missing, or the
    request, its status check, the decoding or a row that is no
    dictionary raises: every exception ends in the empty mapping. *)
Definition fetch_tag_mapping (response : option (list TagRow))
  : gmap string string :=
  match response with
  | None => ∅
  | Some data => tag_mapping_loop data ∅
  end.

(* ------------------------------------------------------------------ *)
(** ** Validation of the constituents table ([validate.py]) *)
(* ------------------------------------------------------------------ *)

#[global] Instance value_eq_dec : EqDecision value.
Proof. solve_decision. Defined.

(** [str(n)] for an integer. *)
Definition str_int (n : Z) : string :=
  DecimalString.NilZero.string_of_int (Z.to_int n).

(** [series.fillna(empty string)] on one value. *)
Definition fillna_value (v : value) : value :=
  match v with
  | VNaN => VStr EmptyString
  | _ => v
  end.

(** [series.str.strip()] on one value: NaN for what is not a string. *)
Definition str_strip (v : value) : value :=
  match v with
  | VStr s => VStr (Py.strip s)
  | _ => VNaN
  end.

(** [series.astype(str)] on one value. *)
Definition astype_str_value (v : value) : string :=
  match v with
  | VStr s => s
  | VInt n => str_int n
  | VNaN => "nan"
  end.

(** [series.isin(values)] on one value. *)
Definition isin (values : list value) (v : value) : bool :=
  bool_decide (v ∈ values).

(** The value a record holds in a column, by the first position of the
    column in the header. *)
Definition cell_at (df : Frame) (col : string) (r : list value) : value :=
  match list_find (fun c => c = col) (columns df) with
  | Some (i, _) => default VNaN (r !! i)
  | None => VNaN
  end.

(** [.empty] of a selection of the records of [df]. *)
Definition selection_empty (df : Frame) (rows : list (list value)) : bool :=
  frame_empty {| columns := columns df; records := rows |}.

(** An issue of [validate_constituents]: the wording of the message, and
    the values it is formatted with. *)
Inductive issue :=
  | Missing_required_column (c : string)
  | Invalid_type_values (found : list value)
  | Person_rows_missing_name (n : nat)
  | Company_rows_missing_name (n : nat)
  | Email2_without_email1 (n : nat)
  | Email1_equal_to_email2 (n : nat)
  | Invalid_email1_values (examples : list string)
  | Invalid_email2_values (examples : list string)
  | Invalid_title_values (found : list value)
  | Tags_issue (message : string).

Definition required_cols : list string :=
  ["CB Constituent ID"; "CB Constituent Type"; "CB Created At";
   "CB Email 1 (Standardized)"; "CB Email 2 (Standardized)"; "CB Title"].

Definition allowed_titles : list value :=
  [VStr "Mr."; VStr "Mrs."; VStr "Ms."; VStr "Dr."; VStr EmptyString].

(** [c in df.columns] *)
Definition has_column (df : Frame) (c : string) : bool :=
  bool_decide (c ∈ columns df).

(** The first block of [validate_constituents]: required columns. *)
Definition missing_columns (df : Frame) : list issue :=
  mbind (fun c => if has_column df c then [] else [Missing_required_column c])
        required_cols.

(** The second block: constituent type values. *)
Definition type_issues (df : Frame) : list issue :=
  if has_column df "CB Constituent Type" then
    let bad :=
      filter (fun r => isin [VStr "Person"; VStr "Company"]
                         (cell_at df "CB Constituent Type" r) = false)
             (records df) in
    if negb (selection_empty df bad)
    then [Invalid_type_values
            (Pd.drop_duplicates id (cell_at df "CB Constituent Type" <$> bad))]
    else []
  else [].

(** [series.fillna(empty string).str.strip() == empty string] on the
    value of a column in one record. *)
Definition blank_at (df : Frame) (c : string) (r : list value) : bool :=
  bool_decide (str_strip (fillna_value (cell_at df c r)) = VStr EmptyString).

(** The third block: names of the Person rows, company name of the
    Company rows. *)
Definition name_issues (df : Frame) : list issue :=
  if forallb (has_column df)
       ["CB Constituent Type"; "CB First Name"; "CB Last Name";
        "CB Company Name"]
  then
    let people :=
      filter (fun r => cell_at df "CB Constituent Type" r = VStr "Person")
             (records df) in
    let bad_people :=
      filter (fun r => blank_at df "CB First Name" r
                       || blank_at df "CB Last Name" r = true)
             people in
    let companies :=
      filter (fun r => cell_at df "CB Constituent Type" r = VStr "Company")
             (records df) in
    let bad_companies :=
      filter (fun r => blank_at df "CB Company Name" r = true) companies in
    (if negb (selection_empty df bad_people)
     then [Person_rows_missing_name (length bad_people)] else [])
    ++ (if negb (selection_empty df bad_companies)
        then [Company_rows_missing_name (length bad_companies)] else [])
  else [].

(** [df[c].fillna(empty string).astype(str)] on one record. *)
Definition email_at (df : Frame) (c : string) (r : list value) : string :=
  astype_str_value (fillna_value (cell_at df c r)).

(** The addresses of a column that are not blank and not valid, each
    once, in the order of the table. *)
Definition invalid_emails (df : Frame) (c : string) : list string :=
  filter (fun x => Py.truthy (Py.strip x) && negb (is_valid_email (Some x))
                   = true)
         (Pd.drop_duplicates id (email_at df c <$> records df)).

(** The fourth block: email rules. *)
Definition email_issues (df : Frame) : list issue :=
  if has_column df "CB Email 1 (Standardized)"
     && has_column df "CB Email 2 (Standardized)"
  then
    let e1 := email_at df "CB Email 1 (Standardized)" in
    let e2 := email_at df "CB Email 2 (Standardized)" in
    let bad_e2 :=
      filter (fun r => String.eqb (Py.strip (e1 r)) EmptyString
                       && negb (String.eqb (Py.strip (e2 r)) EmptyString)
                       = true)
             (records df) in
    let bad_same :=
      filter (fun r => negb (String.eqb (Py.strip (e1 r)) EmptyString)
                       && String.eqb (e1 r) (e2 r) = true)
             (records df) in
    let invalid_e1 := invalid_emails df "CB Email 1 (Standardized)" in
    let invalid_e2 := invalid_emails df "CB Email 2 (Standardized)" in
    (if negb (selection_empty df bad_e2)
     then [Email2_without_email1 (length bad_e2)] else [])
    ++ (if negb (selection_empty df bad_same)
        then [Email1_equal_to_email2 (length bad_same)] else [])
    ++ (match invalid_e1 with
        | [] => []
        | _ => [Invalid_email1_values (take 5 invalid_e1)]
        end)
    ++ (match invalid_e2 with
        | [] => []
        | _ => [Invalid_email2_values (take 5 invalid_e2)]
        end)
  else [].

(** The fifth block: the allowed titles. *)
Definition title_issues (df : Frame) : list issue :=
  if has_column df "CB Title" then
    let bad_title :=
      filter (fun r => isin allowed_titles (fillna_value (cell_at df "CB Title" r))
                       = false)
             (records df) in
    if negb (selection_empty df bad_title)
    then [Invalid_title_values
            (Pd.drop_duplicates id (cell_at df "CB Title" <$> bad_title))]
    else []
  else [].

(** [validate_constituents]: the issues of its five blocks, in order. *)
Definition validate_constituents (df : Frame) : list issue :=
  missing_columns df ++ type_issues df ++ name_issues df ++ email_issues df
  ++ title_issues df.

(* ------------------------------------------------------------------ *)
(** ** The constituents table as a frame, and the run ([main.py]) *)
(* ------------------------------------------------------------------ *)

(** The final column order of [transform]. *)
Definition final_cols : list string :=
  ["CB Constituent ID"; "CB Constituent Type"; "CB First Name";
   "CB Last Name"; "CB Company Name"; "CB Created At";
   "CB Email 1 (Standardized)"; "CB Email 2 (Standardized)"; "CB Title";
   "CB Tags"; "CB Background Information"; "CB Lifetime Donation Amount";
   "CB Most Recent Donation Date"; "CB Most Recent Donation Amount"].

Definition type_name (t : ctype) : string :=
  match t with
  | Person => "Person"
  | Company => "Company"
  end.

Definition cell_value (x : cell) : value :=
  match x with
  | Some s => VStr s
  | None => VNaN
  end.

Definition constituents_record (r : OutRow) : list value :=
  [VStr (cb_id r); VStr (type_name (cb_type r)); VStr (cb_first_name r);
   VStr (cb_last_name r); VStr (cb_company_name r); VStr (cb_created_at r);
   cell_value (cb_email1 r); cell_value (cb_email2 r); VStr (cb_title r);
   VStr (cb_tags r); VStr (cb_background r); VStr (cb_lifetime r);
   VStr (cb_recent_date r); VStr (cb_recent_amount r)].

(** The constituents table [transform] returns, with its header. *)
Definition constituents_frame (out : list OutRow) : Frame :=
  {| columns := final_cols; records := constituents_record <$> out |}.

Section Run.
Context `{RT : Runtime}.

(** The exit status of [main], given the tables read from the three
    input files and the answer of the taxonomy service; [None] where
    [transform] raises.  Reading and writing the files is outside the
    model. *)
Definition main (no_network : bool) (response : option (list TagRow))
    (constituents : list Constituent) (emails : list EmailRow)
    (donations : Donations) : option Z :=
  let mapping := if no_network then ∅ else fetch_tag_mapping response in
  match transform constituents emails donations mapping with
  | None => None
  | Some (out_constituents, out_tags) =>
      let issues :=
        validate_constituents (constituents_frame out_constituents)
        ++ (Tags_issue <$> validate_tags out_tags) in
      Some (match issues with [] => 0%Z | _ => 2%Z end)
  end.

End Run.
(* ------------------------------------------------------------------ *)
(** ** The properties, worded as the specification words them *)
(* ------------------------------------------------------------------ *)

(** The shape a valid address has, as the specification words it, with
    the set of characters that must not occur left open. *)
Definition email_wellformed (forbidden : ascii -> bool) (e : string) : Prop :=
  Py.count_char "@" e = 1 /\
  (exists local domain : string,
      e = local +:+ String "@" domain /\
      local <> EmptyString /\ domain <> EmptyString /\
      Py.contains_char "." domain = true) /\
  (forall c, Py.contains_char c e = true -> forbidden c = false).

(** The one character [is_valid_email] looks for: the space. *)
Definition is_blank (c : ascii) : bool := Ascii.eqb c " ".

(** An address with a tab inside: accepted by the code, although it holds
    white space. *)
Definition tabbed_address : cell :=
  Some ("a" +:+ String (ascii_of_nat 9) "b@c.d").

(** The same address, as a text. *)
Definition tabbed_text : string := "a" +:+ String (ascii_of_nat 9) "b@c.d".

(** Every character of the text is of the kind [p]. *)
Fixpoint all_chars (p : ascii -> bool) (s : string) : bool :=
  match s with
  | EmptyString => true
  | String a s' => p a && all_chars p s'
  end.

(** [e] is [s] without the characters of the kind [p] that surround it:
    what is cut off on either side is of that kind, and what is left
    neither begins nor ends with such a character. *)
Definition trimmed (p : ascii -> bool) (s e : string) : Prop :=
  exists l r : string,
    s = l +:+ e +:+ r /\
    all_chars p l = true /\ all_chars p r = true /\
    (forall a e', e = String a e' -> p a = false) /\
    (forall e' a, e = e' +:+ String a EmptyString -> p a = false).

(** The characters trimmed from an address besides white space: the
    space, the angle brackets, the double quote and the apostrophe. *)
Definition is_wrapper (c : ascii) : bool :=
  Ascii.eqb c " " || Ascii.eqb c "<" || Ascii.eqb c ">"
  || Ascii.eqb c (ascii_of_nat 34) || Ascii.eqb c "'".

(** The form in which an address is judged: the text without the white
    space around it, in lower case, without the wrapper characters
    around that. *)
Definition standard_form (s e : string) : Prop :=
  exists t : string,
    trimmed Py.isspace s t /\ trimmed is_wrapper (Py.lower t) e.

(** A comparison that orders: swapping the sides flips it, and not being
    above is transitive. *)
Class GoodCmp {A : Type} (cmp : A -> A -> comparison) : Prop := {
  cmp_opp : forall a b, cmp a b = CompOpp (cmp b a);
  cmp_le_trans :
    forall a b c, cmp a b <> Gt -> cmp b c <> Gt -> cmp a c <> Gt
}.

(** [a] does not come after [b]. *)
Definition cmp_le {A : Type} (cmp : A -> A -> comparison) (a b : A) : Prop :=
  cmp a b <> Gt.

(** Dates as the canonicaliser ranks them: a missing date is below every
    date. *)
Definition date_below (a b : option Z) : Prop :=
  match a, b with
  | Some x, Some y => (x < y)%Z
  | None, Some _ => True
  | _, _ => False
  end.

(** The kept row stands before the rows it ties with. *)
Definition earliest_wins (i j : nat) : Prop := i < j.

(** The kept row stands after the rows it ties with. *)
Definition latest_wins (i j : nat) : Prop := j < i.

(** De-duplication that keeps first occurrences: the head stays, and
    whatever has its key later on goes. *)
Fixpoint dedupe_by {A K : Type} `{EqDecision K} (key : A -> K) (l : list A)
  : list A :=
  match l with
  | [] => []
  | x :: l' => x :: filter (fun y => key y <> key x) (dedupe_by key l')
  end.

(** The shape shared by the three loops that carry a [seen] set: an item
    goes to the end of [out] unless its key was seen. *)
Fixpoint seen_loop (key : string -> string) (items : list string)
    (seen : gset string) (out : list string) : list string :=
  match items with
  | [] => out
  | x :: items' =>
      if bool_decide (key x ∈ seen) then seen_loop key items' seen out
      else seen_loop key items' ({[key x]} ∪ seen) (out ++ [x])
  end.







(** The local tag list, in the words of the specification: split on the
    comma, trim each piece, drop the empty pieces, de-duplicate without
    regard to case. *)
Definition local_tags_spec (raw : cell) : list string :=
  dedupe_by Py.lower
    (filter (fun p => p <> EmptyString)
       (Py.strip <$> Py.split "," (_clean_str raw))).

(** The final tag list, in the words of the specification: look each
    local tag up by its lowercase form, keep it when the mapping has no
    entry, drop what is empty, de-duplicate without regard to case.
    [clean] is what happens to the mapped name before it is used. *)
Definition final_tags_spec (clean : string -> string)
    (mapping : gmap string string) (raw : cell) : list string :=
  dedupe_by Py.lower
    (filter (fun t => t <> EmptyString)
       ((fun t => clean (default t (mapping !! Py.lower t)))
          <$> local_tags_spec raw)).

(** The order of the tags table: the larger count first, and among equal
    counts the smaller name first. *)
Definition count_desc_name_asc (a b : string * nat) : Prop :=
  snd b < snd a \/ (snd a = snd b /\ String.le (fst a) (fst b)).

Section Properties.
Context `{RT : Runtime}.

(** The parsed creation date of row [i] of the table. *)
Definition date_of (c : list Constituent) (i : nat) : option Z :=
  mjoin (to_datetime (fmap date_entered c) !! i).

(** Exactly one row is kept for the key [k]: a row [i] of the input
    that beats every other row of the key on the date, or has the same
    date and stands where [tie] says against it. *)
Definition kept_row_rule (tie : nat -> nat -> Prop)
    (c : list Constituent) (k : string) : Prop :=
  exists (i : nat) (r : Constituent),
    c !! i = Some r /\ pid_of r = k /\
    filter (fun r' => pid_of r' = k) (dedupe_constituents_latest c)
      = [with_pid_str r] /\
    forall (j : nat) (r' : Constituent),
      c !! j = Some r' -> pid_of r' = k -> j <> i ->
      date_below (date_of c j) (date_of c i)
      \/ (date_of c j = date_of c i /\ tie i j).

(** The parsed date of row [i] of the donations table. *)
Definition donation_date_of (d : Donations) (i : nat) : option Z :=
  mjoin (to_datetime (d_date <$> donation_rows d) !! i).

(** What row [i] brings to the aggregation, in the words of the
    specification: the row counts when its amount and its date parse
    and, if the table has a Status column, its status is paid, whatever
    the case. *)
Definition contribution (d : Donations) (i : nat) (r : DonationRow)
  : option Qualified :=
  match parse_currency_to_float (d_amount r), donation_date_of d i with
  | Some a, Some dt =>
      if has_status d
         && negb (String.eqb (Py.lower (Pd.fillna_empty (d_status r))) "paid")
      then None
      else Some {| q_pid := Pd.astype_str (d_patron_id r);
                   q_amount := a; q_date := dt |}
  | _, _ => None
  end.

(** The same, as a condition on the row. *)
Definition contributes (d : Donations) (i : nat) (r : DonationRow)
    (q : Qualified) : Prop :=
  parse_currency_to_float (d_amount r) = Some (q_amount q) /\
  donation_date_of d i = Some (q_date q) /\
  (has_status d = true ->
   Py.lower (Pd.fillna_empty (d_status r)) = "paid") /\
  q_pid q = Pd.astype_str (d_patron_id r).

(** [q] is the most recent of the contributing rows of its identity:
    none has a later timestamp, the time of day included, and none of
    the very same timestamp a larger amount. *)
Definition most_recent (d : Donations) (q : Qualified) : Prop :=
  q ∈ qualifying d /\
  forall q', q' ∈ qualifying d -> q_pid q' = q_pid q ->
    (q_date q' < q_date q)%Z
    \/ (q_date q' = q_date q
        /\ num_compare (q_amount q') (q_amount q) <> Gt).

(** The same by the calendar day alone, the day being what [isoformat]
    shows of a timestamp: no contributing row of the identity is of a
    later day, and none of the same day has a larger amount. *)
Definition latest_day_largest_amount (d : Donations) (q : Qualified) : Prop :=
  q ∈ qualifying d /\
  forall q', q' ∈ qualifying d -> q_pid q' = q_pid q ->
    (isoformat (q_date q') = isoformat (q_date q) ->
     num_compare (q_amount q') (q_amount q) <> Gt) /\
    (isoformat (q_date q') <> isoformat (q_date q) ->
     (q_date q' < q_date q)%Z).

(** The amounts of the contributing rows of an identity, in table
    order. *)
Definition amounts_of (d : Donations) (k : string) : list num :=
  q_amount <$> Pd.group q_pid k (qualifying d).

(** The lifetime totals of the metrics table, parsed back to numbers. *)
Definition parsed_back_totals (d : Donations) : list num :=
  omap (fun m => parse_currency_to_float (Some (m_lifetime m)))
       (build_donation_metrics d).

(** The amounts of the rows of the raw table whose status is paid, for
    the identities that have a row in the metrics table. *)
Definition paid_amounts (d : Donations) : list num :=
  omap (fun r => parse_currency_to_float (d_amount r))
       (filter
          (fun r =>
             Py.lower (Pd.fillna_empty (d_status r)) = "paid" /\
             Pd.astype_str (d_patron_id r)
               ∈ m_pid <$> build_donation_metrics d)
          (donation_rows d)).


End Properties.


(* ------------------------------------------------------------------ *)
(** ** A runtime for worked examples *)
(* ------------------------------------------------------------------ *)

(** Dates written YYYY-MM-DD and amounts written with at most two
    decimals, on which Python and pandas leave no doubt: a timestamp is
    the number yyyymmdd, an amount is a whole number of cents. *)
Module Sample.

Definition digit (c : ascii) : option Z :=
  let n := nat_of_ascii c in
  if (48 <=? n) && (n <=? 57) then Some (Z.of_nat (n - 48)) else None.

Fixpoint digits_from (acc : Z) (s : string) : option Z :=
  match s with
  | EmptyString => Some acc
  | String c s' =>
      match digit c with
      | Some d => digits_from (10 * acc + d) s'
      | None => None
      end
  end.

(** A non-empty run of decimal digits. *)
Definition natural (s : string) : option Z :=
  match s with
  | EmptyString => None
  | _ => digits_from 0 s
  end.

Definition iso_date (s : string) : option Z :=
  if negb (String.length s =? 10) then None
  else
    match natural (String.substring 0 4 s), String.get 4 s,
          natural (String.substring 5 2 s), String.get 7 s,
          natural (String.substring 8 2 s) with
    | Some y, Some sep1, Some m, Some sep2, Some d =>
        if Ascii.eqb sep1 "-" && Ascii.eqb sep2 "-"
           && (1 <=? m)%Z && (m <=? 12)%Z && (1 <=? d)%Z && (d <=? 31)%Z
        then Some (y * 10000 + m * 100 + d)%Z
        else None
    | _, _, _, _, _ => None
    end.

Definition show (n : Z) : string :=
  DecimalString.NilZero.string_of_uint (N.to_uint (Z.to_N n)).

Definition pad (width : nat) (s : string) : string :=
  String.concat EmptyString (replicate (width - String.length s) "0") +:+ s.

Definition iso_of (ts : Z) : string :=
  pad 4 (show (ts / 10000)) +:+ "-" +:+ pad 2 (show (ts / 100 mod 100))
    +:+ "-" +:+ pad 2 (show (ts mod 100)).

(** The digits after the point, as cents. *)
Definition cents (s : string) : option Z :=
  match String.length s with
  | 1 => Z.mul 10 <$> natural s
  | 2 => natural s
  | _ => None
  end.

Definition unsigned_amount (s : string) : option Z :=
  match Py.split1 "." s with
  | [whole] => Z.mul 100 <$> natural whole
  | [whole; frac] =>
      match natural whole, cents frac with
      | Some w, Some f => Some (100 * w + f)%Z
      | _, _ => None
      end
  | _ => None
  end.

Definition amount (s : string) : option Z :=
  match s with
  | String "-" s' => Z.opp <$> unsigned_amount s'
  | _ => unsigned_amount s
  end.

(** A comma before every group of three digits, from the right. *)
Fixpoint commas (s : string) : string :=
  match s with
  | EmptyString => EmptyString
  | String c s' =>
      if (String.length s' mod 3 =? 0) && negb (String.length s' =? 0)
      then String c (String "," (commas s'))
      else String c (commas s')
  end.

Definition show_amount (n : Z) : string :=
  (if (n <? 0)%Z then "-" else EmptyString)
    +:+ commas (show (Z.abs n / 100)) +:+ "." +:+ pad 2 (show (Z.abs n mod 100)).

Definition runtime : Runtime :=
  {| to_datetime := fmap (fun c => c ≫= iso_date);
     to_datetime_scalar := iso_date;
     isoformat := iso_of;
     num := Z;
     py_float := amount;
     num_compare := Z.compare;
     series_sum := fun l => Some (foldr Z.add 0%Z l);
     format_2f := show_amount;
     str_is_numeric := fun s => bool_decide (is_Some (amount s)) |}.

Definition constituent (id first last entered email tgs : string)
  : Constituent :=
  {| patron_id := Some id; company := None;
     first_name := Some first; last_name := Some last;
     salutation := None; title := None;
     date_entered := Some entered; primary_email := Some email;
     tags := Some tgs |}.

Definition donation (id amt date status : string) : DonationRow :=
  {| d_patron_id := Some id; d_amount := Some amt;
     d_date := Some date; d_status := Some status |}.

Definition email (id addr : string) : EmailRow :=
  {| e_patron_id := Some id; e_email := Some addr |}.

End Sample.

(** The same runtime with timestamps that keep the time of day: a date
    written YYYY-MM-DD, alone or followed by a space and HH:MM, is the
    number yyyymmddhhmm, and its calendar date is its day. *)
Module Clock.

Definition minutes (s : string) : option Z :=
  match Sample.natural (String.substring 0 2 s), String.get 2 s,
        Sample.natural (String.substring 3 2 s) with
  | Some h, Some sep, Some m =>
      if Ascii.eqb sep ":" && (h <=? 23)%Z && (m <=? 59)%Z
         && (String.length s =? 5)
      then Some (h * 100 + m)%Z
      else None
  | _, _, _ => None
  end.

Definition timestamp (s : string) : option Z :=
  match Sample.iso_date (String.substring 0 10 s) with
  | None => None
  | Some day =>
      if String.length s =? 10 then Some (day * 10000)%Z
      else
        match String.get 10 s, minutes (String.substring 11 5 s) with
        | Some sep, Some hm =>
            if Ascii.eqb sep " " && (String.length s =? 16)
            then Some (day * 10000 + hm)%Z
            else None
        | _, _ => None
        end
  end.

Definition runtime : Runtime :=
  {| to_datetime := fmap (fun c => c ≫= timestamp);
     to_datetime_scalar := timestamp;
     isoformat := fun ts => Sample.iso_of (ts / 10000);
     num := Z;
     py_float := Sample.amount;
     num_compare := Z.compare;
     series_sum := fun l => Some (foldr Z.add 0%Z l);
     format_2f := Sample.show_amount;
     str_is_numeric := fun s => bool_decide (is_Some (Sample.amount s)) |}.

End Clock.

(** The same runtime with amounts of up to three decimals, kept as whole
    thousandths of a dollar and rendered to the nearest cent (an amount
    halfway between two cents goes up; the examples hold none). *)
Module Mills.

(** The digits after the point, as thousandths. *)
Definition thousandths (s : string) : option Z :=
  match String.length s with
  | 1 => Z.mul 100 <$> Sample.natural s
  | 2 => Z.mul 10 <$> Sample.natural s
  | 3 => Sample.natural s
  | _ => None
  end.

Definition unsigned_amount (s : string) : option Z :=
  match Py.split1 "." s with
  | [whole] => Z.mul 1000 <$> Sample.natural whole
  | [whole; frac] =>
      match Sample.natural whole, thousandths frac with
      | Some w, Some f => Some (1000 * w + f)%Z
      | _, _ => None
      end
  | _ => None
  end.

Definition amount (s : string) : option Z :=
  match s with
  | String "-" s' => Z.opp <$> unsigned_amount s'
  | _ => unsigned_amount s
  end.

Definition show_amount (n : Z) : string :=
  Sample.show_amount ((n + 5) / 10).

Definition runtime : Runtime :=
  {| to_datetime := fmap (fun c => c ≫= Sample.iso_date);
     to_datetime_scalar := Sample.iso_date;
     isoformat := Sample.iso_of;
     num := Z;
     py_float := amount;
     num_compare := Z.compare;
     series_sum := fun l => Some (foldr Z.add 0%Z l);
     format_2f := show_amount;
     str_is_numeric := fun s => bool_decide (is_Some (amount s)) |}.

End Mills.

(** One settled, dated donation of less than half a cent. *)
Definition sub_cent_donation : Donations :=
  {| has_status := true;
     donation_rows := [Sample.donation "2" "$0.004" "2024-03-01" "paid"] |}.

(** Two settled donations of one identity on one day: the larger in the
    morning, the smaller in the afternoon. *)
Definition same_day_donations : Donations :=
  {| has_status := true;
     donation_rows :=
       [Sample.donation "2" "$100" "2024-03-01 09:00" "paid";
        Sample.donation "2" "$5" "2024-03-01 17:00" "paid"] |}.

(** The rows of these that reach the aggregation. *)
Definition same_day_qualifying : list (Qualified (RT := Clock.runtime)) :=
  Eval vm_compute in qualifying (RT := Clock.runtime) same_day_donations.

(** Two snapshots of one identity entered on the same day. *)
Definition same_day_snapshots : list Constituent :=
  [Sample.constituent "1" "Jane" "Doe" "2024-01-01" "" "";
   Sample.constituent "1" "Jane" "Smith" "2024-01-01" "" ""].

(** An identity known from the emails table only, with the same address
    twice, in two spellings, and a second address. *)
Definition email_only_rows : list EmailRow :=
  [Sample.email "7" "JANE@Example.com";
   Sample.email "7" "jane@example.com";
   Sample.email "7" "j.doe@example.org"].

(** A mapping whose replacement name is padded with spaces. *)
Definition padded_mapping : gmap string string := {[ "vip" := " Patron " ]}.

(** A settled donation and a refunded one, of one identity. *)
Definition settled_and_refunded : Donations :=
  {| has_status := true;
     donation_rows :=
       [Sample.donation "2" "$50" "2024-03-01" "paid";
        Sample.donation "2" "$20" "2024-05-01" "refunded"] |}.


(** A tags table without records and without the required columns. *)
Definition headless_frame : Frame :=
  {| columns := ["Tag"]; records := [] |}.

(** A small run: two snapshots of one person, a company, an identity
    known from the emails table only and one known from the donations
    table only. *)
Definition run_constituents : list Constituent :=
  [Sample.constituent "1" "Jane" "Doe" "2024-01-01" "JANE@Example.com"
     "Board, board, Donor";
   Sample.constituent "1" "Jane" "Smith" "2024-06-01" "JANE@Example.com"
     "Board, board, Donor";
   {| patron_id := Some "3"; company := Some "Acme Ltd";
      first_name := None; last_name := None;
      salutation := None; title := Some "Buyer";
      date_entered := Some "2023-11-30"; primary_email := None;
      tags := Some "donor" |}].

Definition run_emails : list EmailRow :=
  Sample.email "1" "jane@example.com" :: email_only_rows.

Definition run_mapping : gmap string string := {[ "donor" := "Major Donor" ]}.

Definition run_result : list OutRow * Frame :=
  Eval vm_compute in
    default ([], {| columns := []; records := [] |})
      (transform (RT := Sample.runtime) run_constituents run_emails
         settled_and_refunded run_mapping).

(** The rows of the run for the identities 1, 2 and 3. *)
Definition run_person : OutRow :=
  Eval vm_compute in
    default (out_row (core_row (RT := Sample.runtime) ∅ (EmptyString, None),
                      None, None))
            (fst run_result !! 0).

Definition run_company : OutRow :=
  Eval vm_compute in default run_person (fst run_result !! 2).

(** The donations of two identities: settled ones, one of them written
    with a thousands separator, and a refunded one. *)
Definition two_donors : Donations :=
  {| has_status := true;
     donation_rows :=
       [Sample.donation "2" "$50" "2024-03-01" "paid";
        Sample.donation "5" "$20.25" "2024-02-10" "Paid";
        Sample.donation "2" "$1,250.50" "2024-04-01" "PAID";
        Sample.donation "5" "$7" "2024-02-11" "refunded"] |}.

(* ------------------------------------------------------------------ *)
(** ** Further properties: taxonomy, assembly, order, validation *)
(* ------------------------------------------------------------------ *)

(** The rows of the taxonomy answer that carry both a name and a
    replacement, as pairs of the lowercased name and the replacement,
    both trimmed, in the order of the answer. *)
Definition tag_entries (data : list TagRow) : list (string * string) :=
  omap
    (fun row =>
       let name := _clean_str (tr_name row) in
       let mapped := _clean_str (tr_mapped_name row) in
       if bool_decide (name <> EmptyString /\ mapped <> EmptyString)
       then Some (Py.lower name, mapped)
       else None)
    data.

(** Each element is below all the elements after it. *)
Definition strictly_ascending (l : list string) : Prop :=
  StronglySorted (fun a b => String.compare a b = Lt) l.

(** The row of a table with distinct keys that has the key [k]. *)
Definition find_row {A : Type} (key : A -> string) (k : string) (t : list A)
  : option A :=
  head (filter (fun r => key r = k) t).

(** The text of an amount cell without the dollar signs, the thousands
    separators and the white space around it. *)
Definition bare_amount (s : string) : string :=
  Py.strip (Py.remove_char "," (Py.remove_char "$" s)).

Section Assembled.
Context `{RT : Runtime}.


(** The output row of an identity: the columns computed from its
    canonical constituent row, its row of the resolver and its row of
    the donation metrics, each where there is one. *)
Definition assembled (c0 : list Constituent) (em : list EmailRow)
    (d : Donations) (mapping : gmap string string) (id : string) : OutRow :=
  let c := dedupe_constituents_latest c0 in
  out_row
    (core_row mapping (id, find_row pid_of id c),
     find_row ec_pid id (build_email_columns c em),
     find_row m_pid id (build_donation_metrics d)).

End Assembled.

(** Where an address of the resolver comes from: the primary email of a
    constituent row of the identity, or an entry of the identity in the
    emails table. *)
Definition address_source (c : list Constituent) (em : list EmailRow)
    (pid a : string) : Prop :=
  (exists r, r ∈ c /\ pid_of r = pid
             /\ a = standardize_email (Some (_clean_str (primary_email r))))
  \/ (exists x, x ∈ em /\ Pd.astype_str (e_patron_id x) = pid
                /\ a = standardize_email (e_email x)).

(** Two rows of a taxonomy answer for one name, in two spellings, and a
    row without a replacement. *)
Definition sample_answer : list TagRow :=
  [{| tr_name := Some " Donor "; tr_mapped_name := Some "Supporter" |};
   {| tr_name := Some "VIP"; tr_mapped_name := None |};
   {| tr_name := Some "donor"; tr_mapped_name := Some " Major Donor " |}].

(** What [validate_constituents] asks of a row of the output table:
    names for a person and a company name for a company, no second
    address without a first, two different addresses, every address
    valid, and a title of the allowed set. *)
Definition valid_row (r : OutRow) : Prop :=
  let e1 := Pd.fillna_empty (cb_email1 r) in
  let e2 := Pd.fillna_empty (cb_email2 r) in
  (cb_type r = Person ->
   Py.strip (cb_first_name r) <> EmptyString
   /\ Py.strip (cb_last_name r) <> EmptyString) /\
  (cb_type r = Company -> Py.strip (cb_company_name r) <> EmptyString) /\
  (Py.strip e1 = EmptyString -> Py.strip e2 = EmptyString) /\
  (Py.strip e1 <> EmptyString -> e1 <> e2) /\
  (forall e, e = e1 \/ e = e2 -> Py.strip e <> EmptyString ->
             is_valid_email (Some e) = true) /\
  VStr (cb_title r) ∈ allowed_titles.

(** A row with a second address and no first one. *)
Definition second_address_only : OutRow :=
  {| cb_id := "9"; cb_type := Person; cb_first_name := "Ann";
     cb_last_name := "Lee"; cb_company_name := EmptyString;
     cb_created_at := EmptyString; cb_email1 := None;
     cb_email2 := Some "ann@example.com"; cb_title := "Dr.";
     cb_tags := EmptyString; cb_background := EmptyString;
     cb_lifetime := EmptyString; cb_recent_date := EmptyString;
     cb_recent_amount := EmptyString |}.

(** A cell that holds a string or NaN. *)
Definition text_value (v : value) : Prop :=
  match v with
  | VInt _ => False
  | _ => True
  end.

Definition name_columns : list string :=
  ["CB First Name"; "CB Last Name"; "CB Company Name"].

(** A table of texts, as [transform] makes it and as a file of text is
    read: the column names are distinct, there is a row, every cell
    holds a string or NaN, and the cells of the name columns, on which
    [validate_constituents] calls the string methods, hold strings. *)
Definition text_frame (df : Frame) : Prop :=
  NoDup (columns df) /\
  records df <> [] /\
  forall r, r ∈ records df ->
    (forall v, v ∈ r -> text_value v) /\
    (forall c, c ∈ name_columns -> c ∈ columns df ->
               exists s, cell_at df c r = VStr s).

(** What [validate_constituents] asks of a record of a table [df]: a
    type that is Person or Company; where the table has the three name
    columns, names for a person and a company name for a company; no
    second address without a first; two different addresses; every
    address valid; a title of the allowed set, or none. *)
Definition record_passes (df : Frame) (r : list value) : Prop :=
  let ty := cell_at df "CB Constituent Type" r in
  let text (c : string) := email_at df c r in
  let e1 := text "CB Email 1 (Standardized)" in
  let e2 := text "CB Email 2 (Standardized)" in
  (ty = VStr "Person" \/ ty = VStr "Company") /\
  ((forall c, c ∈ name_columns -> c ∈ columns df) ->
   (ty = VStr "Person" ->
    Py.strip (text "CB First Name") <> EmptyString
    /\ Py.strip (text "CB Last Name") <> EmptyString) /\
   (ty = VStr "Company" ->
    Py.strip (text "CB Company Name") <> EmptyString)) /\
  (Py.strip e1 = EmptyString -> Py.strip e2 = EmptyString) /\
  (Py.strip e1 <> EmptyString -> e1 <> e2) /\
  (forall e, e = e1 \/ e = e2 -> Py.strip e <> EmptyString ->
             is_valid_email (Some e) = true) /\
  fillna_value (cell_at df "CB Title" r) ∈ allowed_titles.

(** A table with the output columns and one row of a type that is
    neither Person nor Company, and no other fault. *)
Definition org_frame : Frame :=
  {| columns := final_cols;
     records :=
       [[VStr "1"; VStr "Org"; VStr EmptyString; VStr EmptyString;
         VStr "Acme"; VStr EmptyString; VStr "a@b.c"; VStr EmptyString;
         VStr EmptyString; VStr EmptyString; VStr EmptyString;
         VStr EmptyString; VStr EmptyString; VStr EmptyString]] |}.
(* ------------------------------------------------------------------ *)
(** ** Facts about the [str] methods *)
(* ------------------------------------------------------------------ *)

Lemma truthy_true (s : string) : Py.truthy s = true <-> s <> EmptyString.
Proof.
  unfold Py.truthy. destruct (String.eqb_spec s EmptyString); simpl; split;
    congruence.
Qed.

Lemma truthy_false (s : string) : Py.truthy s = false <-> s = EmptyString.
Proof.
  unfold Py.truthy. destruct (String.eqb_spec s EmptyString); simpl; split;
    congruence.
Qed.

Lemma count_char_app c (s t : string) :
  Py.count_char c (s +:+ t) = Py.count_char c s + Py.count_char c t.
Proof. induction s as [|a s IH]; simpl; [reflexivity | rewrite IH; lia]. Qed.

Lemma count_char_0 c (s : string) :
  Py.count_char c s = 0 <-> Py.contains_char c s = false.
Proof.
  induction s as [|a s IH]; simpl; [tauto|].
  destruct (Ascii.eqb a c); simpl; [split; [lia | congruence] | exact IH].
Qed.

(** Cutting at the only separator gives back the two sides. *)
Lemma split1_app c (l d : string) :
  Py.contains_char c l = false ->
  Py.split1 c (l +:+ String c d) = [l; d].
Proof.
  induction l as [|a l IH]; simpl; intros H.
  - rewrite Ascii.eqb_refl. reflexivity.
  - apply orb_false_iff in H as [Ha Hl]. rewrite Ha, (IH Hl). reflexivity.
Qed.

Lemma split1_found c (e : string) :
  Py.contains_char c e = true ->
  exists l d, e = l +:+ String c d /\ Py.contains_char c l = false.
Proof.
  induction e as [|a e IH]; simpl; [discriminate|].
  destruct (Ascii.eqb a c) eqn:Hac; simpl.
  - intros _. apply Ascii.eqb_eq in Hac as ->.
    exists EmptyString, e. split; reflexivity.
  - intros H. destruct (IH H) as (l & d & -> & Hl).
    exists (String a l), d. simpl. rewrite Hac, Hl. split; reflexivity.
Qed.

(* ------------------------------------------------------------------ *)
(** ** Email validation *)
(* ------------------------------------------------------------------ *)

Lemma contains_blank_false (e : string) :
  Py.contains_char " " e = false <->
  (forall c, Py.contains_char c e = true -> is_blank c = false).
Proof.
  split.
  - intros H c Hc. unfold is_blank.
    destruct (Ascii.eqb c " ") eqn:E; [|reflexivity].
    apply Ascii.eqb_eq in E. subst c. congruence.
  - intros H. destruct (Py.contains_char " " e) eqn:E; [|reflexivity].
    specialize (H _ E). discriminate.
Qed.

(** What [is_valid_email] tests on the text [standardize_email] hands
    it: one at-sign, a non-empty local part, a non-empty domain with a
    dot in it, and no space character. *)
Lemma is_valid_email_standardized (email : cell) :
  is_valid_email email = true <->
  email_wellformed is_blank (standardize_email email).
Proof.
  unfold is_valid_email, email_wellformed.
  set (e := standardize_email email). clearbody e.
  rewrite <- contains_blank_false.
  destruct (Py.truthy e) eqn:Ht; simpl.
  2:{ apply truthy_false in Ht. subst e. simpl. split; [discriminate|].
      intros (H & _). discriminate. }
  destruct (Py.contains_char " " e) eqn:Hsp; simpl.
  { split; [discriminate | intros (_ & _ & H); discriminate]. }
  destruct (Nat.eqb_spec (Py.count_char "@" e) 1) as [Hc | Hc]; simpl.
  2:{ split; [discriminate | intros (H & _); contradiction]. }
  assert (Hin : Py.contains_char "@" e = true).
  { destruct (Py.contains_char "@" e) eqn:E; [reflexivity|].
    apply count_char_0 in E. lia. }
  destruct (split1_found _ _ Hin) as (l & d & He & Hl).
  rewrite He at 1. rewrite (split1_app _ _ _ Hl).
  assert (Hd : Py.contains_char "@" d = false).
  { apply count_char_0. apply count_char_0 in Hl.
    rewrite He, count_char_app in Hc. simpl in Hc. lia. }
  split.
  - intros H. split; [exact Hc|]. split; [|reflexivity].
    exists l, d.
    destruct (Py.truthy l) eqn:Tl; simpl in H; [|discriminate].
    destruct (Py.truthy d) eqn:Td; simpl in H; [|discriminate].
    destruct (Py.contains_char "." d) eqn:Dd; simpl in H; [|discriminate].
    apply truthy_true in Tl, Td. auto.
  - intros (_ & (l' & d' & He' & Hl' & Hd' & Hdot) & _).
    assert (l' = l /\ d' = d) as [-> ->].
    { assert (Hl'0 : Py.contains_char "@" l' = false).
      { apply count_char_0. rewrite He', count_char_app in Hc.
        simpl in Hc. lia. }
      pose proof (split1_app "@" l' d' Hl'0) as E1.
      pose proof (split1_app "@" l d Hl) as E2.
      rewrite <- He' in E1. rewrite <- He in E2.
      rewrite E1 in E2. inversion E2. auto. }
    apply truthy_true in Hl', Hd'. rewrite Hl', Hd', Hdot. reflexivity.
Qed.

(* ------------------------------------------------------------------ *)
(** ** Comparisons and sorting *)
(* ------------------------------------------------------------------ *)

Lemma good_cmp_refl {A} (cmp : A -> A -> comparison) `{!GoodCmp cmp} a :
  cmp a a = Eq.
Proof.
  pose proof (cmp_opp a a) as H. destruct (cmp a a); simpl in H; congruence.
Qed.

Lemma good_cmp_total {A} (cmp : A -> A -> comparison) `{!GoodCmp cmp} a b :
  cmp a b = Gt -> cmp b a <> Gt.
Proof. rewrite (cmp_opp a b). destruct (cmp b a); simpl; congruence. Qed.

(** Being first on a key that is equal in [a] and [b], seen from a third
    row. *)
Lemma good_cmp_eq_l {A} (cmp : A -> A -> comparison) `{!GoodCmp cmp} a b c :
  cmp a b = Eq -> cmp a c = cmp b c.
Proof.
  intros Hab.
  assert (Hba : cmp b a = Eq) by (rewrite cmp_opp, Hab; reflexivity).
  destruct (cmp a c) eqn:Hac, (cmp b c) eqn:Hbc; try reflexivity; exfalso.
  all: pose proof (cmp_opp c a) as Hca; pose proof (cmp_opp c b) as Hcb;
    rewrite ?Hac, ?Hbc in *; simpl in *.
  - apply (cmp_le_trans c a b); congruence.
  - apply (cmp_le_trans b a c); congruence.
  - apply (cmp_le_trans c b a); congruence.
  - apply (cmp_le_trans b a c); congruence.
  - apply (cmp_le_trans a b c); congruence.
  - apply (cmp_le_trans a b c); congruence.
Qed.

Lemma good_cmp_key {A K} (cmp : K -> K -> comparison)
    (key : A -> K) (Hcmp : GoodCmp cmp) :
  GoodCmp (fun a b => cmp (key a) (key b)).
Proof.
  split.
  - intros a b. apply cmp_opp.
  - intros a b c. apply cmp_le_trans.
Qed.

Lemma good_cmp_desc {K} (cmp : K -> K -> comparison)
    (Hcmp : GoodCmp cmp) : GoodCmp (Pd.desc cmp).
Proof.
  unfold Pd.desc. split.
  - intros a b. apply cmp_opp.
  - intros a b c H1 H2. exact (cmp_le_trans c b a H2 H1).
Qed.

Lemma good_cmp_na_last {K} (cmp : K -> K -> comparison)
    (Hcmp : GoodCmp cmp) : GoodCmp (Pd.na_last cmp).
Proof.
  split.
  - intros [a|] [b|]; simpl; try reflexivity. apply cmp_opp.
  - intros [a|] [b|] [c|]; simpl; try congruence. apply cmp_le_trans.
Qed.

Lemma good_cmp_then {A} (c1 c2 : A -> A -> comparison)
    (H1 : GoodCmp c1) (H2 : GoodCmp c2) :
  GoodCmp (fun a b => Pd.cmp_then (c1 a b) (c2 a b)).
Proof.
  split.
  - intros a b. unfold Pd.cmp_then. rewrite (cmp_opp (cmp:=c1) a b).
    destruct (c1 b a); simpl; [apply cmp_opp | reflexivity | reflexivity].
  - intros a b c. unfold Pd.cmp_then.
    destruct (c1 a b) eqn:Hab; [| |congruence].
    + rewrite (good_cmp_eq_l c1 a b c Hab).
      destruct (c1 b c) eqn:Hbc; [|congruence|congruence].
      apply cmp_le_trans.
    + intros _ Hbc.
      assert (Hbc' : c1 b c <> Gt) by (destruct (c1 b c); congruence).
      assert (Hle : c1 a c <> Gt).
      { apply (cmp_le_trans a b c); congruence. }
      destruct (c1 a c) eqn:Hac; [|congruence|congruence].
      exfalso.
      pose proof (good_cmp_eq_l c1 a c b Hac) as He.
      rewrite Hab in He.
      pose proof (cmp_opp (cmp:=c1) b c) as Ho. rewrite <- He in Ho.
      simpl in Ho. congruence.
Qed.

#[global] Instance good_cmp_Z : GoodCmp Z.compare.
Proof.
  split.
  - intros a b. apply Z.compare_antisym.
  - intros a b c H1 H2.
    change (a <= b)%Z in H1. change (b <= c)%Z in H2. change (a <= c)%Z.
    lia.
Qed.

#[global] Instance good_cmp_nat : GoodCmp Nat.compare.
Proof.
  split.
  - intros a b. apply Nat.compare_antisym.
  - intros a b c H1 H2. apply Nat.compare_le_iff in H1.
    apply Nat.compare_le_iff in H2. apply Nat.compare_le_iff. lia.
Qed.

#[global] Instance good_cmp_string : GoodCmp String.compare.
Proof.
  split.
  - intros a b. apply String.compare_antisym.
  - intros a b c H1 H2.
    assert (L : forall x y, String.compare x y <> Gt <-> String.le x y).
    { intros x y. unfold String.le, String.leb.
      destruct (String.compare x y); simpl; split; try congruence; tauto. }
    apply L. apply L in H1. apply L in H2. etrans; eassumption.
Qed.

Lemma string_compare_refl (s : string) : String.compare s s = Eq.
Proof. apply (good_cmp_refl String.compare). Qed.

Section Sorting.
Context {A : Type} (cmp : A -> A -> comparison) `{!GoodCmp cmp}.

Lemma insert_by_perm x l : Pd.insert_by cmp x l ≡ₚ x :: l.
Proof.
  induction l as [|y l IH]; simpl; [reflexivity|].
  destruct (cmp x y); try reflexivity.
  rewrite IH. apply Permutation_swap.
Qed.

Lemma sort_values_perm l : Pd.sort_values cmp l ≡ₚ l.
Proof.
  induction l as [|x l IH]; simpl; [reflexivity|].
  rewrite insert_by_perm. by rewrite IH.
Qed.

Lemma elem_of_sort_values x l : x ∈ Pd.sort_values cmp l <-> x ∈ l.
Proof. by rewrite sort_values_perm. Qed.

Lemma insert_by_sorted x l :
  StronglySorted (cmp_le cmp) l ->
  StronglySorted (cmp_le cmp) (Pd.insert_by cmp x l).
Proof.
  induction l as [|y l IH]; simpl; intros Hs.
  - repeat constructor.
  - apply StronglySorted_cons in Hs as [Hy Hl].
    destruct (cmp x y) eqn:Hxy.
    + apply StronglySorted_cons. split; [|by apply StronglySorted_cons].
      constructor; [unfold cmp_le; congruence|].
      eapply Forall_impl; [exact Hy|]. intros z Hz.
      apply (cmp_le_trans x y z); [congruence | exact Hz].
    + apply StronglySorted_cons. split; [|by apply StronglySorted_cons].
      constructor; [unfold cmp_le; congruence|].
      eapply Forall_impl; [exact Hy|]. intros z Hz.
      apply (cmp_le_trans x y z); [congruence | exact Hz].
    + apply StronglySorted_cons. split; [|by apply IH].
      rewrite insert_by_perm. constructor; [|exact Hy].
      by apply good_cmp_total.
Qed.

Lemma sort_values_sorted l :
  StronglySorted (cmp_le cmp) (Pd.sort_values cmp l).
Proof.
  induction l as [|x l IH]; simpl; [constructor|].
  by apply insert_by_sorted.
Qed.

(** In a sorted table the first row of a group comes before every row
    of the group. *)
Lemma sorted_group_head `{EqDecision K} (key : A -> K) k l x :
  StronglySorted (cmp_le cmp) l ->
  head (Pd.group key k l) = Some x ->
  key x = k /\ x ∈ l /\
  forall y, y ∈ l -> key y = k -> cmp_le cmp x y.
Proof.
  unfold Pd.group. induction l as [|z l IH]; simpl; [discriminate|].
  intros Hs. apply StronglySorted_cons in Hs as [Hz Hl].
  rewrite filter_cons. destruct (decide (key z = k)) as [Hk|Hk]; simpl.
  - intros [= ->]. split; [exact Hk|]. split; [left|].
    intros y Hy _. apply elem_of_cons in Hy as [->|Hy].
    + unfold cmp_le. by rewrite good_cmp_refl.
    + rewrite Forall_forall in Hz. by apply Hz.
  - intros Hh. destruct (IH Hl Hh) as (H1 & H2 & H3).
    split; [exact H1|]. split; [by right|].
    intros y Hy Hyk. apply elem_of_cons in Hy as [->|Hy]; [congruence|].
    by apply H3.
Qed.
End Sorting.

(* ------------------------------------------------------------------ *)
(** ** Dropping duplicates and grouping *)
(* ------------------------------------------------------------------ *)

Section Dedup.
Context {A K : Type} `{EqDecision K} (key : A -> K).

(** Of each key, [drop_duplicates] keeps the first row and no other. *)
Lemma drop_duplicates_from_group k seen l :
  Pd.group key k (Pd.drop_duplicates_from key seen l)
  = if bool_decide (k ∈ seen) then []
    else option_list (head (Pd.group key k l)).
Proof.
  unfold Pd.group. revert seen.
  induction l as [|x l IH]; intros seen; simpl.
  - by case_bool_decide.
  - case_bool_decide as Hx.
    + rewrite IH, (filter_cons _ x).
      destruct (decide (key x = k)) as [Hk|Hk]; [|reflexivity].
      rewrite Hk in Hx. by rewrite bool_decide_eq_true_2.
    + rewrite !(filter_cons _ x), IH.
      destruct (decide (key x = k)) as [Hk|Hk]; simpl.
      * rewrite Hk in Hx. rewrite Hk.
        rewrite bool_decide_eq_true_2 by left.
        by rewrite bool_decide_eq_false_2.
      * destruct (decide (k ∈ seen)) as [Hin|Hin].
        -- rewrite !bool_decide_eq_true_2; [done | done | by right].
        -- rewrite !bool_decide_eq_false_2; [done | done |].
           intros [?|?]%elem_of_cons; congruence.
Qed.

Lemma drop_duplicates_group k l :
  Pd.group key k (Pd.drop_duplicates key l)
  = option_list (head (Pd.group key k l)).
Proof.
  unfold Pd.drop_duplicates. rewrite drop_duplicates_from_group.
  rewrite bool_decide_eq_false_2; [reflexivity | apply not_elem_of_nil].
Qed.

Lemma elem_of_drop_duplicates_from x seen l :
  x ∈ Pd.drop_duplicates_from key seen l -> x ∈ l /\ key x ∉ seen.
Proof.
  revert seen. induction l as [|y l IH]; intros seen; simpl.
  - intros H. by apply elem_of_nil in H.
  - case_bool_decide as Hy.
    + intros H. destruct (IH _ H). split; [by right | done].
    + intros H. apply elem_of_cons in H as [->|H].
      * split; [left | done].
      * destruct (IH _ H) as [H1 H2]. split; [by right|].
        intros Hin. apply H2. by right.
Qed.

Lemma drop_duplicates_from_keys x seen l :
  x ∈ l -> key x ∉ seen ->
  key x ∈ fmap key (Pd.drop_duplicates_from key seen l).
Proof.
  revert seen. induction l as [|y l IH]; intros seen Hx Hs; simpl.
  - by apply elem_of_nil in Hx.
  - apply elem_of_cons in Hx as [->|Hx].
    + rewrite bool_decide_eq_false_2 by done. simpl. left.
    + case_bool_decide as Hy; [by apply IH|].
      simpl. destruct (decide (key x = key y)) as [->|Hne]; [left|].
      right. apply IH; [done|].
      intros Hin. apply elem_of_cons in Hin as [?|?]; congruence.
Qed.

Lemma drop_duplicates_from_NoDup seen l :
  NoDup (fmap key (Pd.drop_duplicates_from key seen l)).
Proof.
  revert seen. induction l as [|y l IH]; intros seen; simpl.
  - constructor.
  - case_bool_decide as Hy; [apply IH|].
    simpl. constructor; [|apply IH].
    intros Hin. apply list_elem_of_fmap in Hin as (z & Hz & Hin).
    apply elem_of_drop_duplicates_from in Hin as [_ Hin].
    apply Hin. rewrite Hz. left.
Qed.

Lemma drop_duplicates_NoDup l : NoDup (fmap key (Pd.drop_duplicates key l)).
Proof. apply drop_duplicates_from_NoDup. Qed.

Lemma elem_of_drop_duplicates x l : x ∈ Pd.drop_duplicates key l -> x ∈ l.
Proof. intros H. by apply elem_of_drop_duplicates_from in H as [? _]. Qed.

Lemma drop_duplicates_keys k l :
  k ∈ fmap key (Pd.drop_duplicates key l) <-> k ∈ fmap key l.
Proof.
  split.
  - intros H. apply list_elem_of_fmap in H as (x & -> & Hx).
    apply list_elem_of_fmap. exists x. split; [done|].
    by apply elem_of_drop_duplicates.
  - intros H. apply list_elem_of_fmap in H as (x & -> & Hx).
    apply drop_duplicates_from_keys; [done | apply not_elem_of_nil].
Qed.
End Dedup.

Lemma filter_fmap_comm {A B} (f : A -> B) (P : B -> Prop)
    `{forall x, Decision (P x)} (l : list A) :
  filter P (f <$> l) = f <$> filter (fun x => P (f x)) l.
Proof.
  induction l as [|x l IH]; [reflexivity|].
  rewrite fmap_cons, !filter_cons, IH. by destruct (decide (P (f x))).
Qed.

Lemma pid_of_with_pid_str (r : Constituent) : pid_of (with_pid_str r) = pid_of r.
Proof. reflexivity. Qed.

(* ------------------------------------------------------------------ *)
(** ** Identity canonicalisation *)
(* ------------------------------------------------------------------ *)

Section Canonicaliser.
Context `{RT : Runtime}.

Lemma good_constituents_order : GoodCmp constituents_order.
Proof.
  unfold constituents_order.
  apply (good_cmp_then
           (fun a b => String.compare (pid_of (s_row a)) (pid_of (s_row b)))
           (fun a b =>
              Pd.cmp_then (Pd.na_last (Pd.desc Z.compare) (s_dt a) (s_dt b))
                (Pd.desc Nat.compare (s_index a) (s_index b)))).
  - apply (good_cmp_key String.compare (fun a => pid_of (s_row a))).
    exact good_cmp_string.
  - apply (good_cmp_then
             (fun a b => Pd.na_last (Pd.desc Z.compare) (s_dt a) (s_dt b))
             (fun a b => Pd.desc Nat.compare (s_index a) (s_index b))).
    + apply (good_cmp_key (Pd.na_last (Pd.desc Z.compare)) s_dt).
      apply good_cmp_na_last, good_cmp_desc, good_cmp_Z.
    + apply (good_cmp_key (Pd.desc Nat.compare) s_index).
      apply good_cmp_desc, good_cmp_nat.
Qed.

Lemma elem_of_stamped c s :
  s ∈ stamped_constituents c <->
  exists i r, c !! i = Some r /\
    s = {| s_row := with_pid_str r; s_dt := date_of c i; s_index := i |}.
Proof.
  unfold stamped_constituents. rewrite elem_of_lookup_imap.
  split; intros (i & r & H1 & H2); exists i, r; split; done.
Qed.

(** The rows the canonicaliser keeps for one key: the head of the key's
    group in the sorted table. *)
Lemma dedupe_group c k :
  filter (fun r => pid_of r = k) (dedupe_constituents_latest c)
  = s_row <$> option_list
      (head (Pd.group (fun s => pid_of (s_row s)) k
               (Pd.sort_values constituents_order (stamped_constituents c)))).
Proof.
  unfold dedupe_constituents_latest.
  rewrite filter_fmap_comm. f_equal.
  apply (drop_duplicates_group (fun s => pid_of (s_row s))).
Qed.

Lemma dedupe_NoDup c : NoDup (pid_of <$> dedupe_constituents_latest c).
Proof.
  unfold dedupe_constituents_latest. rewrite <- list_fmap_compose.
  apply (drop_duplicates_NoDup (fun s => pid_of (s_row s))).
Qed.

Lemma dedupe_keys c k :
  k ∈ pid_of <$> dedupe_constituents_latest c <-> k ∈ pid_of <$> c.
Proof.
  unfold dedupe_constituents_latest. rewrite <- list_fmap_compose.
  rewrite (drop_duplicates_keys (fun s => pid_of (s_row s))).
  rewrite !list_elem_of_fmap. split.
  - intros (s & -> & Hs). apply elem_of_sort_values in Hs.
    apply elem_of_stamped in Hs as (i & r & Hi & ->). simpl.
    exists r. split; [done|]. by eapply list_elem_of_lookup_2.
  - intros (r & -> & Hr). apply list_elem_of_lookup in Hr as [i Hi].
    eexists. split; [|apply elem_of_sort_values, elem_of_stamped; eauto].
    reflexivity.
Qed.

(** C1, as amended: of every key of the table the canonicaliser keeps
    exactly one row, the one with the latest parsed date, a row without
    a date ranking below every dated row; among rows of equal, or
    equally missing, date it keeps the one that stands last in the
    input. *)
Theorem dedupe_keeps_latest (c : list Constituent) (k : string) :
  k ∈ pid_of <$> c -> kept_row_rule latest_wins c k.
Proof.
  intros Hk. unfold kept_row_rule.
  set (key := fun s : Stamped => pid_of (s_row s)).
  set (sorted := Pd.sort_values constituents_order (stamped_constituents c)).
  assert (Hs : StronglySorted (cmp_le constituents_order) sorted)
    by apply sort_values_sorted, good_constituents_order.
  destruct (head (Pd.group key k sorted)) as [s0|] eqn:Hhead.
  2:{ exfalso. apply head_None in Hhead.
      apply list_elem_of_fmap in Hk as (r & -> & Hr).
      apply list_elem_of_lookup in Hr as [i Hi].
      assert (Hin : stamp (to_datetime (date_entered <$> c)) i r
                      ∈ Pd.group key (pid_of r) sorted).
      { apply list_elem_of_filter. split; [reflexivity|].
        apply elem_of_sort_values, elem_of_stamped. eauto. }
      rewrite Hhead in Hin. by apply elem_of_nil in Hin. }
  destruct (sorted_group_head constituents_order (GoodCmp0 := good_constituents_order)
              key k sorted s0 Hs Hhead)
    as (Hkey & Hin & Hmin).
  apply elem_of_sort_values, elem_of_stamped in Hin as (i & r & Hi & ->).
  exists i, r. split; [exact Hi|]. split; [exact Hkey|]. split.
  { rewrite dedupe_group. fold key sorted. by rewrite Hhead. }
  intros j r' Hj Hk' Hne.
  specialize (Hmin {| s_row := with_pid_str r'; s_dt := date_of c j;
                      s_index := j |}).
  unfold cmp_le, constituents_order, key in Hmin, Hkey. simpl in Hmin, Hkey.
  rewrite !pid_of_with_pid_str, Hk' in Hmin.
  rewrite pid_of_with_pid_str in Hkey. rewrite Hkey in Hmin.
  rewrite string_compare_refl in Hmin. simpl in Hmin.
  assert (Hcmp := Hmin ltac:(apply elem_of_sort_values, elem_of_stamped; eauto)
                    eq_refl).
  clear Hmin. unfold latest_wins, Pd.desc in *.
  destruct (date_of c i) as [di|], (date_of c j) as [dj|]; simpl in *.
  - destruct (Z.compare_spec dj di) as [Heq|Hlt|Hgt]; simpl in Hcmp.
    + right. subst. split; [done|].
      destruct (Nat.compare_spec j i); [done | done | congruence].
    + by left.
    + congruence.
  - by left.
  - congruence.
  - right. split; [done|].
    destruct (Nat.compare_spec j i); [done | done | congruence].
Qed.
End Canonicaliser.

(** C1, as stated, fails: of two snapshots of one identity entered on the
    same day the canonicaliser keeps the second, not the first. *)
Lemma dedupe_keeps_later_snapshot :
  "1" ∈ pid_of <$> same_day_snapshots /\
  ~ kept_row_rule (RT := Sample.runtime) earliest_wins same_day_snapshots "1".
Proof.
  split; [left|].
  intros (i & r & Hi & _ & Hkept & Htie).
  vm_compute in Hkept.
  destruct i as [|[|i]]; simpl in Hi; [| |discriminate].
  - injection Hi as <-. discriminate Hkept.
  - specialize (Htie 0 _ eq_refl eq_refl ltac:(discriminate)).
    vm_compute in Htie. destruct Htie as [H|[_ H]].
    + discriminate H.
    + inversion H.
Qed.

Lemma dedupe_keeps_latest_witness :
  "1" ∈ pid_of <$> same_day_snapshots /\
  kept_row_rule (RT := Sample.runtime) latest_wins same_day_snapshots "1".
Proof.
  split; [left|]. apply dedupe_keeps_latest. left.
Defined.

(* ------------------------------------------------------------------ *)
(** ** Loops that carry a set of seen keys *)
(* ------------------------------------------------------------------ *)

Section SeenLoops.
Context {A K : Type} `{EqDecision K} (key : A -> K).

Lemma elem_of_dedupe_by x l : x ∈ dedupe_by key l -> x ∈ l.
Proof.
  induction l as [|y l IH]; simpl; [done|].
  intros [->|H]%elem_of_cons; [left|].
  apply list_elem_of_filter in H as [_ H]. right. by apply IH.
Qed.

Lemma NoDup_fmap_filter (P : A -> Prop) `{forall x, Decision (P x)} l :
  NoDup (key <$> l) -> NoDup (key <$> filter P l).
Proof.
  induction l as [|y l IH]; simpl; [done|].
  rewrite filter_cons. intros [Hy Hl]%NoDup_cons.
  destruct (decide (P y)); [|by apply IH].
  rewrite fmap_cons. apply NoDup_cons. split; [|by apply IH].
  intros (z & Hz & Hin)%list_elem_of_fmap.
  apply list_elem_of_filter in Hin as [_ Hin].
  apply Hy. rewrite Hz. by apply list_elem_of_fmap_2.
Qed.

Lemma dedupe_by_NoDup l : NoDup (key <$> dedupe_by key l).
Proof.
  induction l as [|y l IH]; simpl; [constructor|].
  apply NoDup_cons. split; [|by apply NoDup_fmap_filter].
  intros (z & Hz & Hin)%list_elem_of_fmap.
  apply list_elem_of_filter in Hin as [Hne _]. congruence.
Qed.
End SeenLoops.

Lemma seen_loop_spec key items seen out :
  seen_loop key items seen out
  = out ++ filter (fun x => key x ∉ seen) (dedupe_by key items).
Proof.
  revert seen out. induction items as [|x items IH]; intros seen out; simpl.
  - by rewrite app_nil_r.
  - rewrite filter_cons. case_bool_decide as Hx.
    + rewrite IH. destruct (decide (key x ∉ seen)) as [Hn|_]; [done|].
      f_equal. rewrite list_filter_filter. apply list_filter_iff.
      intros y. split; [|tauto]. intros Hy. split; [done|]. congruence.
    + rewrite IH. destruct (decide (key x ∉ seen)) as [_|Hn]; [|done].
      rewrite <- app_assoc. simpl. do 2 f_equal.
      rewrite list_filter_filter. apply list_filter_iff.
      intros y. rewrite elem_of_union, elem_of_singleton. tauto.
Qed.

Lemma seen_loop_dedupe key items :
  seen_loop key items ∅ [] = dedupe_by key items.
Proof.
  rewrite seen_loop_spec. simpl.
  induction (dedupe_by key items) as [|y l IH]; [done|].
  rewrite filter_cons, IH.
  destruct (decide (key y ∉ ∅)) as [_|Hn]; [done|].
  exfalso. apply Hn, not_elem_of_empty.
Qed.

Lemma uniq_loop_seen arr seen uniq :
  uniq_loop arr seen uniq = seen_loop id arr seen uniq.
Proof.
  revert seen uniq. induction arr as [|x arr IH]; intros seen uniq; simpl;
    [done|]. by rewrite !IH.
Qed.

(* ------------------------------------------------------------------ *)
(** ** Contact resolution *)
(* ------------------------------------------------------------------ *)


Lemma lookup_key_cons {V} k (kv : string * V) t :
  lookup_key k (kv :: t)
  = if decide (fst kv = k) then Some (snd kv) else lookup_key k t.
Proof.
  unfold lookup_key. rewrite filter_cons. by destruct (decide (fst kv = k)).
Qed.




Lemma lookup_key_fmap {V} (f : string -> V) k (ks : list string) :
  lookup_key k ((fun x => (x, f x)) <$> ks)
  = if decide (k ∈ ks) then Some (f k) else None.
Proof.
  induction ks as [|x ks IH]; [done|].
  rewrite fmap_cons, lookup_key_cons. simpl.
  destruct (decide (x = k)) as [->|Hne].
  - by rewrite decide_True by left.
  - rewrite IH. destruct (decide (k ∈ ks)) as [Hin|Hin].
    + by rewrite decide_True by (by right).
    + rewrite decide_False; [done|].
      intros [?|?]%elem_of_cons; congruence.
Qed.


Lemma dict_append_keys pid x d :
  fst <$> dict_append pid x d
  = if decide (pid ∈ fst <$> d) then fst <$> d else (fst <$> d) ++ [pid].
Proof.
  induction d as [|[k' v] d IH]; csimpl; [done|].
  case_bool_decide as Hk'; csimpl.
  - subst. by rewrite decide_True by left.
  - rewrite IH. destruct (decide (pid ∈ fst <$> d)) as [Hin|Hin].
    + by rewrite decide_True by (by right).
    + rewrite decide_False; [done|].
      intros [?|?]%elem_of_cons; congruence.
Qed.

Lemma dict_append_NoDup pid x d :
  NoDup (fst <$> d) -> NoDup (fst <$> dict_append pid x d).
Proof.
  intros Hd. rewrite dict_append_keys.
  destruct (decide (pid ∈ fst <$> d)); [done|].
  apply NoDup_app. split; [done|]. split; [|apply NoDup_singleton].
  intros y Hy ->%list_elem_of_singleton. done.
Qed.


Lemma dict_init_NoDup pids : NoDup (fst <$> dict_init pids).
Proof.
  unfold dict_init. rewrite <- list_fmap_compose.
  pose proof (drop_duplicates_NoDup id pids) as H.
  by rewrite list_fmap_id in H |- *.
Qed.


Lemma add_primary_NoDup base d :
  NoDup (fst <$> d) -> NoDup (fst <$> add_primary base d).
Proof.
  revert d. induction base as [|r base IH]; intros d Hd; simpl; [done|].
  destruct (Py.truthy _ && is_valid_email _); apply IH;
    [by apply dict_append_NoDup | done].
Qed.


Lemma add_emails_NoDup em d :
  NoDup (fst <$> d) -> NoDup (fst <$> add_emails em d).
Proof.
  revert d. induction em as [|r em IH]; intros d Hd; simpl; [done|].
  destruct (negb _ || negb _); apply IH;
    [done | by apply dict_append_NoDup].
Qed.

Lemma candidates_NoDup c em : NoDup (fst <$> candidates c em).
Proof. apply add_emails_NoDup, add_primary_NoDup, dict_init_NoDup. Qed.

Lemma NoDup_group_head {A K} `{EqDecision K} (key : A -> K) k (l : list A) :
  NoDup (key <$> l) ->
  Pd.group key k l = option_list (head (Pd.group key k l)).
Proof.
  unfold Pd.group. induction l as [|x l IH]; [done|].
  rewrite fmap_cons. intros [Hx Hl]%NoDup_cons. rewrite filter_cons.
  destruct (decide (key x = k)) as [<-|Hne]; [|by apply IH].
  simpl. f_equal.
  destruct (filter (fun y => key y = key x) l) as [|y l'] eqn:Hf; [done|].
  exfalso. apply Hx.
  assert (Hy : y ∈ filter (fun y => key y = key x) l) by (rewrite Hf; left).
  apply list_elem_of_filter in Hy as [<- Hy]. by apply list_elem_of_fmap_2.
Qed.






(* ------------------------------------------------------------------ *)
(** ** Left merges *)
(* ------------------------------------------------------------------ *)

Lemma elem_of_merge_left {A B} (lkey : A -> string) (rkey : B -> string)
    (left : list A) (right : list B) (l : A) (o : option B) :
  (l, o) ∈ Pd.merge_left lkey rkey left right ->
  l ∈ left /\
  match o with
  | Some r => r ∈ right /\ rkey r = lkey l
  | None => forall r, r ∈ right -> rkey r <> lkey l
  end.
Proof.
  unfold Pd.merge_left. intros H.
  apply list_elem_of_bind in H as (l0 & H & Hl0).
  destruct (filter (fun r => rkey r = lkey l0) right) as [|r0 ms] eqn:Hf.
  - apply list_elem_of_singleton in H as [= -> ->]. split; [done|].
    intros r Hr Hk.
    assert (Hin : r ∈ filter (fun r => rkey r = lkey l0) right)
      by (by apply list_elem_of_filter).
    rewrite Hf in Hin. by apply elem_of_nil in Hin.
  - apply list_elem_of_fmap in H as (r & [= -> ->] & Hr). split; [done|].
    rewrite <- Hf in Hr. by apply list_elem_of_filter in Hr as [? ?].
Qed.

Section Assembly.
Context `{RT : Runtime}.

(** What a row of the output table is made of: an identifier, the
    constituent row, the resolver row and the metrics row it meets. *)
Lemma elem_of_transform c0 em d mapping out T row :
  transform c0 em d mapping = Some (out, T) ->
  row ∈ out ->
  exists id oc oe om,
    row = out_row (core_row mapping (id, oc), oe, om) /\
    match oc with
    | Some r => r ∈ dedupe_constituents_latest c0 /\ pid_of r = id
    | None => id ∉ pid_of <$> dedupe_constituents_latest c0
    end /\
    match oe with
    | Some e =>
        e ∈ build_email_columns (dedupe_constituents_latest c0) em
        /\ ec_pid e = id
    | None => True
    end.
Proof.
  unfold transform. case_bool_decide as Hec; [discriminate|].
  intros [= <- <-] Hrow.
  apply list_elem_of_fmap in Hrow as ([[core oe] om] & -> & Hm).
  apply elem_of_merge_left in Hm as [Hm _].
  apply elem_of_merge_left in Hm as [Hcore Hoe].
  apply list_elem_of_fmap in Hcore as ([id oc] & -> & Hcore).
  apply elem_of_merge_left in Hcore as [_ Hoc].
  exists id, oc, oe, om. split; [done|]. split.
  - destruct oc as [r|]; [done|]. simpl in Hoc.
    intros (r & -> & Hr)%list_elem_of_fmap. by apply (Hoc r).
  - destruct oe as [e|]; [|done]. exact Hoe.
Qed.

Lemma transform_tags c0 em d mapping out T :
  transform c0 em d mapping = Some (out, T) ->
  T = tags_table mapping (dedupe_constituents_latest c0).
Proof.
  unfold transform. case_bool_decide; [discriminate|]. by intros [= _ <-].
Qed.

Lemma email_row_rule pid arr :
  ec_email2 (email_row pid arr) <> EmptyString ->
  ec_email1 (email_row pid arr) <> EmptyString /\
  ec_email1 (email_row pid arr) <> ec_email2 (email_row pid arr).
Proof.
  unfold email_row. cbn [ec_email1 ec_email2].
  generalize (uniq_loop arr ∅ []). intros uniq.
  set (e1 := if 1 <=? length uniq then default EmptyString (uniq !! 0)
             else EmptyString).
  destruct (Py.truthy e1) eqn:Ht; cbn [andb];
    [|intros H; exfalso; by apply H].
  destruct (2 <=? length uniq); [|intros H; exfalso; by apply H].
  case_bool_decide as He; [intros H; exfalso; by apply H|].
  intros _. split; [by apply truthy_true | congruence].
Qed.

(** C2: in every row of the output table, an empty (or missing) first
    email comes with an empty second email, and two non-empty emails
    differ. *)
Theorem email_columns_invariant c0 em d mapping out T row :
  transform c0 em d mapping = Some (out, T) ->
  row ∈ out ->
  (Pd.fillna_empty (cb_email1 row) = EmptyString ->
   cb_email2 row = Some EmptyString) /\
  (forall a b, cb_email1 row = Some a -> cb_email2 row = Some b ->
               a <> EmptyString -> b <> EmptyString -> a <> b).
Proof.
  intros Ht Hrow.
  destruct (elem_of_transform _ _ _ _ _ _ _ Ht Hrow)
    as (id & oc & oe & om & -> & _ & Hoe).
  unfold out_row. simpl. split.
  - intros H. by rewrite bool_decide_eq_true_2.
  - intros a b Ha Hb Hane Hbne.
    destruct oe as [e|]; [|discriminate]. simpl in *.
    injection Ha as <-.
    rewrite bool_decide_eq_false_2 in Hb by done. injection Hb as <-.
    destruct Hoe as [He _].
    apply list_elem_of_fmap in He as (kv & -> & _).
    by apply email_row_rule.
Qed.


Lemma fill_missing_person_names_spec pid first last :
  let names := fill_missing_person_names pid first last in
  fst names <> EmptyString /\ snd names <> EmptyString /\
  ((_clean_str first = EmptyString \/ _clean_str last = EmptyString) ->
   names = ("Unknown", "Unknown-" +:+ pid)) /\
  (_clean_str first <> EmptyString -> _clean_str last <> EmptyString ->
   names = (_clean_str first, _clean_str last)).
Proof.
  unfold fill_missing_person_names.
  destruct (Py.truthy (_clean_str first)) eqn:Hf;
    destruct (Py.truthy (_clean_str last)) eqn:Hl; simpl;
    rewrite ?truthy_true, ?truthy_false in *;
    repeat split; try done; try tauto; intros [?|?]; congruence.
Qed.

(** C9: a Person row has a first and a last name, which are the
    placeholder pair, the last one ending in the identifier, as soon as
    a raw name is blank or the identity has no constituent row, and the
    cleaned raw names otherwise; a Company row has a company name. *)
Theorem names_present c0 em d mapping out T row :
  transform c0 em d mapping = Some (out, T) ->
  row ∈ out ->
  exists oc : option Constituent,
    match oc with
    | Some r => r ∈ dedupe_constituents_latest c0 /\ pid_of r = cb_id row
    | None => cb_id row ∉ pid_of <$> dedupe_constituents_latest c0
    end /\
    match cb_type row with
    | Person =>
        cb_first_name row <> EmptyString /\
        cb_last_name row <> EmptyString /\
        ((_clean_str (oc ≫= first_name) = EmptyString
          \/ _clean_str (oc ≫= last_name) = EmptyString) ->
         cb_first_name row = "Unknown" /\
         cb_last_name row = "Unknown-" +:+ cb_id row) /\
        (_clean_str (oc ≫= first_name) <> EmptyString ->
         _clean_str (oc ≫= last_name) <> EmptyString ->
         cb_first_name row = _clean_str (oc ≫= first_name) /\
         cb_last_name row = _clean_str (oc ≫= last_name))
    | Company => cb_company_name row <> EmptyString
    end.
Proof.
  intros Ht Hrow.
  destruct (elem_of_transform _ _ _ _ _ _ _ Ht Hrow)
    as (id & oc & oe & om & -> & Hoc & _).
  exists oc. split; [exact Hoc|].
  unfold out_row, core_row. simpl.
  pose proof (fill_missing_person_names_spec id (oc ≫= first_name)
                (oc ≫= last_name)) as (H1 & H2 & H3 & H4).
  assert (Hperson :
            fst (fill_missing_person_names id (oc ≫= first_name)
                   (oc ≫= last_name)) <> EmptyString /\
            snd (fill_missing_person_names id (oc ≫= first_name)
                   (oc ≫= last_name)) <> EmptyString /\
            ((_clean_str (oc ≫= first_name) = EmptyString
              \/ _clean_str (oc ≫= last_name) = EmptyString) ->
             fst (fill_missing_person_names id (oc ≫= first_name)
                    (oc ≫= last_name)) = "Unknown" /\
             snd (fill_missing_person_names id (oc ≫= first_name)
                    (oc ≫= last_name)) = "Unknown-" +:+ id) /\
            (_clean_str (oc ≫= first_name) <> EmptyString ->
             _clean_str (oc ≫= last_name) <> EmptyString ->
             fst (fill_missing_person_names id (oc ≫= first_name)
                    (oc ≫= last_name)) = _clean_str (oc ≫= first_name) /\
             snd (fill_missing_person_names id (oc ≫= first_name)
                    (oc ≫= last_name)) = _clean_str (oc ≫= last_name))).
  { split; [exact H1|]. split; [exact H2|]. split.
    - intros Hb. by rewrite (H3 Hb).
    - intros Hf Hl. by rewrite (H4 Hf Hl). }
  destruct (oc ≫= patron_id) as [p|] eqn:Hp; [|exact Hperson].
  unfold classify_constituent_type.
  destruct (Py.truthy (_clean_str (oc ≫= company))) eqn:Hc;
    [by apply truthy_true | exact Hperson].
Qed.
End Assembly.

(* ------------------------------------------------------------------ *)
(** ** Tag normalisation *)
(* ------------------------------------------------------------------ *)

Lemma rstrip_by_idemp p s : Py.rstrip_by p (Py.rstrip_by p s) = Py.rstrip_by p s.
Proof.
  induction s as [|a s IH]; [done|]. simpl.
  destruct (Py.rstrip_by p s) as [|b r] eqn:Hr.
  - destruct (p a) eqn:Hp; [done|]. simpl. by rewrite Hp.
  - change (Py.rstrip_by p (String a (String b r)) = String a (String b r)).
    change (Py.rstrip_by p (String a (String b r)))
      with (match Py.rstrip_by p (String b r) with
            | EmptyString => if p a then EmptyString else String a EmptyString
            | String c r0 => String a (String c r0)
            end).
    by rewrite IH.
Qed.

Lemma lstrip_by_head p s :
  Py.lstrip_by p s = EmptyString \/
  exists a s', Py.lstrip_by p s = String a s' /\ p a = false.
Proof.
  induction s as [|a s IH]; simpl; [by left|].
  destruct (p a) eqn:Hp; [exact IH|]. right. by exists a, s.
Qed.

Lemma strip_by_idemp p s : Py.strip_by p (Py.strip_by p s) = Py.strip_by p s.
Proof.
  unfold Py.strip_by.
  destruct (lstrip_by_head p s) as [->|(a & s' & -> & Hp)]; [done|].
  assert (Hr : exists r, Py.rstrip_by p (String a s') = String a r).
  { simpl. destruct (Py.rstrip_by p s'); rewrite ?Hp; eauto. }
  destruct Hr as [r Hr]. rewrite Hr.
  assert (Hl : Py.lstrip_by p (String a r) = String a r)
    by (simpl; by rewrite Hp).
  rewrite Hl, <- Hr. apply rstrip_by_idemp.
Qed.

Lemma strip_idemp s : Py.strip (Py.strip s) = Py.strip s.
Proof. apply strip_by_idemp. Qed.

Lemma split_tags_loop_seen parts seen out :
  split_tags_loop parts seen out
  = seen_loop Py.lower (filter (fun p => p <> EmptyString) parts) seen out.
Proof.
  revert seen out. induction parts as [|p parts IH]; intros seen out;
    [done|].
  simpl. rewrite filter_cons.
  destruct (Py.truthy p) eqn:Hp; simpl.
  - apply truthy_true in Hp. rewrite decide_True by done. simpl.
    by rewrite !IH.
  - apply truthy_false in Hp. rewrite decide_False by (by intros H).
    apply IH.
Qed.

Lemma split_tags_spec raw : split_tags raw = local_tags_spec raw.
Proof.
  unfold split_tags, local_tags_spec.
  destruct (Py.truthy (_clean_str raw)) eqn:Hs; simpl.
  - by rewrite split_tags_loop_seen, seen_loop_dedupe.
  - apply truthy_false in Hs. by rewrite Hs.
Qed.

Lemma apply_tag_mapping_loop_seen mapping tags seen out :
  apply_tag_mapping_loop mapping tags seen out
  = seen_loop Py.lower
      (filter (fun t => t <> EmptyString)
         ((fun t => Py.strip (default t (mapping !! Py.lower (Py.strip t))))
            <$> tags))
      seen out.
Proof.
  revert seen out. induction tags as [|t tags IH]; intros seen out; [done|].
  rewrite fmap_cons, filter_cons. simpl.
  destruct (Py.truthy _) eqn:Hp; simpl.
  - apply truthy_true in Hp. rewrite decide_True by done. simpl.
    by rewrite !IH.
  - apply truthy_false in Hp. rewrite decide_False by (by intros H).
    apply IH.
Qed.

Lemma local_tags_stripped raw t : t ∈ local_tags_spec raw -> Py.strip t = t.
Proof.
  unfold local_tags_spec. intros H%elem_of_dedupe_by.
  apply list_elem_of_filter in H as [_ H].
  apply list_elem_of_fmap in H as (p & -> & _). apply strip_idemp.
Qed.

(** C7, as amended: the local list is the comma-separated pieces,
    trimmed, the empty ones dropped, de-duplicated without regard to
    case; the final list maps each local tag by its lowercase form (a tag
    without an entry stays), trims the mapped name, drops what is then
    empty, and de-duplicates without regard to case again.  Neither list
    holds two tags that differ in case only. *)
Theorem tag_lists_normalised (mapping : gmap string string) (raw : cell) :
  split_tags raw = local_tags_spec raw /\
  final_tags mapping raw = final_tags_spec Py.strip mapping raw /\
  NoDup (Py.lower <$> split_tags raw) /\
  NoDup (Py.lower <$> final_tags mapping raw).
Proof.
  assert (Hfinal : final_tags mapping raw = final_tags_spec Py.strip mapping raw).
  { unfold final_tags, apply_tag_mapping, final_tags_spec.
    rewrite apply_tag_mapping_loop_seen, seen_loop_dedupe, split_tags_spec.
    do 2 f_equal. apply list_fmap_ext. intros i t Ht.
    apply list_elem_of_lookup_2, local_tags_stripped in Ht. by rewrite Ht. }
  split; [apply split_tags_spec|]. split; [exact Hfinal|]. split.
  - rewrite split_tags_spec. apply dedupe_by_NoDup.
  - rewrite Hfinal. apply dedupe_by_NoDup.
Qed.

(** C7, as stated, fails: a mapped name is trimmed before it is used,
    so a replacement padded with spaces does not come out as the mapping
    holds it. *)
Lemma final_tags_trims_mapped_name :
  final_tags padded_mapping (Some "VIP")
  <> final_tags_spec id padded_mapping (Some "VIP").
Proof. vm_compute. discriminate. Qed.

(* ------------------------------------------------------------------ *)
(** ** Tag counting *)
(* ------------------------------------------------------------------ *)

Lemma elem_of_drop_duplicates_id {A} `{EqDecision A} (x : A) l :
  x ∈ Pd.drop_duplicates id l <-> x ∈ l.
Proof.
  pose proof (drop_duplicates_keys id x l) as H.
  by rewrite !list_fmap_id in H.
Qed.

Lemma drop_duplicates_id_NoDup {A} `{EqDecision A} (l : list A) :
  NoDup (Pd.drop_duplicates id l).
Proof.
  pose proof (drop_duplicates_NoDup id l) as H. by rewrite list_fmap_id in H.
Qed.

Lemma elem_of_group_keys k l : k ∈ Pd.group_keys l <-> k ∈ l.
Proof.
  unfold Pd.group_keys.
  by rewrite (elem_of_sort_values String.compare), elem_of_drop_duplicates_id.
Qed.

Lemma group_keys_NoDup l : NoDup (Pd.group_keys l).
Proof.
  unfold Pd.group_keys. rewrite (sort_values_perm String.compare).
  apply drop_duplicates_id_NoDup.
Qed.

Lemma good_tags_order : GoodCmp tags_order.
Proof.
  unfold tags_order.
  apply (good_cmp_then
           (fun a b : string * nat => Pd.desc Nat.compare (snd a) (snd b))
           (fun a b : string * nat => String.compare (fst a) (fst b))).
  - apply (good_cmp_key (Pd.desc Nat.compare) snd).
    apply good_cmp_desc, good_cmp_nat.
  - apply (good_cmp_key String.compare fst), good_cmp_string.
Qed.

Lemma tags_order_le a b :
  cmp_le tags_order a b -> count_desc_name_asc a b.
Proof.
  unfold cmp_le, tags_order, count_desc_name_asc, Pd.cmp_then, Pd.desc.
  destruct (Nat.compare_spec (snd b) (snd a)) as [He|Hlt|Hgt].
  - intros H. right. split; [done|].
    unfold String.le, String.leb. by destruct (String.compare (fst a) (fst b)).
  - intros _. by left.
  - congruence.
Qed.

Lemma StronglySorted_impl {A} (R1 R2 : A -> A -> Prop) l :
  (forall a b, R1 a b -> R2 a b) ->
  StronglySorted R1 l -> StronglySorted R2 l.
Proof.
  intros HR. induction 1 as [|x l Hl IH Hx]; constructor; [done|].
  eapply Forall_impl; [exact Hx | auto].
Qed.

Section TagCounter.
Context `{RT : Runtime}.
Context (mapping : gmap string string) (c : list Constituent).
Hypothesis Hc : NoDup (pid_of <$> c).

Lemma elem_of_tag_rows p t :
  (p, t) ∈ tag_rows mapping c <->
  exists r, r ∈ c /\ pid_of r = p /\ t ∈ final_tags mapping (tags r).
Proof.
  unfold tag_rows. rewrite list_elem_of_bind. split.
  - intros (r & H & Hr). apply list_elem_of_fmap in H as (t' & [= -> ->] & Ht).
    by exists r.
  - intros (r & Hr & <- & Ht). exists r. split; [|done].
    by apply list_elem_of_fmap_2.
Qed.

(** The carriers of a tag, counted once each. *)
Lemma tag_count_carriers t :
  length (Pd.drop_duplicates id
            (fst <$> Pd.group snd t
                       (Pd.drop_duplicates id (tag_rows mapping c))))
  = length (filter (fun r => t ∈ final_tags mapping (tags r)) c).
Proof.
  rewrite <- (length_fmap pid_of (filter _ c)).
  apply Permutation_length, NoDup_Permutation.
  - apply drop_duplicates_id_NoDup.
  - by apply NoDup_fmap_filter.
  - intros p. rewrite elem_of_drop_duplicates_id, !list_elem_of_fmap. split.
    + intros ([p' t'] & -> & H). unfold Pd.group in H.
      apply list_elem_of_filter in H as [Ht H]. simpl in *. subst t'.
      apply (proj1 (elem_of_drop_duplicates_id _ _)) in H.
      apply elem_of_tag_rows in H as (r & Hr & <- & Ht).
      exists r. split; [done|]. by apply list_elem_of_filter.
    + intros (r & -> & H). apply list_elem_of_filter in H as [Ht Hr].
      exists (pid_of r, t). split; [done|].
      apply list_elem_of_filter. split; [done|].
      apply elem_of_drop_duplicates_id, elem_of_tag_rows. by exists r.
Qed.

Lemma tag_counts_spec :
  let tc := tag_counts (tag_rows mapping c) in
  NoDup (fst <$> tc) /\
  (forall t, t ∈ fst <$> tc <->
             exists r, r ∈ c /\ t ∈ final_tags mapping (tags r)) /\
  (forall t n, (t, n) ∈ tc ->
     n = length (filter (fun r => t ∈ final_tags mapping (tags r)) c)) /\
  StronglySorted count_desc_name_asc tc.
Proof.
  unfold tag_counts.
  set (rows := tag_rows mapping c).
  set (tags_unique := Pd.drop_duplicates id rows).
  set (names := Pd.group_keys (snd <$> tags_unique)).
  set (count := fun t =>
         (t, length (Pd.drop_duplicates id
                       (fst <$> Pd.group snd t tags_unique)))).
  assert (Hperm : Pd.sort_values tags_order (count <$> names)
                  ≡ₚ count <$> names)
    by apply sort_values_perm.
  assert (Hfst : fst <$> (count <$> names) = names).
  { rewrite <- list_fmap_compose. apply list_fmap_id. }
  simpl. repeat split.
  - rewrite Hperm, Hfst. apply group_keys_NoDup.
  - rewrite Hperm, Hfst. unfold names. rewrite elem_of_group_keys.
    intros (pt & -> & H)%list_elem_of_fmap.
    destruct pt as [p t]. unfold tags_unique, rows in H.
    apply (proj1 (elem_of_drop_duplicates_id _ _)) in H.
    apply elem_of_tag_rows in H as (r & Hr & _ & Ht). by exists r.
  - rewrite Hperm, Hfst. unfold names. rewrite elem_of_group_keys.
    intros (r & Hr & Ht). apply list_elem_of_fmap.
    exists (pid_of r, t). split; [done|].
    apply elem_of_drop_duplicates_id, elem_of_tag_rows. by exists r.
  - intros t n H. rewrite Hperm in H.
    apply list_elem_of_fmap in H as (t' & [= -> ->] & _).
    apply tag_count_carriers.
  - eapply StronglySorted_impl; [apply tags_order_le|].
    apply sort_values_sorted, good_tags_order.
Qed.
End TagCounter.

Section TagsTable.
Context `{RT : Runtime}.

(** X19 ([transform]).  The tags table of a run that returns is the
    table of the counter on the canonical constituents.
    It has the two tag columns; it has one
    row per tag that occurs in a final tag list, with the number of
    constituents, all of distinct identity, whose final list holds the
    tag; its rows are in the order of descending count, then ascending
    name; and it is the empty table with the two columns when no final
    list holds a tag. *)
Theorem tags_table_counts (c0 : list Constituent)
    (mapping : gmap string string) :
  let c := dedupe_constituents_latest c0 in
  (forall em d out T,
      transform c0 em d mapping = Some (out, T) ->
      T = tags_table mapping c) /\
  NoDup (pid_of <$> c) /\
  columns (tags_table mapping c) = tags_columns /\
  exists tc : list (string * nat),
    records (tags_table mapping c) = tags_record <$> tc /\
    NoDup (fst <$> tc) /\
    (forall t, t ∈ fst <$> tc <->
               exists r, r ∈ c /\ t ∈ final_tags mapping (tags r)) /\
    (forall t n, (t, n) ∈ tc ->
       n = length (filter (fun r => t ∈ final_tags mapping (tags r)) c)) /\
    StronglySorted count_desc_name_asc tc /\
    ((forall r, r ∈ c -> final_tags mapping (tags r) = []) -> tc = []).
Proof.
  intros c. split; [intros em d out T; apply transform_tags|].
  split; [apply dedupe_NoDup|].
  unfold tags_table. case_bool_decide as Hrows; simpl.
  - split; [done|]. exists []. split; [done|]. split; [constructor|].
    split.
    + intros t. split; [by intros ?%elem_of_nil|].
      intros (r & Hr & Ht). exfalso.
      assert (H : (pid_of r, t) ∈ tag_rows mapping c)
        by (apply elem_of_tag_rows; by exists r).
      rewrite Hrows in H. by apply elem_of_nil in H.
    + split; [by intros t n ?%elem_of_nil|]. split; [constructor | done].
  - split; [done|]. exists (tag_counts (tag_rows mapping c)).
    split; [done|].
    destruct (tag_counts_spec mapping c (dedupe_NoDup c0))
      as (H1 & H2 & H3 & H4).
    repeat split; try done; try apply H2.
    intros Hnone. exfalso. apply Hrows.
    destruct (tag_rows mapping c) as [|[p t] l] eqn:Hr; [done|].
    assert (H : (p, t) ∈ tag_rows mapping c) by (rewrite Hr; left).
    apply elem_of_tag_rows in H as (r & Hr' & _ & Ht).
    rewrite (Hnone r Hr') in Ht. by apply elem_of_nil in Ht.
Qed.

(** C8 on a run without constituents and without emails: no identity
    carries a tag, and the counter would give the empty table with the
    two columns, but the run raises before it gets there, on the frame
    without columns that [build_email_columns] makes of no rows. *)
Theorem no_identity_run_raises (d : Donations) (mapping : gmap string string) :
  transform [] [] d mapping = None /\
  tags_table mapping (dedupe_constituents_latest [])
  = {| columns := tags_columns; records := [] |}.
Proof. split; reflexivity. Qed.
End TagsTable.

(* ------------------------------------------------------------------ *)
(** ** Validation of the tags table *)
(* ------------------------------------------------------------------ *)

(** C10: an empty tags table raises no issue, whatever its columns: the
    checks on the required columns and on the counts are not reached. *)
Theorem validate_tags_empty `{RT : Runtime} (df : Frame) :
  frame_empty df = true -> validate_tags df = [].
Proof. intros H. unfold validate_tags. by rewrite H. Qed.

Lemma validate_tags_empty_witness :
  frame_empty headless_frame = true /\
  validate_tags (RT := Sample.runtime) headless_frame = [].
Proof.
  split; [reflexivity|].
  apply (validate_tags_empty (RT := Sample.runtime)). reflexivity.
Defined.

(* ------------------------------------------------------------------ *)
(** ** Donation aggregation *)
(* ------------------------------------------------------------------ *)

Lemma filter_eq_NoDup {A} `{EqDecision A} (k : A) (l : list A) :
  NoDup l ->
  filter (fun x => x = k) l = if decide (k ∈ l) then [k] else [].
Proof.
  induction l as [|x l IH]; [done|].
  intros [Hx Hl]%NoDup_cons. rewrite filter_cons, IH by done.
  destruct (decide (x = k)) as [->|Hne].
  - rewrite decide_False by done. by rewrite decide_True by left.
  - destruct (decide (k ∈ l)) as [Hin|Hin].
    + by rewrite decide_True by (by right).
    + rewrite decide_False; [done|].
      intros [?|?]%elem_of_cons; congruence.
Qed.

Lemma lookup_key_omap {V W} (f : string -> option W) (g : W -> V) k
    (ks : list string) :
  lookup_key k (omap (fun x => (fun w => (x, g w)) <$> f x) ks)
  = if decide (k ∈ ks) then g <$> f k else None.
Proof.
  induction ks as [|x ks IH]; [done|]. csimpl.
  destruct (decide (x = k)) as [->|Hne].
  - rewrite decide_True by left.
    destruct (f k) as [w|] eqn:Hf; csimpl.
    + rewrite lookup_key_cons. simpl. by rewrite decide_True.
    + rewrite IH, ?Hf. by destruct (decide (k ∈ ks)).
  - assert (Hk : (if decide (k ∈ x :: ks) then g <$> f k else None)
                 = if decide (k ∈ ks) then g <$> f k else None).
    { destruct (decide (k ∈ ks)) as [Hin|Hin].
      - by rewrite decide_True by (by right).
      - rewrite decide_False; [done|].
        intros [?|?]%elem_of_cons; congruence. }
    rewrite Hk. destruct (f x) as [w|]; csimpl; [|exact IH].
    rewrite lookup_key_cons. simpl. by rewrite decide_False.
Qed.

Lemma fst_omap_pairs {V W} (f : string -> option W) (g : W -> V)
    (ks : list string) :
  (forall k, k ∈ ks -> is_Some (f k)) ->
  fst <$> omap (fun x => (fun w => (x, g w)) <$> f x) ks = ks.
Proof.
  induction ks as [|x ks IH]; intros Hf; [done|]. csimpl.
  destruct (Hf x) as [w Hw]; [left|]. rewrite Hw. csimpl.
  f_equal. apply IH. intros k Hk. apply Hf. by right.
Qed.

Lemma group_nonempty {A K} `{EqDecision K} (key : A -> K) (x : A) l :
  x ∈ l -> is_Some (head (Pd.group key (key x) l)).
Proof.
  intros Hx. apply head_is_Some. intros Hnil.
  assert (H : x ∈ Pd.group key (key x) l)
    by (by apply list_elem_of_filter).
  rewrite Hnil in H. by apply elem_of_nil in H.
Qed.

Section Donations.
Context `{RT : Runtime}.

Lemma good_donations_order :
  GoodCmp num_compare -> GoodCmp donations_order.
Proof.
  intros Hnum. unfold donations_order.
  apply (good_cmp_then
           (fun a b => String.compare (q_pid a) (q_pid b))
           (fun a b =>
              Pd.cmp_then (Pd.desc Z.compare (q_date a) (q_date b))
                (Pd.desc num_compare (q_amount a) (q_amount b)))).
  - apply (good_cmp_key String.compare q_pid), good_cmp_string.
  - apply (good_cmp_then
             (fun a b => Pd.desc Z.compare (q_date a) (q_date b))
             (fun a b => Pd.desc num_compare (q_amount a) (q_amount b))).
    + apply (good_cmp_key (Pd.desc Z.compare) q_date).
      apply good_cmp_desc, good_cmp_Z.
    + apply (good_cmp_key (Pd.desc num_compare) q_amount).
      by apply good_cmp_desc.
Qed.

Lemma contribution_iff d i r q :
  contribution d i r = Some q <-> contributes d i r q.
Proof.
  unfold contribution, contributes. destruct q as [pid a dt]. simpl.
  destruct (parse_currency_to_float (d_amount r)) as [a'|];
    [|split; [discriminate | by intros [? _]]].
  destruct (donation_date_of d i) as [dt'|];
    [|split; [discriminate | by intros (_ & ? & _)]].
  destruct (has_status d); simpl.
  - destruct (String.eqb_spec (Py.lower (Pd.fillna_empty (d_status r))) "paid")
      as [Hp|Hp]; simpl.
    + split; [by intros [= <- <- <-] | by intros ([= ->] & [= ->] & _ & ->)].
    + split; [discriminate | intros (_ & _ & H & _); by destruct Hp; apply H].
  - split; [by intros [= <- <- <-] | by intros ([= ->] & [= ->] & _ & ->)].
Qed.

Lemma omap_filter_imap {R W Q} (P : W -> Prop) `{forall w, Decision (P w)}
    (keep : W -> option Q) (rows : list R)
    (w : nat -> R -> W) (g : nat -> R -> option Q) :
  (forall i r, g i r = if decide (P (w i r)) then keep (w i r) else None) ->
  omap keep (filter P (imap w rows)) = omap id (imap g rows).
Proof.
  revert w g. induction rows as [|r rows IH]; intros w g Hg; [done|].
  csimpl. rewrite filter_cons, Hg.
  destruct (decide (P (w 0 r))); csimpl.
  - destruct (keep (w 0 r)); csimpl; f_equal; apply IH; intros; apply Hg.
  - apply IH. intros. apply Hg.
Qed.

(** The rows that reach the aggregation are what the rows of the table
    contribute, row by row and in table order. *)
Lemma qualifying_spec d :
  qualifying d = omap id (imap (contribution d) (donation_rows d)).
Proof.
  unfold qualifying, donation_frame.
  set (dates := to_datetime (d_date <$> donation_rows d)).
  assert (Hrow : forall i r,
             dropna (donation_work dates i r)
             = match parse_currency_to_float (d_amount r),
                     donation_date_of d i with
               | Some a, Some dt =>
                   Some {| q_pid := Pd.astype_str (d_patron_id r);
                           q_amount := a; q_date := dt |}
               | _, _ => None
               end) by reflexivity.
  destruct (has_status d) eqn:Hs.
  - apply (omap_filter_imap (fun w => is_paid w = true) dropna).
    intros i r. rewrite Hrow. unfold contribution, is_paid.
    rewrite Hs. cbn [donation_work w_status andb].
    destruct (String.eqb (Py.lower (Pd.fillna_empty (d_status r))) "paid");
      cbn [negb].
    + rewrite decide_True by done.
      by destruct (parse_currency_to_float (d_amount r)),
           (donation_date_of d i).
    + rewrite decide_False by done.
      by destruct (parse_currency_to_float (d_amount r)),
           (donation_date_of d i).
  - rewrite <- (omap_filter_imap (fun _ => True) dropna (donation_rows d)
                  (donation_work dates) (contribution d)).
    + f_equal. induction (imap _ _) as [|w l IH]; [done|].
      rewrite filter_cons. simpl. by rewrite <- IH.
    + intros i r. rewrite Hrow. unfold contribution. rewrite Hs. simpl.
      by destruct (parse_currency_to_float (d_amount r)),
           (donation_date_of d i).
Qed.

Lemma lifetime_keys df : fst <$> lifetime df = Pd.group_keys (q_pid <$> df).
Proof.
  unfold lifetime. rewrite <- list_fmap_compose. apply list_fmap_id.
Qed.

Lemma recent_keys df :
  fst <$> recent df
  = Pd.group_keys (q_pid <$> Pd.sort_values donations_order df).
Proof.
  unfold recent.
  apply (fst_omap_pairs
           (fun k => head (Pd.group q_pid k
                             (Pd.sort_values donations_order df)))
           (fun r => (q_date r, q_amount r))).
  intros k Hk. apply (proj1 (elem_of_group_keys _ _)) in Hk.
  apply list_elem_of_fmap in Hk as (q & -> & Hq).
  by apply group_nonempty.
Qed.

Lemma elem_of_sorted_pids df k :
  k ∈ q_pid <$> Pd.sort_values donations_order df <-> k ∈ q_pid <$> df.
Proof. by rewrite (sort_values_perm donations_order). Qed.

(** The rows of an identity in the metrics table: one, when it has a
    contributing row, with the rendered sum of its amounts and the
    rendered date and amount of the head of its group in the sorted
    table. *)
Lemma build_donation_metrics_group d k :
  filter (fun m => m_pid m = k) (build_donation_metrics d)
  = if decide (k ∈ q_pid <$> qualifying d) then
      [{| m_pid := k;
          m_lifetime := format_currency (series_sum (amounts_of d k));
          m_recent_date :=
            match head (Pd.group q_pid k
                          (Pd.sort_values donations_order (qualifying d))) with
            | Some q => isoformat (q_date q)
            | None => EmptyString
            end;
          m_recent_amount :=
            match head (Pd.group q_pid k
                          (Pd.sort_values donations_order (qualifying d))) with
            | Some q => format_currency (Some (q_amount q))
            | None => EmptyString
            end |}]
    else [].
Proof.
  unfold build_donation_metrics, amounts_of.
  set (df := qualifying d).
  case_bool_decide as Hdf.
  { rewrite Hdf.
    destruct (decide (k ∈ q_pid <$> [])) as [Hin|_]; [|done].
    by apply elem_of_nil in Hin. }
  rewrite filter_fmap_comm. simpl.
  rewrite filter_eq_NoDup by apply group_keys_NoDup.
  assert (Hkeys : k ∈ Pd.group_keys ((fst <$> lifetime df) ++ (fst <$> recent df))
                  <-> k ∈ q_pid <$> df).
  { rewrite elem_of_group_keys, elem_of_app, lifetime_keys, recent_keys.
    rewrite !elem_of_group_keys, elem_of_sorted_pids. tauto. }
  destruct (decide (k ∈ q_pid <$> df)) as [Hin|Hin].
  2:{ rewrite decide_False; [done | by rewrite Hkeys]. }
  rewrite decide_True by (by rewrite Hkeys). simpl. f_equal.
  unfold metrics_row.
  assert (Hlt : lookup_key k (lifetime df)
                = Some (series_sum (q_amount <$> Pd.group q_pid k df))).
  { unfold lifetime.
    rewrite (lookup_key_fmap
               (fun k => series_sum (q_amount <$> Pd.group q_pid k df))).
    by rewrite decide_True by (by apply elem_of_group_keys). }
  assert (Hrc : lookup_key k (recent df)
                = (fun r => (q_date r, q_amount r))
                    <$> head (Pd.group q_pid k
                                (Pd.sort_values donations_order df))).
  { unfold recent.
    rewrite (lookup_key_omap
               (fun k => head (Pd.group q_pid k
                                 (Pd.sort_values donations_order df)))
               (fun r => (q_date r, q_amount r))).
    by rewrite decide_True
      by (by apply elem_of_group_keys, elem_of_sorted_pids). }
  rewrite Hlt, Hrc. simpl.
  by destruct (head (Pd.group q_pid k (Pd.sort_values donations_order df))).
Qed.

(** C5, as amended: the rows that feed the aggregation are, row by row
    and in table order, the rows whose amount and date both parse and
    whose status, when the table has a Status column, is paid whatever
    the case; and every identity with such a row has one row of metrics,
    which carries the ISO calendar date and the currency-formatted
    amount of a contributing row of the latest timestamp, the time of
    day included, and, among the rows of that very timestamp, of the
    largest amount.  An identity without a contributing row has no row
    of metrics. *)
Theorem donation_most_recent (d : Donations) :
  GoodCmp num_compare ->
  qualifying d = omap id (imap (contribution d) (donation_rows d)) /\
  (forall i r q, contribution d i r = Some q <-> contributes d i r q) /\
  (forall k,
      k ∉ q_pid <$> qualifying d ->
      filter (fun m => m_pid m = k) (build_donation_metrics d) = []) /\
  (forall k,
      k ∈ q_pid <$> qualifying d ->
      exists q m,
        q_pid q = k /\ most_recent d q /\
        filter (fun m => m_pid m = k) (build_donation_metrics d) = [m] /\
        m_recent_date m = isoformat (q_date q) /\
        m_recent_amount m = format_currency (Some (q_amount q))).
Proof.
  intros Hnum. split; [apply qualifying_spec|].
  split; [apply contribution_iff|]. split.
  - intros k Hk. rewrite build_donation_metrics_group.
    by rewrite decide_False.
  - intros k Hk. rewrite build_donation_metrics_group.
    rewrite decide_True by done.
    assert (Hs : StronglySorted (cmp_le donations_order)
                   (Pd.sort_values donations_order (qualifying d)))
      by apply sort_values_sorted, good_donations_order, Hnum.
    destruct (head (Pd.group q_pid k
                      (Pd.sort_values donations_order (qualifying d))))
      as [q|] eqn:Hhead.
    2:{ exfalso. apply list_elem_of_fmap in Hk as (q & -> & Hq).
        apply (proj2 (elem_of_sort_values donations_order q _)) in Hq.
        destruct (group_nonempty q_pid q _ Hq) as [q0 Hq0]. congruence. }
    destruct (sorted_group_head donations_order
                (GoodCmp0 := good_donations_order Hnum)
                q_pid k _ q Hs Hhead) as (Hkey & Hin & Hmin).
    eexists q, _. split; [exact Hkey|]. split; [|done].
    split.
    { by apply (proj1 (elem_of_sort_values donations_order q _)) in Hin. }
    intros q' Hq' Hk'.
    assert (Hle : cmp_le donations_order q q').
    { apply Hmin; [|congruence].
      by apply (proj2 (elem_of_sort_values donations_order q' _)). }
    unfold cmp_le, donations_order, Pd.desc in Hle.
    rewrite Hk', string_compare_refl in Hle. simpl in Hle.
    destruct (Z.compare_spec (q_date q') (q_date q)) as [He|Hlt|Hgt];
      simpl in Hle.
    + right. by split.
    + by left.
    + congruence.
Qed.
End Donations.


Lemma omap_fmap_comm {A B C} (f : A -> B) (g : B -> option C) (l : list A) :
  omap g (f <$> l) = omap (fun x => g (f x)) l.
Proof. induction l as [|x l IH]; [done|]. csimpl. by rewrite IH. Qed.

Section LifetimeTotals.
Context `{RT : Runtime}.

(** The metrics table, row by row. *)
Lemma build_donation_metrics_rows d :
  exists keys : list string,
    NoDup keys /\
    (forall k, k ∈ keys <-> k ∈ q_pid <$> qualifying d) /\
    m_pid <$> build_donation_metrics d = keys /\
    m_lifetime <$> build_donation_metrics d
    = (fun k => format_currency (series_sum (amounts_of d k))) <$> keys.
Proof.
  unfold build_donation_metrics, amounts_of.
  set (df := qualifying d).
  case_bool_decide as Hdf.
  { exists []. rewrite Hdf. repeat split; try done. constructor. }
  exists (Pd.group_keys ((fst <$> lifetime df) ++ (fst <$> recent df))).
  assert (Hkeys : forall k,
             k ∈ Pd.group_keys ((fst <$> lifetime df) ++ (fst <$> recent df))
             <-> k ∈ q_pid <$> df).
  { intros k.
    rewrite elem_of_group_keys, elem_of_app, lifetime_keys, recent_keys.
    rewrite !elem_of_group_keys, elem_of_sorted_pids. tauto. }
  split; [apply group_keys_NoDup|]. split; [exact Hkeys|]. split.
  - rewrite <- list_fmap_compose. apply list_fmap_id.
  - rewrite <- list_fmap_compose. apply list_fmap_ext.
    intros i k Hk. apply list_elem_of_lookup_2, Hkeys in Hk. simpl.
    unfold lifetime.
    rewrite (lookup_key_fmap
               (fun k => series_sum (q_amount <$> Pd.group q_pid k df))).
    by rewrite decide_True by (by apply elem_of_group_keys).
Qed.




End LifetimeTotals.


(** The rendering keeps two decimals, so a total parsed back is not the
    sum it renders: what is below half a cent is lost, also where every
    paid row is dated and enters its total. *)
Example lifetime_total_rounds_to_cents :
  m_lifetime <$> build_donation_metrics (RT := Mills.runtime) sub_cent_donation
  = ["$0.00"] /\
  parsed_back_totals (RT := Mills.runtime) sub_cent_donation = [0%Z] /\
  paid_amounts (RT := Mills.runtime) sub_cent_donation = [4%Z].
Proof. vm_compute. repeat split; reflexivity. Qed.

(* ------------------------------------------------------------------ *)
(** ** Worked examples *)
(* ------------------------------------------------------------------ *)

Example run_ids : cb_id <$> fst run_result = ["1"; "2"; "3"; "7"].
Proof. reflexivity. Qed.

Example later_snapshot_wins :
  last_name <$> dedupe_constituents_latest (RT := Sample.runtime)
                  run_constituents
  = [Some "Smith"; None].
Proof. vm_compute. reflexivity. Qed.

Example duplicate_address_collapses :
  build_email_columns
    [Sample.constituent "1" "Jane" "Doe" "2024-01-01" "JANE@Example.com"
       EmptyString]
    [Sample.email "1" "jane@example.com"]
  = [{| ec_pid := "1"; ec_email1 := "jane@example.com";
        ec_email2 := EmptyString |}].
Proof. vm_compute. reflexivity. Qed.

Example email_only_identity_resolved :
  build_email_columns [] email_only_rows
  = [{| ec_pid := "7"; ec_email1 := "jane@example.com";
        ec_email2 := "j.doe@example.org" |}].
Proof. vm_compute. reflexivity. Qed.

Example refunded_donation_excluded :
  build_donation_metrics (RT := Sample.runtime) settled_and_refunded
  = [{| m_pid := "2"; m_lifetime := "$50.00";
        m_recent_date := "2024-03-01"; m_recent_amount := "$50.00" |}].
Proof. vm_compute. reflexivity. Qed.

Example tags_mapped_and_merged :
  final_tags run_mapping (Some "Board, board, Donor") = ["Board"; "Major Donor"].
Proof. vm_compute. reflexivity. Qed.

Example run_tags_table :
  snd run_result
  = {| columns := tags_columns;
       records := [[VStr "Major Donor"; VInt 2]; [VStr "Board"; VInt 1]] |}.
Proof. reflexivity. Qed.

Lemma email_columns_invariant_witness :
  transform (RT := Sample.runtime) run_constituents run_emails
    settled_and_refunded run_mapping
  = Some (fst run_result, snd run_result) /\
  run_person ∈ fst run_result /\
  (Pd.fillna_empty (cb_email1 run_person) = EmptyString ->
   cb_email2 run_person = Some EmptyString) /\
  (forall a b, cb_email1 run_person = Some a -> cb_email2 run_person = Some b ->
               a <> EmptyString -> b <> EmptyString -> a <> b).
Proof.
  split; [vm_compute; reflexivity|]. split; [left|].
  apply (email_columns_invariant (RT := Sample.runtime) run_constituents
           run_emails settled_and_refunded run_mapping
           (fst run_result) (snd run_result) run_person).
  - vm_compute. reflexivity.
  - left.
Defined.

Lemma names_present_witness :
  transform (RT := Sample.runtime) run_constituents run_emails
    settled_and_refunded run_mapping
  = Some (fst run_result, snd run_result) /\
  run_company ∈ fst run_result /\
  cb_type run_company = Company /\
  cb_company_name run_company <> EmptyString.
Proof.
  split; [vm_compute; reflexivity|].
  assert (Hin : run_company ∈ fst run_result) by (right; right; left).
  split; [exact Hin|]. split; [reflexivity|].
  destruct (names_present (RT := Sample.runtime) run_constituents
              run_emails settled_and_refunded run_mapping
              (fst run_result) (snd run_result) run_company
              ltac:(vm_compute; reflexivity) Hin) as (oc & _ & H).
  exact H.
Defined.

Lemma donation_most_recent_witness :
  GoodCmp (num_compare (Runtime := Sample.runtime)) /\
  exists q m,
    q_pid q = "2" /\
    most_recent (RT := Sample.runtime) two_donors q /\
    filter (fun m => m_pid m = "2")
      (build_donation_metrics (RT := Sample.runtime) two_donors) = [m] /\
    m_recent_date m = "2024-04-01" /\
    m_recent_amount m = "$1,250.50".
Proof.
  split; [exact good_cmp_Z|].
  destruct (donation_most_recent (RT := Sample.runtime) two_donors good_cmp_Z)
    as (_ & _ & _ & H).
  destruct (H "2" ltac:(vm_compute; left)) as (q & m & Hq & Hrecent & Hm & _).
  exists q, m. split; [exact Hq|]. split; [exact Hrecent|].
  split; [exact Hm|].
  vm_compute in Hm. injection Hm as <-. split; reflexivity.
Defined.

(* ------------------------------------------------------------------ *)
(** ** The form in which an address is judged *)
(* ------------------------------------------------------------------ *)

Lemma lstrip_by_all p l s :
  all_chars p l = true -> Py.lstrip_by p (l +:+ s) = Py.lstrip_by p s.
Proof.
  induction l as [|a l IH]; [done|]. cbn [all_chars]. intros H.
  apply andb_true_iff in H as [Ha Hl].
  change (String a l +:+ s) with (String a (l +:+ s)).
  cbn [Py.lstrip_by]. rewrite Ha. by apply IH.
Qed.

Lemma lstrip_by_empty p r :
  all_chars p r = true -> Py.lstrip_by p r = EmptyString.
Proof.
  induction r as [|a r IH]; [done|]. cbn [all_chars Py.lstrip_by]. intros H.
  apply andb_true_iff in H as [Ha Hr]. rewrite Ha. by apply IH.
Qed.

Lemma rstrip_by_empty p r :
  all_chars p r = true -> Py.rstrip_by p r = EmptyString.
Proof.
  induction r as [|a r IH]; [done|]. cbn [all_chars Py.rstrip_by]. intros H.
  apply andb_true_iff in H as [Ha Hr]. by rewrite IH, Ha.
Qed.

Lemma rstrip_by_all p e r :
  all_chars p r = true -> Py.rstrip_by p (e +:+ r) = Py.rstrip_by p e.
Proof.
  intros Hr. induction e as [|a e IH].
  - change (EmptyString +:+ r) with r. by rewrite rstrip_by_empty.
  - change (String a e +:+ r) with (String a (e +:+ r)).
    cbn [Py.rstrip_by]. by rewrite IH.
Qed.

Lemma rstrip_by_last p e a :
  p a = false ->
  Py.rstrip_by p (e +:+ String a EmptyString) = e +:+ String a EmptyString.
Proof.
  intros Ha. induction e as [|b e IH].
  - change (EmptyString +:+ String a EmptyString) with (String a EmptyString).
    cbn [Py.rstrip_by]. by rewrite Ha.
  - change (String b e +:+ String a EmptyString)
      with (String b (e +:+ String a EmptyString)).
    cbn [Py.rstrip_by]. rewrite IH.
    destruct (e +:+ String a EmptyString) eqn:E; [|done]. by destruct e.
Qed.

Lemma string_last_cases (e : string) :
  e = EmptyString \/ exists e' a, e = e' +:+ String a EmptyString.
Proof.
  induction e as [|a e IH]; [by left|]. right.
  destruct IH as [->|(e' & b & ->)].
  - by exists EmptyString, a.
  - by exists (String a e'), b.
Qed.

Lemma trimmed_unique p s e : trimmed p s e -> e = Py.strip_by p s.
Proof.
  intros (l & r & -> & Hl & Hr & Hhead & Hlast). unfold Py.strip_by.
  rewrite lstrip_by_all by done.
  destruct e as [|a e'].
  - change (EmptyString +:+ r) with r. by rewrite lstrip_by_empty.
  - pose proof (Hhead a e' eq_refl) as Ha.
    change (String a e' +:+ r) with (String a (e' +:+ r)).
    cbn [Py.lstrip_by]. rewrite Ha.
    change (String a (e' +:+ r)) with (String a e' +:+ r).
    rewrite rstrip_by_all by done.
    destruct (string_last_cases (String a e')) as [?|(e'' & b & He)]; [done|].
    rewrite He. symmetry. apply rstrip_by_last. by apply (Hlast e'' b).
Qed.

Lemma lstrip_by_split p s :
  exists l, s = l +:+ Py.lstrip_by p s /\ all_chars p l = true.
Proof.
  induction s as [|a s (l & Hs & Hl)]; [by exists EmptyString|].
  cbn [Py.lstrip_by]. destruct (p a) eqn:Ha; [|by exists EmptyString].
  exists (String a l). split.
  - change (String a l +:+ Py.lstrip_by p s)
      with (String a (l +:+ Py.lstrip_by p s)). by rewrite <- Hs.
  - cbn [all_chars]. by rewrite Ha, Hl.
Qed.

Lemma rstrip_by_split p s :
  exists r, s = Py.rstrip_by p s +:+ r /\ all_chars p r = true.
Proof.
  induction s as [|a s (r & Hs & Hr)]; [by exists EmptyString|].
  cbn [Py.rstrip_by]. destruct (Py.rstrip_by p s) as [|b t] eqn:E.
  - change (EmptyString +:+ r) with r in Hs. subst r.
    destruct (p a) eqn:Ha.
    + exists (String a s). split; [done|]. cbn [all_chars]. by rewrite Ha, Hr.
    + exists s. by split.
  - exists r. split; [|done].
    change (String a (String b t) +:+ r) with (String a (String b t +:+ r)).
    by rewrite <- Hs.
Qed.

Lemma rstrip_by_last_char p s e a :
  Py.rstrip_by p s = e +:+ String a EmptyString -> p a = false.
Proof.
  revert e. induction s as [|b s IH]; intros e; cbn [Py.rstrip_by].
  { by destruct e. }
  destruct (Py.rstrip_by p s) as [|c t] eqn:E.
  - destruct (p b) eqn:Hb; [by destruct e|].
    destruct e as [|c e]; [by intros [= <-]|].
    intros [= _ He]. by destruct e.
  - destruct e as [|b' e]; [done|].
    intros [= _ He]. by apply (IH e).
Qed.

Lemma strip_by_trimmed p s : trimmed p s (Py.strip_by p s).
Proof.
  unfold Py.strip_by.
  destruct (lstrip_by_split p s) as (l & Hs & Hl).
  destruct (rstrip_by_split p (Py.lstrip_by p s)) as (r & Hu & Hr).
  exists l, r. split; [by rewrite <- Hu|].
  split; [done|]. split; [done|]. split.
  - intros a e' He.
    destruct (lstrip_by_head p s) as [Hn|(b & t & Hb & Hpb)].
    + by rewrite Hn in He.
    + rewrite Hb in He. cbn [Py.rstrip_by] in He.
      destruct (Py.rstrip_by p t); rewrite ?Hpb in He;
        injection He as <- _; done.
  - intros e' a He. by apply (rstrip_by_last_char p (Py.lstrip_by p s) e' a).
Qed.

Lemma strip_by_ext p q s :
  (forall a, p a = q a) -> Py.strip_by p s = Py.strip_by q s.
Proof.
  intros Hpq. unfold Py.strip_by.
  assert (forall t, Py.lstrip_by p t = Py.lstrip_by q t) as Hl.
  { induction t as [|a t IH]; [done|]. cbn [Py.lstrip_by].
    by rewrite Hpq, IH. }
  assert (forall t, Py.rstrip_by p t = Py.rstrip_by q t) as Hr.
  { induction t as [|a t IH]; [done|]. cbn [Py.rstrip_by].
    by rewrite Hpq, IH. }
  by rewrite Hl, Hr.
Qed.

Lemma is_wrapper_spec c : Py.contains_char c email_wrappers = is_wrapper c.
Proof. destruct c as [[] [] [] [] [] [] [] []]; vm_compute; reflexivity. Qed.

(** The standard form of the specification is the text
    [standardize_email] computes, and no other. *)
Lemma standard_form_iff s e :
  standard_form s e <-> e = standardize_email (Some s).
Proof.
  unfold standard_form, standardize_email, Py.strip_chars.
  cbn [_clean_str]. unfold Py.strip. split.
  - intros (t & Ht & He). apply trimmed_unique in Ht, He. subst t.
    rewrite He. apply strip_by_ext. intros a. symmetry. apply is_wrapper_spec.
  - intros ->. exists (Py.strip_by Py.isspace s).
    split; [apply strip_by_trimmed|].
    rewrite (strip_by_ext (fun c => Py.contains_char c email_wrappers)
               is_wrapper) by apply is_wrapper_spec.
    apply strip_by_trimmed.
Qed.

(** C4, as amended: NaN is no valid address; every text has a standard
    form, which is the text without the white space around it, in lower
    case, without the spaces, angle brackets and quotes around that; and
    the text is accepted exactly when this form has one at-sign, a
    non-empty local part, a non-empty domain with a dot in it, and no
    space character.  White space around the text is trimmed and never
    counts, and white space other than the space inside the address (a
    tab, say) does not make it invalid. *)
Theorem is_valid_email_iff (s : string) :
  is_valid_email None = false /\
  (exists e, standard_form s e) /\
  forall e, standard_form s e ->
    (is_valid_email (Some s) = true <-> email_wellformed is_blank e).
Proof.
  split; [done|]. split.
  - exists (standardize_email (Some s)). by apply standard_form_iff.
  - intros e He. apply standard_form_iff in He as ->.
    apply is_valid_email_standardized.
Qed.

Lemma is_valid_email_iff_witness :
  standard_form " <A@b.c> " "a@b.c" /\
  is_valid_email (Some " <A@b.c> ") = true /\
  email_wellformed is_blank "a@b.c".
Proof.
  assert (standard_form " <A@b.c> " "a@b.c") as Hs
    by (apply standard_form_iff; vm_compute; reflexivity).
  assert (is_valid_email (Some " <A@b.c> ") = true) as Hv
    by (vm_compute; reflexivity).
  destruct (is_valid_email_iff " <A@b.c> ") as (_ & _ & H).
  split; [exact Hs|]. split; [exact Hv|]. exact (proj1 (H _ Hs) Hv).
Defined.

(** C4, as stated, fails: the address with a tab inside is its own
    standard form and is accepted, although it holds white space. *)
Lemma is_valid_email_accepts_tab :
  tabbed_address = Some tabbed_text /\
  standard_form tabbed_text tabbed_text /\
  ~ (is_valid_email tabbed_address = true <->
     email_wellformed Py.isspace tabbed_text).
Proof.
  split; [reflexivity|]. split.
  { apply standard_form_iff. vm_compute. reflexivity. }
  intros [H _].
  assert (is_valid_email tabbed_address = true) as Hv
    by (vm_compute; reflexivity).
  destruct (H Hv) as (_ & _ & Hno).
  assert (Py.contains_char (ascii_of_nat 9) tabbed_text = true) as Htab
    by (vm_compute; reflexivity).
  specialize (Hno _ Htab). vm_compute in Hno. discriminate.
Qed.

(** White space around an address is cut off before the test. *)
Example surrounding_space_is_trimmed :
  is_valid_email (Some " a@b.c") = true /\
  is_valid_email (Some ("a@b.c" +:+ String (ascii_of_nat 9) " ")) = true /\
  standard_form " <A@b.c> " "a@b.c".
Proof.
  split; [vm_compute; reflexivity|]. split; [vm_compute; reflexivity|].
  apply standard_form_iff. vm_compute. reflexivity.
Qed.

(* ------------------------------------------------------------------ *)
(** ** The lifetime totals of two donors *)
(* ------------------------------------------------------------------ *)


(* ------------------------------------------------------------------ *)
(** ** Two donations of one day *)
(* ------------------------------------------------------------------ *)

(** C5, as stated, fails: of two contributing rows of one calendar day
    the metrics carry the amount of the later one, though it is the
    smaller; the row of the latest day and the largest amount is not the
    one shown. *)
Lemma donation_same_day_later_wins :
  build_donation_metrics (RT := Clock.runtime) same_day_donations
  = [{| m_pid := "2"; m_lifetime := "$105.00";
        m_recent_date := "2024-03-01"; m_recent_amount := "$5.00" |}] /\
  ~ exists q,
      latest_day_largest_amount (RT := Clock.runtime) same_day_donations q /\
      q_pid q = "2" /\
      format_currency (RT := Clock.runtime) (Some (q_amount q)) = "$5.00".
Proof.
  split; [vm_compute; reflexivity|].
  intros (q & [Hq Hall] & _ & Hamt).
  assert (qualifying (RT := Clock.runtime) same_day_donations
          = same_day_qualifying) as Hqs by reflexivity.
  rewrite Hqs in Hq, Hall. unfold same_day_qualifying in Hq, Hall.
  apply elem_of_cons in Hq as [->|Hq].
  - revert Hamt. vm_compute. discriminate.
  - apply list_elem_of_singleton in Hq as ->.
    destruct (Hall _ (list_elem_of_here _ _) eq_refl) as [Hsame _].
    revert Hsame. vm_compute. intros Hsame. exact (Hsame eq_refl eq_refl).
Qed.

(* ------------------------------------------------------------------ *)
(** ** Cleaning, case and wrappers *)
(* ------------------------------------------------------------------ *)

Lemma lower_char_idemp c : Py.lower_char (Py.lower_char c) = Py.lower_char c.
Proof. destruct c as [[] [] [] [] [] [] [] []]; vm_compute; reflexivity. Qed.

Lemma isspace_lower_char c : Py.isspace (Py.lower_char c) = Py.isspace c.
Proof. destruct c as [[] [] [] [] [] [] [] []]; vm_compute; reflexivity. Qed.

Lemma wrapper_lower_char c :
  Py.contains_char (Py.lower_char c) email_wrappers
  = Py.contains_char c email_wrappers.
Proof. destruct c as [[] [] [] [] [] [] [] []]; vm_compute; reflexivity. Qed.

Lemma lower_idemp s : Py.lower (Py.lower s) = Py.lower s.
Proof. induction s as [|a s IH]; simpl; [done|]. by rewrite lower_char_idemp, IH. Qed.

Lemma lower_nonempty s : s <> EmptyString -> Py.lower s <> EmptyString.
Proof. by destruct s. Qed.

Section StripLower.
Context (p : ascii -> bool) (Hp : forall c, p (Py.lower_char c) = p c).

Lemma lstrip_by_lower s :
  Py.lstrip_by p (Py.lower s) = Py.lower (Py.lstrip_by p s).
Proof using Hp.
  induction s as [|a s IH]; simpl; [done|].
  rewrite Hp. by destruct (p a).
Qed.

Lemma rstrip_by_lower s :
  Py.rstrip_by p (Py.lower s) = Py.lower (Py.rstrip_by p s).
Proof using Hp.
  induction s as [|a s IH]; simpl; [done|].
  rewrite IH, Hp. destruct (Py.rstrip_by p s); simpl; [|done].
  by destruct (p a).
Qed.

Lemma strip_by_lower s :
  Py.strip_by p (Py.lower s) = Py.lower (Py.strip_by p s).
Proof using Hp.
  unfold Py.strip_by. by rewrite lstrip_by_lower, rstrip_by_lower.
Qed.
End StripLower.

Lemma strip_lower s : Py.strip (Py.lower s) = Py.lower (Py.strip s).
Proof. apply strip_by_lower, isspace_lower_char. Qed.

Lemma clean_str_strip x : Py.strip (_clean_str x) = _clean_str x.
Proof. destruct x; simpl; [apply strip_idemp | done]. Qed.

(** X1 ([_clean_str]).  Cleaning is idempotent: a cleaned cell is its own
    cleaning, so the many places that clean a value a second time
    ([standardize_email] on the cleaned primary email, [strip] on a
    cleaned tag name) change nothing there. *)
Theorem clean_str_idempotent (x : cell) :
  _clean_str (Some (_clean_str x)) = _clean_str x.
Proof. apply clean_str_strip. Qed.

Lemma standardize_email_lower s :
  standardize_email (Some s)
  = Py.strip_chars email_wrappers (Py.strip (Py.lower s)).
Proof. unfold standardize_email. simpl. by rewrite strip_lower. Qed.

(** X2 ([standardize_email], [is_valid_email]).  Letter case never
    matters to the resolver: two addresses that differ in case only have
    the same standard form and the same validity. *)
Theorem standardize_email_ignores_case (s t : string) :
  Py.lower s = Py.lower t ->
  standardize_email (Some s) = standardize_email (Some t) /\
  is_valid_email (Some s) = is_valid_email (Some t).
Proof.
  intros Hst.
  assert (standardize_email (Some s) = standardize_email (Some t)) as Heq.
  { by rewrite !standardize_email_lower, Hst. }
  split; [done|]. unfold is_valid_email. by rewrite Heq.
Qed.

Lemma standardize_email_ignores_case_witness :
  Py.lower "Jane@Example.COM" = Py.lower "jane@example.com" /\
  standardize_email (Some "Jane@Example.COM") = "jane@example.com" /\
  is_valid_email (Some "Jane@Example.COM") = true.
Proof.
  assert (Py.lower "Jane@Example.COM" = Py.lower "jane@example.com") as H
    by reflexivity.
  destruct (standardize_email_ignores_case _ _ H) as [H1 H2].
  split; [exact H|]. split.
  - rewrite H1. reflexivity.
  - rewrite H2. reflexivity.
Defined.

(** X3 ([standardize_email]).  A standard form is in lower case and has
    none of the wrapper characters (space, angle brackets, quotes) at
    either end: lowercasing it or stripping the wrappers again leaves
    it as it is. *)
Theorem standardize_email_normal_form (x : cell) :
  Py.lower (standardize_email x) = standardize_email x /\
  Py.strip_chars email_wrappers (standardize_email x) = standardize_email x.
Proof.
  unfold standardize_email, Py.strip_chars. split.
  - rewrite <- strip_by_lower by apply wrapper_lower_char.
    by rewrite lower_idemp.
  - apply strip_by_idemp.
Qed.

(* ------------------------------------------------------------------ *)
(** ** Amounts: where the currency signs stand does not matter *)
(* ------------------------------------------------------------------ *)

Section StripRemove.
Context (p : ascii -> bool) (c : ascii) (Hc : p c = false).

Lemma lstrip_rstrip_comm s :
  Py.lstrip_by p (Py.rstrip_by p s) = Py.rstrip_by p (Py.lstrip_by p s).
Proof.
  induction s as [|a s IH]; [done|].
  cbn [Py.lstrip_by]. destruct (p a) eqn:Ha.
  - rewrite <- IH. cbn [Py.rstrip_by].
    destruct (Py.rstrip_by p s) eqn:Hr; rewrite ?Ha;
      cbn [Py.lstrip_by]; by rewrite ?Ha.
  - cbn [Py.rstrip_by].
    destruct (Py.rstrip_by p s) eqn:Hr; rewrite ?Ha;
      cbn [Py.lstrip_by]; by rewrite ?Ha.
Qed.

Lemma lstrip_remove_lstrip s :
  Py.lstrip_by p (Py.remove_char c (Py.lstrip_by p s))
  = Py.lstrip_by p (Py.remove_char c s).
Proof using Hc.
  induction s as [|a s IH]; [done|].
  cbn [Py.lstrip_by]. destruct (p a) eqn:Ha; [|done].
  rewrite IH. cbn [Py.remove_char].
  destruct (Ascii.eqb a c) eqn:Hac.
  - apply Ascii.eqb_eq in Hac. congruence.
  - cbn [Py.lstrip_by]. by rewrite Ha.
Qed.

Lemma remove_char_cons a s :
  Py.remove_char c (String a s)
  = if Ascii.eqb a c then Py.remove_char c s
    else String a (Py.remove_char c s).
Proof. done. Qed.

Lemma rstrip_by_cons a s :
  Py.rstrip_by p (String a s)
  = match Py.rstrip_by p s with
    | EmptyString => if p a then EmptyString else String a EmptyString
    | r => String a r
    end.
Proof. done. Qed.

Lemma rstrip_remove_rstrip s :
  Py.rstrip_by p (Py.remove_char c (Py.rstrip_by p s))
  = Py.rstrip_by p (Py.remove_char c s).
Proof using Hc.
  induction s as [|a s IH]; [done|].
  rewrite (rstrip_by_cons a s), (remove_char_cons a s).
  destruct (Py.rstrip_by p s) as [|b r] eqn:Hr.
  - change (Py.rstrip_by p (Py.remove_char c EmptyString))
      with EmptyString in IH.
    destruct (Ascii.eqb a c) eqn:Hac.
    + rewrite <- IH. apply Ascii.eqb_eq in Hac as ->.
      rewrite Hc, remove_char_cons, Ascii.eqb_refl. done.
    + rewrite (rstrip_by_cons a (Py.remove_char c s)), <- IH.
      destruct (p a) eqn:Ha; [done|].
      rewrite remove_char_cons, Hac, rstrip_by_cons. simpl. by rewrite Ha.
  - rewrite (remove_char_cons a (String b r)).
    destruct (Ascii.eqb a c) eqn:Hac; [done|].
    rewrite (rstrip_by_cons a (Py.remove_char c (String b r))),
      (rstrip_by_cons a (Py.remove_char c s)).
    by rewrite IH.
Qed.

Lemma strip_remove_strip s :
  Py.strip_by p (Py.remove_char c (Py.strip_by p s))
  = Py.strip_by p (Py.remove_char c s).
Proof using Hc.
  unfold Py.strip_by.
  rewrite <- (lstrip_rstrip_comm (Py.remove_char c _)).
  rewrite rstrip_remove_rstrip.
  rewrite lstrip_rstrip_comm.
  rewrite lstrip_remove_lstrip. done.
Qed.
End StripRemove.

Lemma bare_amount_strip s : bare_amount (Py.strip s) = bare_amount s.
Proof.
  unfold bare_amount, Py.strip.
  rewrite <- (strip_remove_strip Py.isspace "," eq_refl
                (Py.remove_char "$" (Py.strip_by Py.isspace s))).
  rewrite (strip_remove_strip Py.isspace "$" eq_refl s).
  apply (strip_remove_strip Py.isspace "," eq_refl).
Qed.

(** X4 ([parse_currency_to_float]).  The dollar signs and thousands
    separators of an amount are ignored wherever they stand, also
    outside the white space around the number: the number parsed is
    that of the text without them, trimmed; a cell that is NaN or blank
    is no amount. *)
Theorem parse_currency_ignores_signs `{RT : Runtime} (raw : cell) :
  parse_currency_to_float raw
  = match raw with
    | None => None
    | Some s =>
        if bool_decide (Py.strip s = EmptyString) then None
        else py_float (bare_amount s)
    end.
Proof.
  unfold parse_currency_to_float. destruct raw as [s|]; [|done].
  cbn [_clean_str]. case_bool_decide as Hs.
  - by rewrite Hs.
  - apply truthy_true in Hs. rewrite Hs. cbn [negb].
    f_equal. apply bare_amount_strip.
Qed.

(* ------------------------------------------------------------------ *)
(** ** The taxonomy mapping *)
(* ------------------------------------------------------------------ *)

Lemma tag_mapping_loop_lookup data mapping k :
  tag_mapping_loop data mapping !! k
  = match last (filter (fun kv => fst kv = k) (tag_entries data)) with
    | Some kv => Some (snd kv)
    | None => mapping !! k
    end.
Proof.
  revert mapping. induction data as [|row data IH]; intros mapping; [done|].
  cbn [tag_mapping_loop]. unfold tag_entries. cbn [omap list_omap].
  fold (tag_entries data).
  rewrite !clean_str_strip.
  destruct (Py.truthy (_clean_str (tr_name row))) eqn:Hn;
    destruct (Py.truthy (_clean_str (tr_mapped_name row))) eqn:Hm;
    cbn [andb].
  - apply truthy_true in Hn, Hm.
    rewrite bool_decide_eq_true_2 by done.
    rewrite IH, filter_cons. cbn [fst].
    destruct (decide (Py.lower (_clean_str (tr_name row)) = k)) as [<-|Hk].
    + rewrite last_cons.
      destruct (last _); [done|]. by rewrite lookup_insert_eq.
    + destruct (last _); [done|]. by rewrite lookup_insert_ne.
  - apply truthy_false in Hm.
    rewrite bool_decide_eq_false_2 by (intros [_ ?]; done). apply IH.
  - apply truthy_false in Hn.
    rewrite bool_decide_eq_false_2 by (intros [? _]; done). apply IH.
  - apply truthy_false in Hn.
    rewrite bool_decide_eq_false_2 by (intros [? _]; done). apply IH.
Qed.

Lemma elem_of_tag_entries data k v :
  (k, v) ∈ tag_entries data ->
  Py.lower k = k /\ Py.strip k = k /\ k <> EmptyString /\
  Py.strip v = v /\ v <> EmptyString.
Proof.
  unfold tag_entries. intros H.
  apply list_elem_of_omap in H as (row & _ & Hrow).
  case_bool_decide as Hc; [|done]. destruct Hc as [Hn Hm].
  injection Hrow as <- <-.
  split; [apply lower_idemp|]. split.
  { by rewrite strip_lower, clean_str_strip. }
  split; [by apply lower_nonempty|]. split; [apply clean_str_strip|done].
Qed.

Lemma fetch_tag_mapping_lookup response k v :
  fetch_tag_mapping response !! k = Some v ->
  exists data, response = Some data /\ (k, v) ∈ tag_entries data.
Proof.
  destruct response as [data|]; cbn [fetch_tag_mapping].
  - rewrite tag_mapping_loop_lookup.
    destruct (last _) as [kv|] eqn:Hl; [|by rewrite lookup_empty].
    intros [= <-]. exists data. split; [done|].
    apply last_Some in Hl as [l' Hl].
    assert (kv ∈ filter (fun kv => fst kv = k) (tag_entries data)) as Hin.
    { rewrite Hl. apply elem_of_app. right. apply list_elem_of_singleton. done. }
    apply list_elem_of_filter in Hin as [Hk Hin].
    destruct kv as [k' v']. by simplify_eq/=.
  - by rewrite lookup_empty.
Qed.

(** X5 ([fetch_tag_mapping]).  The mapping built from an answer of the
    service holds, for each key, the replacement of the last row of the
    answer that has this key as its lowercased, trimmed name and a
    non-blank replacement: a later row overrides an earlier one, rows
    without a name or without a replacement leave no trace, and a failed
    fetch gives the empty mapping. *)
Theorem fetch_tag_mapping_last_wins (data : list TagRow) (k : string) :
  fetch_tag_mapping (Some data) !! k
  = snd <$> last (filter (fun kv => fst kv = k) (tag_entries data)) /\
  fetch_tag_mapping None = ∅.
Proof.
  split; [|done]. cbn [fetch_tag_mapping].
  rewrite tag_mapping_loop_lookup.
  destruct (last _); [done|]. by rewrite lookup_empty.
Qed.

(** X6 ([fetch_tag_mapping]).  Whatever the service answers, every key
    of the mapping is a non-empty lowercase string without white space
    around it, and every replacement is non-empty and trimmed. *)
Theorem fetch_tag_mapping_normalised (response : option (list TagRow))
    (k v : string) :
  fetch_tag_mapping response !! k = Some v ->
  Py.lower k = k /\ Py.strip k = k /\ k <> EmptyString /\
  Py.strip v = v /\ v <> EmptyString.
Proof.
  intros H. apply fetch_tag_mapping_lookup in H as (data & _ & H).
  by apply elem_of_tag_entries in H.
Qed.

Lemma fetch_tag_mapping_normalised_witness :
  fetch_tag_mapping (Some sample_answer) !! "donor" = Some "Major Donor" /\
  Py.lower "donor" = "donor" /\ Py.strip "Major Donor" = "Major Donor".
Proof.
  assert (fetch_tag_mapping (Some sample_answer) !! "donor"
          = Some "Major Donor") as H by (vm_compute; reflexivity).
  destruct (fetch_tag_mapping_normalised _ _ _ H) as (H1 & _ & _ & H2 & _).
  done.
Defined.

(* ------------------------------------------------------------------ *)
(** ** Tags under a mapping with trimmed names, and without entries *)
(* ------------------------------------------------------------------ *)

Lemma final_tags_strip mapping raw :
  final_tags mapping raw = final_tags_spec Py.strip mapping raw.
Proof.
  unfold final_tags, apply_tag_mapping, final_tags_spec.
  rewrite apply_tag_mapping_loop_seen, seen_loop_dedupe, split_tags_spec.
  do 2 f_equal. apply list_fmap_ext. intros i t Ht.
  apply list_elem_of_lookup_2 in Ht. apply local_tags_stripped in Ht.
  by rewrite Ht.
Qed.

Lemma filter_all {A} (P : A -> Prop) `{forall x, Decision (P x)} (l : list A) :
  (forall x, x ∈ l -> P x) -> filter P l = l.
Proof.
  induction l as [|x l IH]; intros Hl; [done|].
  rewrite filter_cons, decide_True by (apply Hl; left).
  f_equal. apply IH. intros y Hy. apply Hl. by right.
Qed.

Lemma filter_none {A} (P : A -> Prop) `{forall x, Decision (P x)} (l : list A) :
  (forall x, x ∈ l -> ~ P x) -> filter P l = [].
Proof.
  induction l as [|x l IH]; intros Hl; [done|].
  rewrite filter_cons, decide_False by (apply Hl; left).
  apply IH. intros y Hy. apply Hl. by right.
Qed.

Lemma dedupe_by_distinct {A K} `{EqDecision K} (key : A -> K) (l : list A) :
  NoDup (key <$> l) -> dedupe_by key l = l.
Proof.
  induction l as [|x l IH]; intros Hl; [done|].
  rewrite fmap_cons in Hl. apply NoDup_cons in Hl as [Hx Hl].
  cbn [dedupe_by]. rewrite IH by done. f_equal.
  apply filter_all. intros y Hy Heq. apply Hx. rewrite <- Heq.
  apply list_elem_of_fmap. by exists y.
Qed.

Lemma local_tags_nonempty raw t : t ∈ local_tags_spec raw -> t <> EmptyString.
Proof.
  unfold local_tags_spec. intros H. apply elem_of_dedupe_by in H.
  by apply list_elem_of_filter in H as [H _].
Qed.

(** X7 ([fetch_tag_mapping], [apply_tag_mapping]).  With a mapping that
    comes from [fetch_tag_mapping] the cleaning of the mapped name in
    [apply_tag_mapping] never changes anything: the final tags are the
    local tags replaced through the mapping as they stand, without the
    empty ones, de-duplicated without regard to case. *)
Theorem fetched_mapping_needs_no_trim (response : option (list TagRow))
    (raw : cell) :
  final_tags (fetch_tag_mapping response) raw
  = final_tags_spec id (fetch_tag_mapping response) raw.
Proof.
  rewrite final_tags_strip. unfold final_tags_spec.
  do 2 f_equal. apply list_fmap_ext. intros i t Ht.
  apply list_elem_of_lookup_2 in Ht.
  destruct (fetch_tag_mapping response !! Py.lower t) as [v|] eqn:Hv;
    cbn [default id].
  - apply fetch_tag_mapping_lookup in Hv as (data & _ & Hv).
    by apply elem_of_tag_entries in Hv as (_ & _ & _ & Hv & _).
  - by apply local_tags_stripped in Ht.
Qed.

(** X8 ([apply_tag_mapping], [split_tags]).  Tags the mapping has no
    entry for pass through unchanged: when none of the local tags of a
    cell is a key of the mapping, in particular under the empty mapping
    of a run without network, the final tag list is the local tag
    list. *)
Theorem unmapped_tags_pass_through (mapping : gmap string string)
    (raw : cell) :
  (forall t, t ∈ split_tags raw -> mapping !! Py.lower t = None) ->
  final_tags mapping raw = split_tags raw.
Proof.
  intros Hnone. rewrite final_tags_strip. unfold final_tags_spec.
  rewrite split_tags_spec in *.
  assert ((fun t => Py.strip (default t (mapping !! Py.lower t)))
            <$> local_tags_spec raw = local_tags_spec raw) as ->.
  { rewrite <- (list_fmap_id (local_tags_spec raw)) at 2.
    apply list_fmap_ext. intros i t Ht.
    apply list_elem_of_lookup_2 in Ht.
    rewrite (Hnone t Ht). cbn [default id].
    by apply local_tags_stripped in Ht. }
  rewrite filter_all by (intros t; apply local_tags_nonempty).
  apply dedupe_by_distinct. unfold local_tags_spec. apply dedupe_by_NoDup.
Qed.

Lemma unmapped_tags_pass_through_witness :
  (forall t, t ∈ split_tags (Some "Board, board ,Staff") ->
             run_mapping !! Py.lower t = None) /\
  final_tags run_mapping (Some "Board, board ,Staff") = ["Board"; "Staff"].
Proof.
  assert (forall t, t ∈ split_tags (Some "Board, board ,Staff") ->
                    run_mapping !! Py.lower t = None) as H.
  { intros t Ht.
    assert (split_tags (Some "Board, board ,Staff") = ["Board"; "Staff"]) as Hs
      by (vm_compute; reflexivity).
    rewrite Hs in Ht.
    apply elem_of_cons in Ht as [->|Ht]; [vm_compute; reflexivity|].
    apply list_elem_of_singleton in Ht as ->. vm_compute. reflexivity. }
  split; [exact H|].
  rewrite (unmapped_tags_pass_through run_mapping _ H).
  vm_compute. reflexivity.
Defined.

(* ------------------------------------------------------------------ *)
(** ** The addresses the resolver gives out *)
(* ------------------------------------------------------------------ *)

Lemma dict_append_members (P : string -> string -> Prop) pid x d :
  P pid x ->
  (forall k v a, (k, v) ∈ d -> a ∈ v -> P k a) ->
  forall k v a, (k, v) ∈ dict_append pid x d -> a ∈ v -> P k a.
Proof.
  intros Hx. induction d as [|[k0 v0] d IH]; intros Hd k v a Hkv Ha.
  - cbn [dict_append] in Hkv. apply list_elem_of_singleton in Hkv.
    injection Hkv as -> ->. by apply list_elem_of_singleton in Ha as ->.
  - cbn [dict_append] in Hkv. case_bool_decide as Hk0.
    + apply elem_of_cons in Hkv as [Hkv|Hkv].
      * injection Hkv as -> ->. apply elem_of_app in Ha as [Ha|Ha].
        -- apply (Hd k0 v0); [left|done].
        -- apply list_elem_of_singleton in Ha as ->. by subst.
      * apply (Hd k v); [by right|done].
    + apply elem_of_cons in Hkv as [Hkv|Hkv].
      * injection Hkv as -> ->. apply (Hd k0 v0); [left|done].
      * eapply IH; [|exact Hkv|exact Ha].
        intros k' v' a' H1 H2. apply (Hd k' v' a'); [by right|done].
Qed.

Lemma dict_init_members pids k v (a : string) :
  (k, v) ∈ dict_init pids -> a ∈ v -> False.
Proof.
  unfold dict_init. intros H Ha.
  apply list_elem_of_fmap in H as (q & Hq & _). injection Hq as -> ->.
  by apply elem_of_nil in Ha.
Qed.

Lemma add_primary_members (P : string -> string -> Prop) base d :
  (forall r, r ∈ base ->
     Py.truthy (standardize_email (Some (_clean_str (primary_email r)))) = true ->
     is_valid_email
       (Some (standardize_email (Some (_clean_str (primary_email r))))) = true ->
     P (pid_of r) (standardize_email (Some (_clean_str (primary_email r))))) ->
  (forall k v a, (k, v) ∈ d -> a ∈ v -> P k a) ->
  forall k v a, (k, v) ∈ add_primary base d -> a ∈ v -> P k a.
Proof.
  revert d. induction base as [|r base IH]; intros d Hb Hd; [exact Hd|].
  cbn [add_primary].
  assert (forall r', r' ∈ base ->
     Py.truthy (standardize_email (Some (_clean_str (primary_email r')))) = true ->
     is_valid_email
       (Some (standardize_email (Some (_clean_str (primary_email r'))))) = true ->
     P (pid_of r') (standardize_email (Some (_clean_str (primary_email r')))))
    as Hb' by (intros r' Hr'; apply Hb; by right).
  destruct (Py.truthy _) eqn:Ht; cbn [andb]; [|by apply IH].
  destruct (is_valid_email _) eqn:Hv; [|by apply IH].
  apply IH; [exact Hb'|]. apply dict_append_members; [|exact Hd].
  apply Hb; [left|done|done].
Qed.

Lemma add_emails_members (P : string -> string -> Prop) em d :
  (forall x, x ∈ em ->
     Py.truthy (standardize_email (e_email x)) = true ->
     is_valid_email (Some (standardize_email (e_email x))) = true ->
     P (Pd.astype_str (e_patron_id x)) (standardize_email (e_email x))) ->
  (forall k v a, (k, v) ∈ d -> a ∈ v -> P k a) ->
  forall k v a, (k, v) ∈ add_emails em d -> a ∈ v -> P k a.
Proof.
  revert d. induction em as [|x em IH]; intros d Hb Hd; [exact Hd|].
  cbn [add_emails].
  assert (forall x', x' ∈ em ->
     Py.truthy (standardize_email (e_email x')) = true ->
     is_valid_email (Some (standardize_email (e_email x'))) = true ->
     P (Pd.astype_str (e_patron_id x')) (standardize_email (e_email x')))
    as Hb' by (intros x' Hx'; apply Hb; by right).
  destruct (Py.truthy _) eqn:Ht; cbn [negb orb]; [|by apply IH].
  destruct (is_valid_email _) eqn:Hv; cbn [negb]; [|by apply IH].
  apply IH; [exact Hb'|]. apply dict_append_members; [|exact Hd].
  apply Hb; [left|done|done].
Qed.

Lemma email_row_members pid arr a :
  a = ec_email1 (email_row pid arr) \/ a = ec_email2 (email_row pid arr) ->
  a <> EmptyString -> a ∈ arr.
Proof.
  unfold email_row. rewrite uniq_loop_seen, seen_loop_dedupe.
  cbn [ec_email1 ec_email2].
  set (uniq := dedupe_by id arr).
  assert (forall i, a = default EmptyString (uniq !! i) ->
                    a <> EmptyString -> a ∈ arr) as Hu.
  { intros i Hi Ha. destruct (uniq !! i) as [y|] eqn:Hy; cbn in Hi; [|done].
    subst y. apply list_elem_of_lookup_2 in Hy.
    by apply elem_of_dedupe_by in Hy. }
  intros [H|H] Ha.
  - destruct (1 <=? length uniq); [by apply (Hu 0)|done].
  - destruct (_ && _); [|done].
    case_bool_decide; [done|]. by apply (Hu 1).
Qed.

Lemma build_email_columns_sound (c : list Constituent) (em : list EmailRow)
    (e : EmailCols) (a : string) :
  e ∈ build_email_columns c em ->
  a = ec_email1 e \/ a = ec_email2 e -> a <> EmptyString ->
  is_valid_email (Some a) = true /\ address_source c em (ec_pid e) a.
Proof.
  unfold build_email_columns. intros He Ha Hne.
  apply list_elem_of_fmap in He as ([k v] & -> & Hkv). cbn [fst snd] in *.
  apply email_row_members in Ha; [|done].
  change (ec_pid (email_row k v)) with k.
  clear Hne. revert k v a Hkv Ha. unfold candidates.
  apply (add_emails_members
           (fun k a => is_valid_email (Some a) = true
                       /\ address_source c em k a)).
  - intros x Hx Ht Hv. split; [done|]. right. by exists x.
  - apply add_primary_members.
    + intros r Hr Ht Hv. split; [done|]. left. by exists r.
    + intros k v a Hkv Ha. by destruct (dict_init_members _ _ _ _ Hkv Ha).
Qed.

(** X10 ([build_email_columns]).  Whatever the two tables hold, an
    address that the resolver puts into Email 1 or Email 2 is accepted by
    [is_valid_email], and it is the standard form of the primary email
    of a constituent row of that identity or of an entry of that
    identity in the emails table: no address is made up, and none moves
    to another identity. *)
Theorem resolver_addresses_valid (c : list Constituent) (em : list EmailRow)
    (e : EmailCols) (a : string) :
  e ∈ build_email_columns c em ->
  a = ec_email1 e \/ a = ec_email2 e -> a <> EmptyString ->
  is_valid_email (Some a) = true /\ address_source c em (ec_pid e) a.
Proof. apply build_email_columns_sound. Qed.

Lemma resolver_addresses_valid_witness :
  {| ec_pid := "7"; ec_email1 := "jane@example.com";
     ec_email2 := "j.doe@example.org" |}
    ∈ build_email_columns [] email_only_rows /\
  is_valid_email (Some "j.doe@example.org") = true /\
  address_source [] email_only_rows "7" "j.doe@example.org".
Proof.
  assert ({| ec_pid := "7"; ec_email1 := "jane@example.com";
             ec_email2 := "j.doe@example.org" |}
            ∈ build_email_columns [] email_only_rows) as H
    by (vm_compute; left).
  split; [exact H|].
  apply (resolver_addresses_valid [] email_only_rows _ "j.doe@example.org" H).
  - by right.
  - done.
Defined.

(* ------------------------------------------------------------------ *)
(** ** Merges on distinct keys, and the union of the identifiers *)
(* ------------------------------------------------------------------ *)

Lemma merge_left_lookup {A B} (lkey : A -> string) (rkey : B -> string)
    (left : list A) (right : list B) :
  NoDup (rkey <$> right) ->
  Pd.merge_left lkey rkey left right
  = (fun l => (l, find_row rkey (lkey l) right)) <$> left.
Proof.
  intros Hnd. unfold Pd.merge_left, find_row.
  induction left as [|l left IH]; [done|].
  rewrite bind_cons, fmap_cons, IH.
  pose proof (NoDup_group_head rkey (lkey l) right Hnd) as Hg.
  unfold Pd.group in Hg.
  destruct (head (filter (fun r => rkey r = lkey l) right)) as [r|] eqn:Hh;
    rewrite Hg; done.
Qed.

Lemma elem_of_index_union x a b :
  x ∈ Pd.index_union a b <-> x ∈ a \/ x ∈ b.
Proof.
  unfold Pd.index_union.
  destruct (decide (b = [])) as [->|Hb].
  { rewrite bool_decide_eq_true_2 by done. cbn [orb].
    rewrite elem_of_nil. tauto. }
  rewrite (bool_decide_eq_false_2 (b = [])) by done. cbn [orb].
  destruct (decide (a = b)) as [->|Hab].
  { rewrite bool_decide_eq_true_2 by done. tauto. }
  rewrite (bool_decide_eq_false_2 (a = b)) by done.
  destruct (decide (a = [])) as [->|Ha].
  { rewrite bool_decide_eq_true_2 by done. rewrite elem_of_nil. tauto. }
  rewrite (bool_decide_eq_false_2 (a = [])) by done.
  rewrite (elem_of_sort_values String.compare), elem_of_drop_duplicates_id,
    elem_of_app. tauto.
Qed.

Lemma index_union_NoDup a b :
  NoDup a -> NoDup b -> NoDup (Pd.index_union a b).
Proof.
  intros Ha Hb. unfold Pd.index_union.
  destruct (_ || _); [done|]. case_bool_decide; [done|].
  rewrite (sort_values_perm String.compare). apply drop_duplicates_id_NoDup.
Qed.

Lemma sorted_distinct_ascending l :
  StronglySorted (cmp_le String.compare) l -> NoDup l -> strictly_ascending l.
Proof.
  unfold strictly_ascending.
  induction l as [|x l IH]; intros Hs Hnd; [constructor|].
  apply StronglySorted_cons in Hs as [Hx Hs].
  apply NoDup_cons in Hnd as [Hnx Hnd].
  apply StronglySorted_cons. split; [|by apply IH].
  rewrite Forall_forall in Hx |- *. intros y Hy.
  specialize (Hx y Hy). unfold cmp_le in Hx.
  destruct (String.compare x y) eqn:Hc; [|done|done].
  apply String.compare_eq_iff in Hc. by subst.
Qed.

Lemma index_union_ascending a b :
  strictly_ascending a -> a <> [] -> strictly_ascending (Pd.index_union a b).
Proof.
  intros Ha Hne. unfold Pd.index_union.
  destruct (_ || _); [done|]. case_bool_decide; [done|].
  apply sorted_distinct_ascending.
  - apply (sort_values_sorted String.compare).
  - rewrite (sort_values_perm String.compare). apply drop_duplicates_id_NoDup.
Qed.

Lemma nonempty_elem {A} (x : A) (l : list A) : x ∈ l -> l <> [].
Proof. intros H ->. by apply elem_of_nil in H. Qed.

Lemma index_union_nonempty a b : a <> [] -> Pd.index_union a b <> [].
Proof.
  destruct a as [|x a]; [done|]. intros _.
  apply (nonempty_elem x), elem_of_index_union. left. left.
Qed.

Lemma drop_duplicates_from_sorted {A K} `{EqDecision K} (R : A -> A -> Prop)
    (key : A -> K) seen l :
  StronglySorted R l -> StronglySorted R (Pd.drop_duplicates_from key seen l).
Proof.
  revert seen. induction l as [|x l IH]; intros seen Hs; [constructor|].
  apply StronglySorted_cons in Hs as [Hx Hs]. cbn [Pd.drop_duplicates_from].
  case_bool_decide; [by apply IH|].
  apply StronglySorted_cons. split; [|by apply IH].
  rewrite Forall_forall in Hx |- *. intros y Hy. apply Hx.
  by apply elem_of_drop_duplicates_from in Hy as [Hy _].
Qed.

Lemma sorted_fmap {A B} (R : B -> B -> Prop) (f : A -> B) l :
  StronglySorted (fun a b => R (f a) (f b)) l -> StronglySorted R (f <$> l).
Proof.
  induction l as [|x l IH]; intros Hs; [constructor|].
  apply StronglySorted_cons in Hs as [Hx Hs]. csimpl.
  apply StronglySorted_cons. split; [|by apply IH].
  rewrite Forall_forall in Hx. rewrite Forall_forall. intros y Hy.
  apply list_elem_of_fmap in Hy as (z & -> & Hz). by apply Hx.
Qed.

Lemma elem_of_fmap_filter {A} (key : A -> string) k (l : list A) :
  k ∈ key <$> l <-> filter (fun x => key x = k) l <> [].
Proof.
  split.
  - intros H. apply list_elem_of_fmap in H as (x & -> & Hx).
    apply (nonempty_elem x). by apply list_elem_of_filter.
  - intros H. destruct (filter _ l) as [|x f] eqn:Hf; [done|].
    assert (x ∈ filter (fun y => key y = k) l) as Hin by (rewrite Hf; left).
    apply list_elem_of_filter in Hin as [<- Hin].
    apply list_elem_of_fmap. by exists x.
Qed.

Lemma email_columns_pids c em :
  ec_pid <$> build_email_columns c em = fst <$> candidates c em.
Proof.
  unfold build_email_columns. rewrite <- list_fmap_compose.
  apply list_fmap_ext. by intros i [k v] _.
Qed.



Section AssemblyStructure.
Context `{RT : Runtime}.

Lemma dedupe_ascending c :
  strictly_ascending (pid_of <$> dedupe_constituents_latest c).
Proof.
  apply sorted_distinct_ascending; [|apply dedupe_NoDup].
  unfold dedupe_constituents_latest. rewrite <- list_fmap_compose.
  apply sorted_fmap. unfold Pd.drop_duplicates.
  apply drop_duplicates_from_sorted.
  eapply StronglySorted_impl;
    [|apply sort_values_sorted, good_constituents_order].
  intros a b Hab. unfold cmp_le, constituents_order, Pd.cmp_then in *.
  cbn. by destruct (String.compare _ _).
Qed.

Lemma metrics_pids d :
  m_pid <$> build_donation_metrics d
  = if bool_decide (qualifying d = []) then []
    else Pd.group_keys
           ((fst <$> lifetime (qualifying d)) ++ (fst <$> recent (qualifying d))).
Proof.
  unfold build_donation_metrics. case_bool_decide; [done|].
  rewrite <- list_fmap_compose. apply list_fmap_id.
Qed.

Lemma metrics_ascending d :
  strictly_ascending (m_pid <$> build_donation_metrics d).
Proof.
  rewrite metrics_pids. case_bool_decide; [constructor|].
  apply sorted_distinct_ascending; [|apply group_keys_NoDup].
  apply (sort_values_sorted String.compare).
Qed.

Lemma metrics_pids_NoDup d : NoDup (m_pid <$> build_donation_metrics d).
Proof. by destruct (build_donation_metrics_rows d) as (ks & Hnd & _ & -> & _). Qed.

Lemma elem_of_metrics_pids d k :
  k ∈ m_pid <$> build_donation_metrics d <-> k ∈ q_pid <$> qualifying d.
Proof.
  destruct (build_donation_metrics_rows d) as (ks & _ & Hk & -> & _). apply Hk.
Qed.

Lemma transform_rows c0 em d mapping out T :
  transform c0 em d mapping = Some (out, T) ->
  out = assembled c0 em d mapping
        <$> Pd.index_union
              (Pd.index_union
                 (pid_of <$> dedupe_constituents_latest c0)
                 (ec_pid <$> build_email_columns
                               (dedupe_constituents_latest c0) em))
              (m_pid <$> build_donation_metrics d).
Proof.
  unfold transform. cbv zeta. case_bool_decide as He; [done|].
  intros H. injection H as <- _.
  rewrite (merge_left_lookup id pid_of) by apply dedupe_NoDup.
  rewrite (merge_left_lookup k_id ec_pid)
    by (rewrite email_columns_pids; apply candidates_NoDup).
  rewrite (merge_left_lookup (fun r => k_id (fst r)) m_pid)
    by apply metrics_pids_NoDup.
  rewrite <- !list_fmap_compose. apply list_fmap_ext. by intros i id _.
Qed.

Lemma transform_ids c0 em d mapping out T :
  transform c0 em d mapping = Some (out, T) ->
  cb_id <$> out
  = Pd.index_union
      (Pd.index_union
         (pid_of <$> dedupe_constituents_latest c0)
         (ec_pid <$> build_email_columns (dedupe_constituents_latest c0) em))
      (m_pid <$> build_donation_metrics d).
Proof.
  intros H. rewrite (transform_rows _ _ _ _ _ _ H) at 1.
  rewrite <- list_fmap_compose. apply list_fmap_id.
Qed.



(** X15 ([transform]).  Each output row is assembled from the three
    tables by its identifier alone: its columns are computed from the
    canonical constituent row of the identity, from its row of the
    resolver and from its row of the donation metrics, each where there
    is one, with the blanks of the left merges where there is none.  No
    row mixes the data of two identities. *)
Theorem transform_row_assembled (c0 : list Constituent)
    (em : list EmailRow) (d : Donations) (mapping : gmap string string)
    (out : list OutRow) (T : Frame) (row : OutRow) :
  transform c0 em d mapping = Some (out, T) ->
  row ∈ out ->
  row = assembled c0 em d mapping (cb_id row).
Proof.
  intros H Hrow. rewrite (transform_rows _ _ _ _ _ _ H) in Hrow.
  apply list_elem_of_fmap in Hrow as (id & -> & _). done.
Qed.

(** X16 ([transform]).  When the constituents table has at least one
    row, the output rows stand in strictly ascending order of their CB
    Constituent ID, compared as strings: the union of the identifiers
    sorts them. *)
Theorem transform_rows_ascending (c0 : list Constituent)
    (em : list EmailRow) (d : Donations) (mapping : gmap string string)
    (out : list OutRow) (T : Frame) :
  transform c0 em d mapping = Some (out, T) ->
  c0 <> [] ->
  strictly_ascending (cb_id <$> out).
Proof.
  intros H Hc0. rewrite (transform_ids _ _ _ _ _ _ H).
  assert (pid_of <$> dedupe_constituents_latest c0 <> []) as Hne.
  { destruct c0 as [|r c0]; [done|].
    apply (nonempty_elem (pid_of r)), dedupe_keys. csimpl. left. }
  apply index_union_ascending; [|by apply index_union_nonempty].
  apply index_union_ascending; [apply dedupe_ascending|done].
Qed.

(** X11 ([dedupe_constituents_latest]).  The canonical table holds the
    identities of the input table, each once, in strictly ascending
    order of the Patron ID compared as a string, whatever the order of
    the input rows. *)
Theorem canonical_table_ascending (c0 : list Constituent) :
  strictly_ascending (pid_of <$> dedupe_constituents_latest c0) /\
  forall k, k ∈ pid_of <$> dedupe_constituents_latest c0 <-> k ∈ pid_of <$> c0.
Proof. split; [apply dedupe_ascending | intros k; apply dedupe_keys]. Qed.

(** X12 ([build_donation_metrics]).  The metrics table has one row for
    each identity with a contributing donation and for no other, in
    strictly ascending order of the Patron ID compared as a string. *)
Theorem metrics_table_ascending (d : Donations) :
  strictly_ascending (m_pid <$> build_donation_metrics d) /\
  forall k, k ∈ m_pid <$> build_donation_metrics d
            <-> k ∈ q_pid <$> qualifying d.
Proof. split; [apply metrics_ascending | intros k; apply elem_of_metrics_pids]. Qed.

Lemma find_row_None {A} (key : A -> string) k (l : list A) :
  k ∉ key <$> l -> find_row key k l = None.
Proof.
  intros H. unfold find_row. destruct (filter _ l) eqn:Hf; [done|].
  exfalso. apply H, elem_of_fmap_filter. by rewrite Hf.
Qed.

Lemma sorted_head_most_recent d k :
  GoodCmp num_compare ->
  k ∈ q_pid <$> qualifying d ->
  exists q,
    head (Pd.group q_pid k (Pd.sort_values donations_order (qualifying d)))
    = Some q
    /\ q_pid q = k /\ most_recent d q.
Proof.
  intros Hnum Hk.
  assert (StronglySorted (cmp_le donations_order)
            (Pd.sort_values donations_order (qualifying d))) as Hs
    by apply sort_values_sorted, good_donations_order, Hnum.
  destruct (head (Pd.group q_pid k
                    (Pd.sort_values donations_order (qualifying d))))
    as [q|] eqn:Hhead.
  2:{ exfalso. apply list_elem_of_fmap in Hk as (q & -> & Hq).
      apply (proj2 (elem_of_sort_values donations_order q _)) in Hq.
      destruct (group_nonempty q_pid q _ Hq) as [q0 Hq0]. congruence. }
  destruct (sorted_group_head donations_order
              (GoodCmp0 := good_donations_order Hnum)
              q_pid k _ q Hs Hhead) as (Hkey & Hin & Hmin).
  exists q. split; [done|]. split; [exact Hkey|]. split.
  { by apply (proj1 (elem_of_sort_values donations_order q _)) in Hin. }
  intros q' Hq' Hk'.
  assert (cmp_le donations_order q q') as Hle.
  { apply Hmin; [|congruence].
    by apply (proj2 (elem_of_sort_values donations_order q' _)). }
  unfold cmp_le, donations_order, Pd.desc in Hle.
  rewrite Hk', string_compare_refl in Hle. simpl in Hle.
  destruct (Z.compare_spec (q_date q') (q_date q)) as [He|Hlt|Hgt];
    simpl in Hle.
  - right. by split.
  - by left.
  - congruence.
Qed.

(** X17 ([transform]).  An identity that is known from the emails or
    the donations table only, without a row in the constituents table,
    comes out as a person with the placeholder names Unknown and
    Unknown-<id>, and with an empty company name, creation date, title,
    tag list and background information. *)
Theorem identity_without_constituent_row (c0 : list Constituent)
    (em : list EmailRow) (d : Donations) (mapping : gmap string string)
    (out : list OutRow) (T : Frame) (row : OutRow) :
  transform c0 em d mapping = Some (out, T) ->
  row ∈ out ->
  cb_id row ∉ pid_of <$> c0 ->
  cb_type row = Person /\
  cb_first_name row = "Unknown" /\
  cb_last_name row = "Unknown-" +:+ cb_id row /\
  cb_company_name row = EmptyString /\
  cb_created_at row = EmptyString /\
  cb_title row = EmptyString /\
  cb_tags row = EmptyString /\
  cb_background row = EmptyString.
Proof.
  intros H Hrow. rewrite (transform_rows _ _ _ _ _ _ H) in Hrow.
  apply list_elem_of_fmap in Hrow as (id & -> & _).
  change (cb_id (assembled c0 em d mapping id)) with id.
  intros Hid. unfold assembled.
  rewrite (find_row_None pid_of) by (by rewrite dedupe_keys).
  repeat split; reflexivity.
Qed.

(** X18 ([transform], [build_donation_metrics]).  The three donation
    columns of an output row are those of its own identity: blank when
    the identity has no contributing donation (none at all, or only
    donations that are not paid or do not parse), and otherwise the
    rendered sum of its contributing amounts and the calendar day and
    the amount of its most recent contributing row: a row of the latest
    parsed timestamp, the time of day included, and of the largest
    amount among the rows of that very timestamp. *)
Theorem donation_columns_of_row (c0 : list Constituent)
    (em : list EmailRow) (d : Donations) (mapping : gmap string string)
    (out : list OutRow) (T : Frame) (row : OutRow) :
  GoodCmp num_compare ->
  transform c0 em d mapping = Some (out, T) ->
  row ∈ out ->
  (cb_id row ∉ q_pid <$> qualifying d ->
   cb_lifetime row = EmptyString /\ cb_recent_date row = EmptyString
   /\ cb_recent_amount row = EmptyString) /\
  (cb_id row ∈ q_pid <$> qualifying d ->
   cb_lifetime row = format_currency (series_sum (amounts_of d (cb_id row)))
   /\ exists q,
        q_pid q = cb_id row /\ most_recent d q /\
        cb_recent_date row = isoformat (q_date q) /\
        cb_recent_amount row = format_currency (Some (q_amount q))).
Proof.
  intros Hnum H Hrow. rewrite (transform_rows _ _ _ _ _ _ H) in Hrow.
  apply list_elem_of_fmap in Hrow as (id & -> & _).
  change (cb_id (assembled c0 em d mapping id)) with id.
  unfold assembled, out_row.
  cbn [cb_lifetime cb_recent_date cb_recent_amount fst snd].
  unfold find_row. rewrite build_donation_metrics_group.
  split; intros Hk.
  - by rewrite decide_False.
  - rewrite decide_True by done.
    cbn [head fmap option_fmap option_map Pd.fillna_empty
         m_lifetime m_recent_date m_recent_amount].
    split; [done|].
    destruct (sorted_head_most_recent d id Hnum Hk) as (q & -> & Hq & Hrec).
    by exists q.
Qed.

End AssemblyStructure.




Lemma transform_row_assembled_witness :
  transform (RT := Sample.runtime) run_constituents run_emails
    settled_and_refunded run_mapping
  = Some (fst run_result, snd run_result) /\
  run_company ∈ fst run_result /\
  run_company
  = assembled (RT := Sample.runtime) run_constituents run_emails
      settled_and_refunded run_mapping "3".
Proof.
  assert (transform (RT := Sample.runtime) run_constituents run_emails
            settled_and_refunded run_mapping
          = Some (fst run_result, snd run_result)) as H
    by (vm_compute; reflexivity).
  assert (run_company ∈ fst run_result) as Hin
    by (vm_compute; right; right; left).
  split; [exact H|]. split; [exact Hin|].
  exact (transform_row_assembled _ _ _ _ _ _ _ H Hin).
Defined.

Lemma transform_rows_ascending_witness :
  transform (RT := Sample.runtime) run_constituents run_emails
    settled_and_refunded run_mapping
  = Some (fst run_result, snd run_result) /\
  run_constituents <> [] /\
  strictly_ascending (cb_id <$> fst run_result).
Proof.
  assert (transform (RT := Sample.runtime) run_constituents run_emails
            settled_and_refunded run_mapping
          = Some (fst run_result, snd run_result)) as H
    by (vm_compute; reflexivity).
  assert (run_constituents <> []) as Hne by done.
  split; [exact H|]. split; [exact Hne|].
  exact (transform_rows_ascending _ _ _ _ _ _ H Hne).
Defined.

Lemma identity_without_constituent_row_witness :
  transform (RT := Sample.runtime) run_constituents run_emails
    settled_and_refunded run_mapping
  = Some (fst run_result, snd run_result) /\
  default run_person (fst run_result !! 1) ∈ fst run_result /\
  (cb_id (default run_person (fst run_result !! 1))
     ∉ (pid_of <$> run_constituents)) /\
  cb_id (default run_person (fst run_result !! 1)) = "2" /\
  cb_last_name (default run_person (fst run_result !! 1)) = "Unknown-2".
Proof.
  assert (transform (RT := Sample.runtime) run_constituents run_emails
            settled_and_refunded run_mapping
          = Some (fst run_result, snd run_result)) as H
    by (vm_compute; reflexivity).
  assert (default run_person (fst run_result !! 1) ∈ fst run_result) as Hin
    by (vm_compute; right; left).
  assert (cb_id (default run_person (fst run_result !! 1))
            ∉ pid_of <$> run_constituents) as Hid.
  { vm_compute. intros Hx. repeat (apply elem_of_cons in Hx as [Hx|Hx]; [discriminate|]).
    by apply elem_of_nil in Hx. }
  split; [exact H|]. split; [exact Hin|]. split; [exact Hid|].
  destruct (identity_without_constituent_row _ _ _ _ _ _ _ H Hin Hid)
    as (_ & _ & Hlast & _).
  split; [reflexivity|]. rewrite Hlast. reflexivity.
Defined.

Lemma donation_columns_of_row_witness :
  GoodCmp (num_compare (Runtime := Sample.runtime)) /\
  transform (RT := Sample.runtime) run_constituents run_emails
    settled_and_refunded run_mapping
  = Some (fst run_result, snd run_result) /\
  run_company ∈ fst run_result /\
  (cb_id run_company
     ∉ (q_pid <$> qualifying (RT := Sample.runtime) settled_and_refunded)) /\
  cb_lifetime run_company = EmptyString.
Proof.
  assert (GoodCmp (num_compare (Runtime := Sample.runtime))) as Hnum
    by exact good_cmp_Z.
  assert (transform (RT := Sample.runtime) run_constituents run_emails
            settled_and_refunded run_mapping
          = Some (fst run_result, snd run_result)) as H
    by (vm_compute; reflexivity).
  assert (run_company ∈ fst run_result) as Hin
    by (vm_compute; right; right; left).
  assert (cb_id run_company
            ∉ (q_pid <$> qualifying (RT := Sample.runtime)
                           settled_and_refunded)) as Hk.
  { vm_compute. intros Hx.
    apply elem_of_cons in Hx as [Hx|Hx]; [discriminate|].
    by apply elem_of_nil in Hx. }
  split; [exact Hnum|]. split; [exact H|]. split; [exact Hin|].
  split; [exact Hk|].
  destruct (donation_columns_of_row _ _ _ _ _ _ _ Hnum H Hin) as [Hblank _].
  by destruct (Hblank Hk).
Defined.

(* ------------------------------------------------------------------ *)
(** ** The validators *)
(* ------------------------------------------------------------------ *)

Lemma filter_nil_iff {A} (P : A -> Prop) `{forall x, Decision (P x)}
    (l : list A) :
  filter P l = [] <-> forall x, x ∈ l -> ~ P x.
Proof.
  split; [|apply filter_none].
  intros Hf x Hx HP. apply (nonempty_elem x (filter P l)); [|done].
  by apply list_elem_of_filter.
Qed.

Lemma filter_fmap_nil {A B} (P : B -> Prop) `{forall x, Decision (P x)}
    (f : A -> B) (l : list A) :
  filter P (f <$> l) = [] <-> forall x, x ∈ l -> ~ P (f x).
Proof.
  rewrite filter_nil_iff. split.
  - intros Hf x Hx. apply Hf, list_elem_of_fmap. by exists x.
  - intros Hf y Hy. apply list_elem_of_fmap in Hy as (x & -> & Hx). by apply Hf.
Qed.

Section ValidateTags.
Context `{RT : Runtime}.

Lemma validate_tags_nil_iff (df : Frame) :
  validate_tags df = [] <->
  frame_empty df = true \/
  ("CB Tag Name" ∈ columns df /\ "CB Tag Count" ∈ columns df /\
   forall v, v ∈ column_values "CB Tag Count" df -> not_numeric v = false).
Proof.
  unfold validate_tags. destruct (frame_empty df) eqn:He.
  { split; [by left|done]. }
  assert (mbind
            (fun col => if bool_decide (col ∈ columns df) then []
                        else ["Missing required column: " +:+ col])
            tags_columns
          = (if bool_decide ("CB Tag Name" ∈ columns df) then []
             else ["Missing required column: CB Tag Name"])
            ++ (if bool_decide ("CB Tag Count" ∈ columns df) then []
                else ["Missing required column: CB Tag Count"])) as ->.
  { unfold tags_columns. rewrite !bind_cons.
    change (mbind _ (@nil string)) with (@nil string).
    by rewrite app_nil_r. }
  destruct (decide ("CB Tag Name" ∈ columns df)) as [Hn|Hn];
    destruct (decide ("CB Tag Count" ∈ columns df)) as [Hc|Hc].
  - rewrite !bool_decide_eq_true_2 by done. cbn [app].
    destruct (filter _ _) as [|v bad] eqn:Hbad; cbn [length Nat.eqb negb].
    + split; [intros _; right|done]. split; [done|]. split; [done|].
      intros v Hv. rewrite filter_nil_iff in Hbad.
      specialize (Hbad v Hv). by destruct (not_numeric v).
    + split; [done|]. intros [?|(_ & _ & Hall)]; [done|]. exfalso.
      assert (v ∈ filter (fun v => not_numeric v = true)
                    (column_values "CB Tag Count" df)) as Hin
        by (rewrite Hbad; left).
      apply list_elem_of_filter in Hin as [Hv Hin].
      rewrite (Hall v Hin) in Hv. done.
  - rewrite (bool_decide_eq_true_2 ("CB Tag Name" ∈ columns df)) by done.
    rewrite (bool_decide_eq_false_2 ("CB Tag Count" ∈ columns df)) by done.
    split; [done|]. by intros [?|(_ & ? & _)].
  - rewrite (bool_decide_eq_false_2 ("CB Tag Name" ∈ columns df)) by done.
    rewrite (bool_decide_eq_true_2 ("CB Tag Count" ∈ columns df)) by done.
    split; [|by intros [?|(? & _)]].
    by destruct (negb _).
  - rewrite !bool_decide_eq_false_2 by done.
    split; [done|]. by intros [?|(? & _)].
Qed.

(** X21 ([validate_tags]).  [validate_tags] reports nothing exactly when
    the table is empty, or has both required columns and a number in
    every cell of the count column; whatever else the table holds is not
    looked at. *)
Theorem validate_tags_passes_iff (df : Frame) :
  validate_tags df = [] <->
  frame_empty df = true \/
  ("CB Tag Name" ∈ columns df /\ "CB Tag Count" ∈ columns df /\
   forall v, v ∈ column_values "CB Tag Count" df -> not_numeric v = false).
Proof. apply validate_tags_nil_iff. Qed.

Lemma validate_tags_tags_table mapping c :
  validate_tags (tags_table mapping c) = [].
Proof.
  apply validate_tags_nil_iff. right.
  assert (columns (tags_table mapping c) = tags_columns) as Hcols
    by (unfold tags_table; by case_bool_decide).
  rewrite Hcols. split; [left|]. split; [right; left|].
  unfold column_values. rewrite Hcols.
  assert (list_find (fun c => c = "CB Tag Count") tags_columns
          = Some (1, "CB Tag Count")) as -> by (vm_compute; reflexivity).
  intros v Hv. apply list_elem_of_fmap in Hv as (r & -> & Hr).
  unfold tags_table in Hr. case_bool_decide; cbn [records] in Hr.
  - by apply elem_of_nil in Hr.
  - by apply list_elem_of_fmap in Hr as (tc & -> & _).
Qed.

(** X23 ([transform], [validate_tags]).  The tags table of every run
    that returns passes [validate_tags]: both columns are there and
    every count is a number. *)
Theorem transform_tags_pass_validation (c0 : list Constituent)
    (em : list EmailRow) (d : Donations) (mapping : gmap string string)
    (out : list OutRow) (T : Frame) :
  transform c0 em d mapping = Some (out, T) -> validate_tags T = [].
Proof.
  intros H. rewrite (transform_tags _ _ _ _ _ _ H).
  apply validate_tags_tags_table.
Qed.

End ValidateTags.

Lemma transform_tags_pass_validation_witness :
  transform (RT := Sample.runtime) run_constituents run_emails
    settled_and_refunded run_mapping
  = Some (fst run_result, snd run_result) /\
  validate_tags (RT := Sample.runtime) (snd run_result) = [].
Proof.
  assert (transform (RT := Sample.runtime) run_constituents run_emails
            settled_and_refunded run_mapping
          = Some (fst run_result, snd run_result)) as H
    by (vm_compute; reflexivity).
  split; [exact H|].
  exact (transform_tags_pass_validation _ _ _ _ _ _ H).
Defined.

Section ValidFrame.
Context (out : list OutRow).

Lemma cell_type r :
  cell_at (constituents_frame out) "CB Constituent Type" (constituents_record r)
  = VStr (type_name (cb_type r)).
Proof. reflexivity. Qed.

Lemma cell_first r :
  cell_at (constituents_frame out) "CB First Name" (constituents_record r)
  = VStr (cb_first_name r).
Proof. reflexivity. Qed.

Lemma cell_last r :
  cell_at (constituents_frame out) "CB Last Name" (constituents_record r)
  = VStr (cb_last_name r).
Proof. reflexivity. Qed.

Lemma cell_company r :
  cell_at (constituents_frame out) "CB Company Name" (constituents_record r)
  = VStr (cb_company_name r).
Proof. reflexivity. Qed.

Lemma cell_title r :
  cell_at (constituents_frame out) "CB Title" (constituents_record r)
  = VStr (cb_title r).
Proof. reflexivity. Qed.

Lemma email1_at r :
  email_at (constituents_frame out) "CB Email 1 (Standardized)"
    (constituents_record r)
  = Pd.fillna_empty (cb_email1 r).
Proof.
  unfold email_at.
  change (cell_at _ _ _) with (cell_value (cb_email1 r)).
  by destruct (cb_email1 r).
Qed.

Lemma email2_at r :
  email_at (constituents_frame out) "CB Email 2 (Standardized)"
    (constituents_record r)
  = Pd.fillna_empty (cb_email2 r).
Proof.
  unfold email_at.
  change (cell_at _ _ _) with (cell_value (cb_email2 r)).
  by destruct (cb_email2 r).
Qed.

Lemma type_name_person t : VStr (type_name t) = VStr "Person" <-> t = Person.
Proof. by destruct t. Qed.

Lemma type_name_company t : VStr (type_name t) = VStr "Company" <-> t = Company.
Proof. by destruct t. Qed.

Lemma selection_empty_frame bad :
  selection_empty (constituents_frame out) bad = true <-> bad = [].
Proof. by destruct bad. Qed.

Lemma issue_if_nil (b : bool) (x : issue) :
  (if negb b then [x] else []) = [] <-> b = true.
Proof. by destruct b. Qed.

Lemma examples_nil {A} (l : list A) (x : issue) :
  match l with [] => [] | _ :: _ => [x] end = [] <-> l = [].
Proof. by destruct l. Qed.

Lemma eqb_empty_true s : String.eqb s EmptyString = true <-> s = EmptyString.
Proof. apply String.eqb_eq. Qed.

Lemma missing_columns_frame : missing_columns (constituents_frame out) = [].
Proof. reflexivity. Qed.

Lemma type_issues_frame : type_issues (constituents_frame out) = [].
Proof.
  unfold type_issues. cbv zeta.
  rewrite filter_none; [by destruct (has_column _ _)|].
  intros x Hx Hbad. cbn [records constituents_frame] in Hx.
  apply list_elem_of_fmap in Hx as (r & -> & _).
  rewrite cell_type in Hbad. destruct (cb_type r); by vm_compute in Hbad.
Qed.

Lemma name_issues_frame :
  name_issues (constituents_frame out) = [] <->
  forall r, r ∈ out ->
    (cb_type r = Person ->
     Py.strip (cb_first_name r) <> EmptyString
     /\ Py.strip (cb_last_name r) <> EmptyString) /\
    (cb_type r = Company -> Py.strip (cb_company_name r) <> EmptyString).
Proof.
  unfold name_issues.
  assert (forallb (has_column (constituents_frame out))
            ["CB Constituent Type"; "CB First Name"; "CB Last Name";
             "CB Company Name"] = true) as -> by reflexivity.
  cbv zeta. rewrite app_nil, !issue_if_nil, !selection_empty_frame.
  rewrite !list_filter_filter. cbn [records constituents_frame].
  rewrite !filter_fmap_nil. split.
  - intros [Hp Hc] r Hr. split.
    + intros Ht. split; intros Hs; apply (Hp r Hr);
        (split; [|by rewrite cell_type, Ht]);
        unfold blank_at; rewrite cell_first, cell_last;
        cbn [fillna_value str_strip]; rewrite Hs.
      * by rewrite bool_decide_eq_true_2.
      * rewrite (bool_decide_eq_true_2 (VStr EmptyString = VStr EmptyString))
          by done.
        apply orb_true_r.
    + intros Ht Hs. apply (Hc r Hr). split; [|by rewrite cell_type, Ht].
      unfold blank_at. rewrite cell_company. cbn [fillna_value str_strip].
      rewrite Hs. by rewrite bool_decide_eq_true_2.
  - intros Hall. split; intros r Hr [Hb Ht]; rewrite cell_type in Ht;
      destruct (Hall r Hr) as [Hp Hc]; unfold blank_at in Hb.
    + apply type_name_person in Ht. destruct (Hp Ht) as [Hf Hl].
      rewrite cell_first, cell_last in Hb. cbn [fillna_value str_strip] in Hb.
      apply orb_true_iff in Hb as [Hb|Hb]; apply bool_decide_eq_true in Hb;
        injection Hb as Hb; done.
    + apply type_name_company in Ht. specialize (Hc Ht).
      rewrite cell_company in Hb. cbn [fillna_value str_strip] in Hb.
      apply bool_decide_eq_true in Hb. injection Hb as Hb. done.
Qed.

Lemma invalid_emails_nil c :
  invalid_emails (constituents_frame out) c = [] <->
  forall r, r ∈ out ->
    Py.strip (email_at (constituents_frame out) c (constituents_record r))
      <> EmptyString ->
    is_valid_email
      (Some (email_at (constituents_frame out) c (constituents_record r)))
    = true.
Proof.
  unfold invalid_emails. rewrite filter_nil_iff.
  cbn [records constituents_frame]. split.
  - intros Hf r Hr Hs.
    destruct (is_valid_email _) eqn:Hv; [done|]. exfalso.
    apply (Hf (email_at (constituents_frame out) c (constituents_record r))).
    + apply elem_of_drop_duplicates_id, list_elem_of_fmap.
      exists (constituents_record r). split; [done|].
      apply list_elem_of_fmap. by exists r.
    + rewrite Hv. apply truthy_true in Hs. by rewrite Hs.
  - intros Hall x Hx Hbad.
    apply elem_of_drop_duplicates_id, list_elem_of_fmap in Hx
      as (rec & -> & Hrec).
    apply list_elem_of_fmap in Hrec as (r & -> & Hr).
    apply andb_true_iff in Hbad as [Hs Hv]. apply truthy_true in Hs.
    rewrite (Hall r Hr Hs) in Hv. done.
Qed.

Lemma email_issues_frame :
  email_issues (constituents_frame out) = [] <->
  forall r, r ∈ out ->
    let e1 := Pd.fillna_empty (cb_email1 r) in
    let e2 := Pd.fillna_empty (cb_email2 r) in
    (Py.strip e1 = EmptyString -> Py.strip e2 = EmptyString) /\
    (Py.strip e1 <> EmptyString -> e1 <> e2) /\
    (forall e, e = e1 \/ e = e2 -> Py.strip e <> EmptyString ->
               is_valid_email (Some e) = true).
Proof.
  unfold email_issues.
  assert (has_column (constituents_frame out) "CB Email 1 (Standardized)"
          && has_column (constituents_frame out) "CB Email 2 (Standardized)"
          = true) as -> by reflexivity.
  cbv zeta. rewrite !app_nil, !issue_if_nil, !selection_empty_frame.
  rewrite !examples_nil, !invalid_emails_nil.
  cbn [records constituents_frame]. rewrite !filter_fmap_nil.
  split.
  - intros (H2 & Hsame & Hv1 & Hv2) r Hr. cbv zeta.
    specialize (H2 r Hr). specialize (Hsame r Hr).
    specialize (Hv1 r Hr). specialize (Hv2 r Hr).
    rewrite email1_at, ?email2_at in *. split; [|split].
    + intros Hs. destruct (decide (Py.strip (Pd.fillna_empty (cb_email2 r))
                                   = EmptyString)) as [|Hne]; [done|].
      exfalso. apply H2. apply andb_true_iff. split.
      * by apply String.eqb_eq.
      * apply negb_true_iff. by apply String.eqb_neq.
    + intros Hs Heq. apply Hsame. apply andb_true_iff. split.
      * apply negb_true_iff. by apply String.eqb_neq.
      * by apply String.eqb_eq.
    + intros e [->| ->]; [apply Hv1 | apply Hv2].
  - intros Hall. repeat split; intros r Hr; specialize (Hall r Hr);
      cbv zeta in Hall; destruct Hall as (H2 & Hsame & Hv);
      rewrite ?email1_at, ?email2_at.
    + intros Hbad. apply andb_true_iff in Hbad as [Hs Hne].
      apply String.eqb_eq in Hs. apply negb_true_iff, String.eqb_neq in Hne.
      by apply Hne, H2.
    + intros Hbad. apply andb_true_iff in Hbad as [Hs Heq].
      apply negb_true_iff, String.eqb_neq in Hs. apply String.eqb_eq in Heq.
      by apply (Hsame Hs).
    + apply Hv. by left.
    + apply Hv. by right.
Qed.

Lemma title_issues_frame :
  title_issues (constituents_frame out) = [] <->
  forall r, r ∈ out -> VStr (cb_title r) ∈ allowed_titles.
Proof.
  unfold title_issues.
  assert (has_column (constituents_frame out) "CB Title" = true) as ->
    by reflexivity.
  cbv zeta. rewrite issue_if_nil, selection_empty_frame.
  cbn [records constituents_frame]. rewrite filter_fmap_nil.
  split.
  - intros Hf r Hr. specialize (Hf r Hr). rewrite cell_title in Hf.
    cbn [fillna_value] in Hf. unfold isin in Hf.
    apply not_false_is_true, bool_decide_eq_true in Hf. done.
  - intros Hall r Hr. rewrite cell_title. cbn [fillna_value]. unfold isin.
    rewrite bool_decide_eq_true_2 by (by apply Hall). done.
Qed.

Lemma validate_constituents_frame :
  validate_constituents (constituents_frame out) = [] <->
  forall r, r ∈ out -> valid_row r.
Proof.
  unfold validate_constituents.
  rewrite missing_columns_frame, type_issues_frame. cbn [app].
  rewrite !app_nil, name_issues_frame, email_issues_frame, title_issues_frame.
  unfold valid_row. cbv zeta. split.
  - intros (Hn & He & Ht) r Hr.
    destruct (Hn r Hr) as [Hp Hc]. destruct (He r Hr) as (H2 & Hs & Hv).
    split; [exact Hp|]. split; [exact Hc|]. split; [exact H2|].
    split; [exact Hs|]. split; [exact Hv|]. by apply Ht.
  - intros Hall. split; [|split]; intros r Hr;
      destruct (Hall r Hr) as (Hp & Hc & H2 & Hs & Hv & Ht).
    + split; [exact Hp|exact Hc].
    + split; [exact H2|]. split; [exact Hs|exact Hv].
    + exact Ht.
Qed.

End ValidFrame.

(* ------------------------------------------------------------------ *)
(** ** The validator on any table of texts *)
(* ------------------------------------------------------------------ *)

Lemma bind_nil_iff {A B} (f : A -> list B) (l : list A) :
  l ≫= f = [] <-> forall x, x ∈ l -> f x = [].
Proof.
  induction l as [|a l IH].
  - split; [|done]. intros _ x Hx. by apply elem_of_nil in Hx.
  - rewrite bind_cons, app_nil, IH. split.
    + intros [Ha Hl] x Hx. apply elem_of_cons in Hx as [->|Hx]; auto.
    + intros H. split; [apply H; left|]. intros x Hx. apply H. by right.
Qed.

Lemma missing_columns_nil df :
  missing_columns df = [] <-> forall c, c ∈ required_cols -> c ∈ columns df.
Proof.
  unfold missing_columns. rewrite bind_nil_iff.
  split; intros H c Hc; specialize (H c Hc); unfold has_column in *.
  - destruct (decide (c ∈ columns df)) as [|Hn]; [done|].
    by rewrite (bool_decide_eq_false_2 _ Hn) in H.
  - by rewrite (bool_decide_eq_true_2 _ H).
Qed.

Section AnyFrame.
Context (df : Frame).
Hypothesis Hreq : forall c, c ∈ required_cols -> c ∈ columns df.
Hypothesis Htext : text_frame df.

Lemma has_required c : c ∈ required_cols -> has_column df c = true.
Proof. intros Hc. unfold has_column. by apply bool_decide_eq_true_2, Hreq. Qed.

Lemma selection_empty_df bad : selection_empty df bad = true <-> bad = [].
Proof.
  unfold selection_empty, frame_empty. cbn [columns records].
  assert ("CB Title" ∈ columns df) as Hc by (apply Hreq; compute_done).
  destruct (columns df) as [|c cs]; [by apply elem_of_nil in Hc|].
  destruct bad; cbn; split; done.
Qed.

(** On a string, the blank test of the name columns and the one of the
    address columns agree. *)
Lemma blank_at_text c r :
  r ∈ records df -> c ∈ name_columns -> c ∈ columns df ->
  blank_at df c r = true <-> Py.strip (email_at df c r) = EmptyString.
Proof.
  intros Hr Hc Hin. destruct Htext as (_ & _ & Hrows).
  destruct (Hrows r Hr) as [_ Hnames].
  destruct (Hnames c Hc Hin) as [s Hs].
  unfold blank_at, email_at. rewrite Hs.
  cbn [fillna_value str_strip astype_str_value].
  rewrite bool_decide_eq_true. split; [by intros [= H]|].
  intros H. by rewrite H.
Qed.

Lemma type_issues_nil :
  type_issues df = [] <->
  forall r, r ∈ records df ->
    cell_at df "CB Constituent Type" r = VStr "Person"
    \/ cell_at df "CB Constituent Type" r = VStr "Company".
Proof.
  unfold type_issues. rewrite has_required by compute_done. cbv zeta.
  rewrite issue_if_nil, selection_empty_df, filter_nil_iff.
  split; intros H r Hr; specialize (H r Hr); unfold isin in *.
  - apply not_false_is_true, bool_decide_eq_true in H.
    rewrite !elem_of_cons in H. destruct H as [H|[H|H]]; auto.
    by apply elem_of_nil in H.
  - rewrite bool_decide_eq_true_2; [done|]. rewrite !elem_of_cons. tauto.
Qed.

Lemma name_columns_present :
  has_column df "CB First Name" = true ->
  has_column df "CB Last Name" = true ->
  has_column df "CB Company Name" = true ->
  forall c, c ∈ name_columns -> c ∈ columns df.
Proof.
  unfold has_column. rewrite !bool_decide_eq_true. intros H1 H2 H3 c Hc.
  unfold name_columns in Hc. rewrite !elem_of_cons in Hc.
  destruct Hc as [->|[->|[->|Hc]]]; [done..|]. by apply elem_of_nil in Hc.
Qed.

Lemma name_column_missing c :
  c ∈ name_columns -> has_column df c = false ->
  ~ (forall c, c ∈ name_columns -> c ∈ columns df).
Proof.
  intros Hc Hf Hall. unfold has_column in Hf.
  apply bool_decide_eq_false in Hf. by apply Hf, Hall.
Qed.

Lemma name_issues_nil :
  name_issues df = [] <->
  ((forall c, c ∈ name_columns -> c ∈ columns df) ->
   forall r, r ∈ records df ->
     (cell_at df "CB Constituent Type" r = VStr "Person" ->
      Py.strip (email_at df "CB First Name" r) <> EmptyString
      /\ Py.strip (email_at df "CB Last Name" r) <> EmptyString) /\
     (cell_at df "CB Constituent Type" r = VStr "Company" ->
      Py.strip (email_at df "CB Company Name" r) <> EmptyString)).
Proof.
  unfold name_issues. cbn [forallb].
  rewrite (has_required "CB Constituent Type") by compute_done.
  destruct (has_column df "CB First Name") eqn:H1; cbn [andb];
    [|split; [intros _ Hall|done];
      by destruct (name_column_missing "CB First Name" ltac:(compute_done) H1)].
  destruct (has_column df "CB Last Name") eqn:H2; cbn [andb];
    [|split; [intros _ Hall|done];
      by destruct (name_column_missing "CB Last Name" ltac:(compute_done) H2)].
  destruct (has_column df "CB Company Name") eqn:H3; cbn [andb];
    [|split; [intros _ Hall|done];
      by destruct (name_column_missing "CB Company Name"
                     ltac:(compute_done) H3)].
  pose proof (name_columns_present H1 H2 H3) as Hcols.
  cbv zeta. rewrite app_nil, !issue_if_nil, !selection_empty_df.
  rewrite !list_filter_filter, !filter_nil_iff.
  assert (forall c r, c ∈ name_columns -> r ∈ records df ->
            blank_at df c r = true
            <-> Py.strip (email_at df c r) = EmptyString) as Hblank.
  { intros c r Hc Hr. apply blank_at_text; [done..|]. by apply Hcols. }
  split.
  - intros [Hp Hc] _ r Hr. split.
    + intros Ht. split; intros Hs; apply (Hp r Hr); (split; [|exact Ht]);
        apply orb_true_iff; [left|right]; apply Hblank; try done;
        compute_done.
    + intros Ht Hs. apply (Hc r Hr). split; [|exact Ht].
      apply Hblank; [compute_done|done..].
  - intros Hall. specialize (Hall Hcols).
    split; intros r Hr [Hb Ht]; destruct (Hall r Hr) as [Hp Hc].
    + destruct (Hp Ht) as [Hf Hl].
      apply orb_true_iff in Hb as [Hb|Hb];
        apply Hblank in Hb; try done; compute_done.
    + apply Hblank in Hb; [by apply (Hc Ht)|compute_done|done].
Qed.

Lemma invalid_emails_none c :
  invalid_emails df c = [] <->
  forall r, r ∈ records df ->
    Py.strip (email_at df c r) <> EmptyString ->
    is_valid_email (Some (email_at df c r)) = true.
Proof.
  unfold invalid_emails. rewrite filter_nil_iff. split.
  - intros Hf r Hr Hs.
    destruct (is_valid_email _) eqn:Hv; [done|]. exfalso.
    apply (Hf (email_at df c r)).
    + apply elem_of_drop_duplicates_id, list_elem_of_fmap. by exists r.
    + rewrite Hv. apply truthy_true in Hs. by rewrite Hs.
  - intros Hall x Hx Hbad.
    apply elem_of_drop_duplicates_id, list_elem_of_fmap in Hx
      as (r & -> & Hr).
    apply andb_true_iff in Hbad as [Hs Hv]. apply truthy_true in Hs.
    rewrite (Hall r Hr Hs) in Hv. done.
Qed.

Lemma email_issues_nil :
  email_issues df = [] <->
  forall r, r ∈ records df ->
    let e1 := email_at df "CB Email 1 (Standardized)" r in
    let e2 := email_at df "CB Email 2 (Standardized)" r in
    (Py.strip e1 = EmptyString -> Py.strip e2 = EmptyString) /\
    (Py.strip e1 <> EmptyString -> e1 <> e2) /\
    (forall e, e = e1 \/ e = e2 -> Py.strip e <> EmptyString ->
               is_valid_email (Some e) = true).
Proof.
  unfold email_issues. rewrite !has_required by compute_done.
  cbn [andb]. cbv zeta.
  rewrite !app_nil, !issue_if_nil, !selection_empty_df.
  rewrite !examples_nil, !invalid_emails_none, !filter_nil_iff.
  split.
  - intros (H2 & Hsame & Hv1 & Hv2) r Hr. cbv zeta.
    specialize (H2 r Hr). specialize (Hsame r Hr).
    specialize (Hv1 r Hr). specialize (Hv2 r Hr). split; [|split].
    + intros Hs.
      destruct (decide (Py.strip (email_at df "CB Email 2 (Standardized)" r)
                        = EmptyString)) as [|Hne]; [done|].
      exfalso. apply H2. apply andb_true_iff. split.
      * by apply String.eqb_eq.
      * apply negb_true_iff. by apply String.eqb_neq.
    + intros Hs Heq. apply Hsame. apply andb_true_iff. split.
      * apply negb_true_iff. by apply String.eqb_neq.
      * by apply String.eqb_eq.
    + intros e [->| ->]; [apply Hv1 | apply Hv2].
  - intros Hall. repeat split; intros r Hr; specialize (Hall r Hr);
      cbv zeta in Hall; destruct Hall as (H2 & Hsame & Hv).
    + intros Hbad. apply andb_true_iff in Hbad as [Hs Hne].
      apply String.eqb_eq in Hs. apply negb_true_iff, String.eqb_neq in Hne.
      by apply Hne, H2.
    + intros Hbad. apply andb_true_iff in Hbad as [Hs Heq].
      apply negb_true_iff, String.eqb_neq in Hs. apply String.eqb_eq in Heq.
      by apply (Hsame Hs).
    + apply Hv. by left.
    + apply Hv. by right.
Qed.

Lemma title_issues_nil :
  title_issues df = [] <->
  forall r, r ∈ records df ->
    fillna_value (cell_at df "CB Title" r) ∈ allowed_titles.
Proof.
  unfold title_issues. rewrite has_required by compute_done. cbv zeta.
  rewrite issue_if_nil, selection_empty_df, filter_nil_iff.
  split; intros H r Hr; specialize (H r Hr); unfold isin in *.
  - by apply not_false_is_true, bool_decide_eq_true in H.
  - by rewrite bool_decide_eq_true_2.
Qed.

Lemma validate_constituents_records :
  validate_constituents df = [] <->
  forall r, r ∈ records df -> record_passes df r.
Proof.
  unfold validate_constituents.
  rewrite (proj2 (missing_columns_nil df) Hreq). cbn [app].
  rewrite !app_nil, type_issues_nil, name_issues_nil, email_issues_nil,
    title_issues_nil.
  unfold record_passes. cbv zeta. split.
  - intros (Hty & Hn & He & Ht) r Hr.
    destruct (He r Hr) as (H2 & Hs & Hv).
    split; [by apply Hty|]. split; [intros Hc; by apply Hn|].
    split; [exact H2|]. split; [exact Hs|]. split; [exact Hv|by apply Ht].
  - intros Hall. split; [|split; [|split]].
    + intros r Hr. by destruct (Hall r Hr) as (? & _).
    + intros Hc r Hr. destruct (Hall r Hr) as (_ & Hn & _). by apply Hn.
    + intros r Hr. destruct (Hall r Hr) as (_ & _ & H2 & Hs & Hv & _).
      split; [exact H2|]. split; [exact Hs|exact Hv].
    + intros r Hr. by destruct (Hall r Hr) as (_ & _ & _ & _ & _ & Ht).
Qed.

End AnyFrame.

(** X22 ([validate_constituents]).  On every table of texts (distinct
    column names, at least one row, cells that are strings or NaN,
    strings in the name columns), whatever its columns and its rows,
    [validate_constituents] reports nothing exactly when the six
    required columns are there and every row has the type Person or
    Company; has, where the table has the three name columns, names if
    it is a person and a company name if it is a company; has no second
    address without a first, two different addresses and only valid
    addresses; and has an allowed title or none.  The validator neither
    lets such a fault pass nor reports one that is not there. *)
Theorem validate_constituents_passes_iff (df : Frame) :
  text_frame df ->
  (validate_constituents df = [] <->
   (forall c, c ∈ required_cols -> c ∈ columns df) /\
   forall r, r ∈ records df -> record_passes df r).
Proof.
  intros Htext. split.
  - intros Hv.
    assert (forall c, c ∈ required_cols -> c ∈ columns df) as Hreq.
    { apply missing_columns_nil. unfold validate_constituents in Hv.
      by apply app_nil in Hv as [? _]. }
    split; [exact Hreq|]. by apply validate_constituents_records.
  - intros [Hreq Hall]. by apply validate_constituents_records.
Qed.

Lemma validate_constituents_passes_iff_witness :
  text_frame org_frame /\
  (validate_constituents org_frame = [] <->
   (forall c, c ∈ required_cols -> c ∈ columns org_frame) /\
   forall r, r ∈ records org_frame -> record_passes org_frame r).
Proof.
  assert (text_frame org_frame) as Ht.
  { split; [compute_done|]. split; [done|]. intros r Hr.
    apply list_elem_of_singleton in Hr as ->. split.
    - apply Forall_forall. repeat constructor.
    - intros c Hc _. unfold name_columns in Hc. rewrite !elem_of_cons in Hc.
      destruct Hc as [->|[->|[->|Hc]]]; [by eexists..|].
      by apply elem_of_nil in Hc. }
  split; [exact Ht|]. exact (validate_constituents_passes_iff org_frame Ht).
Defined.

(** A type that is neither Person nor Company is reported, also on a
    table that has no other fault. *)
Example unknown_type_reported :
  validate_constituents org_frame = [Invalid_type_values [VStr "Org"]] /\
  ~ (forall r, r ∈ records org_frame -> record_passes org_frame r).
Proof.
  split; [vm_compute; reflexivity|]. intros Hall.
  destruct (Hall _ (list_elem_of_here _ _)) as [[Hty|Hty] _];
    vm_compute in Hty; discriminate.
Qed.

(** The validator at work: a second address without a first one is
    reported, once. *)
Example second_address_only_reported :
  validate_constituents (constituents_frame [second_address_only])
  = [Email2_without_email1 1].
Proof. vm_compute. reflexivity. Qed.

(* ------------------------------------------------------------------ *)
(** ** The output of a run passes its own validation *)
(* ------------------------------------------------------------------ *)

Lemma strip_nonspace_head a s :
  Py.isspace a = false -> Py.strip (String a s) <> EmptyString.
Proof.
  intros Ha. unfold Py.strip, Py.strip_by. cbn [Py.lstrip_by]. rewrite Ha.
  cbn [Py.rstrip_by]. destruct (Py.rstrip_by _ s); [by rewrite Ha|done].
Qed.

Lemma valid_strip_nonempty x :
  is_valid_email (Some x) = true -> Py.strip x <> EmptyString.
Proof.
  intros H Hs. unfold is_valid_email, standardize_email in H.
  cbn [_clean_str] in H. rewrite Hs in H. by vm_compute in H.
Qed.

Lemma normalize_salutation_allowed raw :
  VStr (normalize_salutation raw) ∈ allowed_titles.
Proof.
  unfold normalize_salutation, allowed_titles.
  repeat match goal with
         | |- context [if ?b then _ else _] => destruct b
         end;
    rewrite !elem_of_cons; auto 10.
Qed.

Section ValidRows.
Context `{RT : Runtime}.

Lemma core_row_valid mapping id oc :
  let k := core_row mapping (id, oc) in
  (k_type k = Person ->
   Py.strip (k_first_name k) <> EmptyString
   /\ Py.strip (k_last_name k) <> EmptyString) /\
  (k_type k = Company -> Py.strip (k_company_name k) <> EmptyString) /\
  VStr (k_title k) ∈ allowed_titles.
Proof.
  cbv zeta. unfold core_row.
  cbn [k_type k_first_name k_last_name k_company_name k_title fst snd].
  split; [|split; [|apply normalize_salutation_allowed]].
  - intros Hty. rewrite Hty. unfold fill_missing_person_names.
    destruct (Py.truthy (_clean_str _) && Py.truthy (_clean_str _)) eqn:Hb;
      cbn [fst snd].
    + apply andb_true_iff in Hb as [Hf Hl]. apply truthy_true in Hf, Hl.
      by rewrite !clean_str_strip.
    + split; [by vm_compute|].
      change ("Unknown-" +:+ id) with (String "U" ("nknown-" +:+ id)).
      by apply strip_nonspace_head.
  - intros Hty. rewrite Hty, clean_str_strip.
    destruct (oc ≫= patron_id); [|done].
    unfold classify_constituent_type in Hty.
    destruct (Py.truthy _) eqn:Ht; [by apply truthy_true in Ht|done].
Qed.

Lemma out_emails_valid c em (oe : option EmailCols) :
  match oe with
  | Some e => e ∈ build_email_columns c em
  | None => True
  end ->
  let e1 := Pd.fillna_empty (ec_email1 <$> oe) in
  let e2 :=
    Pd.fillna_empty
      (if bool_decide (Pd.fillna_empty (ec_email1 <$> oe) = EmptyString)
       then Some EmptyString else ec_email2 <$> oe) in
  (Py.strip e1 = EmptyString -> Py.strip e2 = EmptyString) /\
  (Py.strip e1 <> EmptyString -> e1 <> e2) /\
  (forall e, e = e1 \/ e = e2 -> Py.strip e <> EmptyString ->
             is_valid_email (Some e) = true).
Proof.
  intros Hoe. cbv zeta.
  destruct oe as [e|]; cbn [fmap option_fmap option_map Pd.fillna_empty].
  2: { rewrite bool_decide_eq_true_2 by done. cbn [Pd.fillna_empty].
       split; [done|]. split; [done|]. by intros a [->| ->] Hs. }
  assert (forall a, a = ec_email1 e \/ a = ec_email2 e -> a <> EmptyString ->
                    is_valid_email (Some a) = true) as Hvalid.
  { intros a Ha Hne.
    by destruct (build_email_columns_sound c em e a Hoe Ha Hne). }
  assert (ec_email2 e <> EmptyString -> ec_email1 e <> ec_email2 e) as Hrule.
  { unfold build_email_columns in Hoe.
    apply list_elem_of_fmap in Hoe as ([k v] & -> & _).
    intros H2. by apply email_row_rule in H2 as [_ H2]. }
  case_bool_decide as H1; cbn [Pd.fillna_empty].
  - rewrite H1. split; [done|]. split; [done|]. by intros a [->| ->] Hs.
  - assert (Py.strip (ec_email1 e) <> EmptyString) as Hs1.
    { apply valid_strip_nonempty, Hvalid; [by left|done]. }
    split; [done|]. split.
    + intros _ Heq.
      destruct (decide (ec_email2 e = EmptyString)) as [H2|H2]; [congruence|].
      by apply Hrule.
    + intros a Ha Hs. apply Hvalid; [done|]. intros ->. by apply Hs.
Qed.

Lemma transform_row_valid c0 em d mapping out T row :
  transform c0 em d mapping = Some (out, T) -> row ∈ out -> valid_row row.
Proof.
  intros H Hrow.
  destruct (elem_of_transform _ _ _ _ _ _ _ H Hrow)
    as (id & oc & oe & om & -> & _ & Hoe).
  destruct (core_row_valid mapping id oc) as (Hp & Hc & Ht).
  assert (match oe with
          | Some e => e ∈ build_email_columns (dedupe_constituents_latest c0) em
          | None => True
          end) as Hoe' by (destruct oe; [by destruct Hoe|done]).
  destruct (out_emails_valid _ _ _ Hoe') as (H2 & Hs & Hv).
  unfold valid_row, out_row.
  cbn [cb_type cb_first_name cb_last_name cb_company_name cb_email1 cb_email2
       cb_title fst snd].
  split; [exact Hp|]. split; [exact Hc|]. split; [exact H2|].
  split; [exact Hs|]. split; [exact Hv|exact Ht].
Qed.

(** X24 ([transform], [validate_constituents]).  The constituents table
    of every run that returns passes [validate_constituents]: whatever
    the inputs, no output row lacks a name it needs, carries a second
    address without a first, the same address twice, an address that
    [is_valid_email] rejects, or a title outside the allowed set. *)
Theorem transform_passes_validation (c0 : list Constituent)
    (em : list EmailRow) (d : Donations) (mapping : gmap string string)
    (out : list OutRow) (T : Frame) :
  transform c0 em d mapping = Some (out, T) ->
  validate_constituents (constituents_frame out) = [].
Proof.
  intros H. apply validate_constituents_frame. intros r Hr.
  by apply (transform_row_valid _ _ _ _ _ _ _ H).
Qed.

(** X25 ([main]).  The exit status of a run is never 2: whenever
    [transform] returns, with or without the taxonomy of the service,
    the two validators find nothing and [main] returns 0; it fails only
    where [transform] raises. *)
Theorem main_exit_status (no_network : bool)
    (response : option (list TagRow)) (c : list Constituent)
    (em : list EmailRow) (d : Donations) :
  main no_network response c em d
  = match transform c em d
            (if no_network then ∅ else fetch_tag_mapping response) with
    | Some _ => Some 0%Z
    | None => None
    end.
Proof.
  unfold main. destruct (transform _ _ _ _) as [[out T]|] eqn:H; [|done].
  assert (validate_constituents (constituents_frame out) = []) as ->.
  { apply validate_constituents_frame. intros r Hr.
    by apply (transform_row_valid _ _ _ _ _ _ _ H). }
  rewrite (transform_tags _ _ _ _ _ _ H), validate_tags_tags_table. done.
Qed.

End ValidRows.

Lemma transform_passes_validation_witness :
  transform (RT := Sample.runtime) run_constituents run_emails
    settled_and_refunded run_mapping
  = Some (fst run_result, snd run_result) /\
  validate_constituents (constituents_frame (fst run_result)) = [].
Proof.
  assert (transform (RT := Sample.runtime) run_constituents run_emails
            settled_and_refunded run_mapping
          = Some (fst run_result, snd run_result)) as H
    by (vm_compute; reflexivity).
  split; [exact H|].
  exact (transform_passes_validation _ _ _ _ _ _ H).
Defined.

(* ------------------------------------------------------------------ *)
(** ** The CB Tags column read back *)
(* ------------------------------------------------------------------ *)

Lemma split_no_sep c s p :
  p ∈ Py.split c s -> Py.contains_char c p = false.
Proof.
  revert p. induction s as [|a s IH]; intros p Hp.
  - by apply list_elem_of_singleton in Hp as ->.
  - cbn [Py.split] in Hp. destruct (Ascii.eqb a c) eqn:Hac.
    + apply elem_of_cons in Hp as [->|Hp]; [done|by apply IH].
    + destruct (Py.split c s) as [|w ws] eqn:Hs.
      * apply list_elem_of_singleton in Hp as ->. cbn. by rewrite Hac.
      * apply elem_of_cons in Hp as [->|Hp].
        -- cbn [Py.contains_char]. rewrite Hac. apply IH. left.
        -- apply IH. by right.
Qed.

Lemma contains_lstrip c p s :
  Py.contains_char c s = false -> Py.contains_char c (Py.lstrip_by p s) = false.
Proof.
  induction s as [|a s IH]; [done|]. cbn [Py.contains_char Py.lstrip_by].
  intros H. apply orb_false_iff in H as [Ha Hs].
  destruct (p a); [by apply IH|]. cbn [Py.contains_char]. by rewrite Ha, Hs.
Qed.

Lemma contains_rstrip c p s :
  Py.contains_char c s = false -> Py.contains_char c (Py.rstrip_by p s) = false.
Proof.
  induction s as [|a s IH]; [done|]. cbn [Py.contains_char Py.rstrip_by].
  intros H. apply orb_false_iff in H as [Ha Hs]. specialize (IH Hs).
  destruct (Py.rstrip_by p s).
  - destruct (p a); [done|]. cbn [Py.contains_char]. by rewrite Ha.
  - cbn [Py.contains_char] in *. by rewrite Ha, IH.
Qed.

Lemma contains_strip c s :
  Py.contains_char c s = false -> Py.contains_char c (Py.strip s) = false.
Proof. intros H. by apply contains_rstrip, contains_lstrip. Qed.

Lemma split_sep_free c x : Py.contains_char c x = false -> Py.split c x = [x].
Proof.
  induction x as [|a x IH]; [done|]. cbn [Py.contains_char Py.split].
  intros H. apply orb_false_iff in H as [Ha Hx]. by rewrite Ha, IH.
Qed.

Lemma split_app_sep c x s :
  Py.contains_char c x = false ->
  Py.split c (x +:+ String c s) = x :: Py.split c s.
Proof.
  induction x as [|a x IH]; cbn [Py.contains_char].
  - intros _. change (EmptyString +:+ String c s) with (String c s).
    cbn [Py.split]. by rewrite Ascii.eqb_refl.
  - intros H. apply orb_false_iff in H as [Ha Hx].
    change (String a x +:+ String c s) with (String a (x +:+ String c s)).
    cbn [Py.split]. by rewrite Ha, IH.
Qed.

Lemma join_cons_cons sep x y l :
  Py.join sep (x :: y :: l) = x +:+ sep +:+ Py.join sep (y :: l).
Proof. done. Qed.

Lemma split_join x l :
  Py.contains_char "," x = false ->
  (forall t, t ∈ l -> Py.contains_char "," t = false) ->
  Py.split "," (Py.join ", " (x :: l)) = x :: (String " " <$> l).
Proof.
  revert x. induction l as [|y l IH]; intros x Hx Hl.
  - by apply split_sep_free.
  - rewrite join_cons_cons.
    change (", " +:+ Py.join ", " (y :: l))
      with (String "," (String " " (Py.join ", " (y :: l)))).
    rewrite split_app_sep by done. f_equal.
    assert (String " " (Py.join ", " (y :: l))
            = Py.join ", " (String " " y :: l)) as -> by (by destruct l).
    rewrite fmap_cons. apply IH.
    + cbn [Py.contains_char]. rewrite (Hl y) by left. done.
    + intros t Ht. apply Hl. by right.
Qed.

Lemma stripped_head t :
  Py.strip t = t -> t <> EmptyString ->
  exists a t', t = String a t' /\ Py.isspace a = false.
Proof.
  intros Hs Hne. unfold Py.strip, Py.strip_by in Hs.
  destruct (lstrip_by_head Py.isspace t) as [He|(a & s' & Hl & Ha)].
  - rewrite He in Hs. by subst t.
  - rewrite Hl in Hs. cbn [Py.rstrip_by] in Hs.
    destruct (Py.rstrip_by Py.isspace s'); rewrite ?Ha in Hs; subst t; eauto.
Qed.

Lemma stripped_rstrip t :
  Py.strip t = t -> t <> EmptyString -> Py.rstrip_by Py.isspace t = t.
Proof.
  intros Hs Hne. destruct (stripped_head t Hs Hne) as (a & t' & -> & Ha).
  unfold Py.strip, Py.strip_by in Hs. cbn [Py.lstrip_by] in Hs.
  by rewrite Ha in Hs.
Qed.

Lemma append_empty u t : u +:+ t = EmptyString -> t = EmptyString.
Proof. by destruct u. Qed.

Lemma rstrip_app_tail p u t :
  Py.rstrip_by p t = t -> t <> EmptyString ->
  Py.rstrip_by p (u +:+ t) = u +:+ t.
Proof.
  intros Ht Hne. induction u as [|b u IH]; [done|].
  change (String b u +:+ t) with (String b (u +:+ t)).
  cbn [Py.rstrip_by]. rewrite IH.
  destruct (u +:+ t) eqn:Hu; [|done]. by apply append_empty in Hu.
Qed.

Lemma append_assoc_string (a b c : string) : (a +:+ b) +:+ c = a +:+ (b +:+ c).
Proof.
  induction a as [|x a IH]; [done|].
  change ((String x a +:+ b) +:+ c) with (String x ((a +:+ b) +:+ c)).
  by rewrite IH.
Qed.

Lemma rstrip_join x l :
  (forall t, t ∈ x :: l -> Py.strip t = t /\ t <> EmptyString) ->
  Py.rstrip_by Py.isspace (Py.join ", " (x :: l)) = Py.join ", " (x :: l)
  /\ Py.join ", " (x :: l) <> EmptyString.
Proof.
  revert x. induction l as [|y l IH]; intros x Hall.
  - destruct (Hall x) as [Hs Hne]; [left|].
    split; [by apply stripped_rstrip|done].
  - destruct (IH y) as [Hr Hne]; [intros t Ht; apply Hall; by right|].
    rewrite join_cons_cons, <- append_assoc_string.
    split; [by apply rstrip_app_tail|].
    intros He. by apply append_empty in He.
Qed.

Lemma strip_join l :
  (forall t, t ∈ l -> Py.strip t = t /\ t <> EmptyString) ->
  Py.strip (Py.join ", " l) = Py.join ", " l.
Proof.
  destruct l as [|x l]; [done|]. intros Hall.
  destruct (rstrip_join x l Hall) as [Hr _].
  destruct (Hall x) as [Hs Hne]; [left|].
  destruct (stripped_head x Hs Hne) as (a & x' & -> & Ha).
  unfold Py.strip, Py.strip_by.
  assert (Py.lstrip_by Py.isspace (Py.join ", " (String a x' :: l))
          = Py.join ", " (String a x' :: l)) as ->; [|done].
  destruct l as [|y l].
  - cbn [Py.join String.concat Py.lstrip_by]. by rewrite Ha.
  - rewrite join_cons_cons.
    change (String a x' +:+ ", " +:+ Py.join ", " (y :: l))
      with (String a (x' +:+ ", " +:+ Py.join ", " (y :: l))).
    cbn [Py.lstrip_by]. by rewrite Ha.
Qed.

Lemma split_tags_join l :
  (forall t, t ∈ l ->
     Py.strip t = t /\ t <> EmptyString /\ Py.contains_char "," t = false) ->
  NoDup (Py.lower <$> l) ->
  split_tags (Some (Py.join ", " l)) = l.
Proof.
  intros Hall Hnd. rewrite split_tags_spec. unfold local_tags_spec.
  cbn [_clean_str].
  rewrite strip_join by (intros t Ht; destruct (Hall t Ht) as (? & ? & _); done).
  destruct l as [|x l]; [done|].
  rewrite split_join.
  2: { by destruct (Hall x) as (_ & _ & ?); [left|]. }
  2: { intros t Ht. by destruct (Hall t) as (_ & _ & ?); [right|]. }
  assert (Py.strip <$> (x :: (String " " <$> l)) = x :: l) as ->.
  { rewrite fmap_cons. f_equal.
    - by destruct (Hall x) as (? & _); [left|].
    - rewrite <- list_fmap_compose.
      rewrite <- (list_fmap_id l) at 2. apply list_fmap_ext.
      intros i t Ht. apply list_elem_of_lookup_2 in Ht.
      destruct (Hall t) as (Hs & _); [by right|].
      change (Py.strip (String " " t) = t).
      rewrite <- Hs at 2. reflexivity. }
  rewrite filter_all.
  2: { intros t Ht. by destruct (Hall t Ht) as (_ & ? & _). }
  by apply dedupe_by_distinct.
Qed.

Lemma final_tags_members mapping raw t :
  (forall k v, mapping !! k = Some v -> Py.contains_char "," v = false) ->
  t ∈ final_tags mapping raw ->
  Py.strip t = t /\ t <> EmptyString /\ Py.contains_char "," t = false.
Proof.
  intros Hmap. rewrite final_tags_strip. unfold final_tags_spec. intros Ht.
  apply elem_of_dedupe_by in Ht.
  apply list_elem_of_filter in Ht as [Hne Ht].
  apply list_elem_of_fmap in Ht as (u & -> & Hu).
  split; [apply strip_idemp|]. split; [done|].
  apply contains_strip.
  destruct (mapping !! Py.lower u) as [v|] eqn:Hv; cbn [default].
  - by apply (Hmap (Py.lower u) v).
  - unfold local_tags_spec in Hu. apply elem_of_dedupe_by in Hu.
    apply list_elem_of_filter in Hu as [_ Hu].
    apply list_elem_of_fmap in Hu as (w & -> & Hw).
    by apply contains_strip, (split_no_sep _ (_clean_str raw)).
Qed.

Lemma final_tags_round_trip (mapping : gmap string string) (raw : cell) :
  (forall k v, mapping !! k = Some v -> Py.contains_char "," v = false) ->
  split_tags (Some (Py.join ", " (final_tags mapping raw)))
  = final_tags mapping raw.
Proof.
  intros Hmap. apply split_tags_join.
  - intros t. by apply final_tags_members.
  - rewrite final_tags_strip. unfold final_tags_spec. apply dedupe_by_NoDup.
Qed.

(** X9 ([split_tags], [apply_tag_mapping], [transform]).  The CB Tags
    column can be read back: when no replacement name of the mapping
    holds a comma, splitting the comma-joined final tags of a cell with
    [split_tags] gives the final tag list again, tag by tag and in
    order. *)
Theorem tags_column_round_trip (mapping : gmap string string) (raw : cell) :
  (forall k v, mapping !! k = Some v -> Py.contains_char "," v = false) ->
  split_tags (Some (Py.join ", " (final_tags mapping raw)))
  = final_tags mapping raw.
Proof. apply final_tags_round_trip. Qed.

Lemma tags_column_round_trip_witness :
  (forall k v, run_mapping !! k = Some v -> Py.contains_char "," v = false) /\
  split_tags (Some "Board, Major Donor") = ["Board"; "Major Donor"].
Proof.
  assert (forall k v, run_mapping !! k = Some v ->
                      Py.contains_char "," v = false) as H.
  { intros k v Hkv. unfold run_mapping in Hkv.
    apply lookup_singleton_Some in Hkv as [_ <-]. reflexivity. }
  split; [exact H|].
  exact (tags_column_round_trip run_mapping (Some "Board, board, Donor") H).
Defined.

(* ------------------------------------------------------------------ *)
(** ** The two output tables agree on the tags *)
(* ------------------------------------------------------------------ *)

Lemma filter_ext_in {A} (P Q : A -> Prop) `{forall x, Decision (P x)}
    `{forall x, Decision (Q x)} (l : list A) :
  (forall x, x ∈ l -> P x <-> Q x) -> filter P l = filter Q l.
Proof.
  induction l as [|a l IH]; intros Hl; [done|].
  rewrite !filter_cons, IH by (intros x Hx; apply Hl; by right).
  destruct (decide (P a)) as [HP|HP], (decide (Q a)) as [HQ|HQ]; try done.
  - exfalso. apply HQ, (Hl a); [left|done].
  - exfalso. apply HP, (Hl a); [left|done].
Qed.

Lemma find_row_elem {A} (key : A -> string) k (l : list A) x :
  find_row key k l = Some x -> x ∈ l /\ key x = k.
Proof.
  unfold find_row. destruct (filter _ l) as [|y f] eqn:Hf; [done|].
  intros [= ->].
  assert (x ∈ filter (fun r => key r = k) l) as Hin by (rewrite Hf; left).
  by apply list_elem_of_filter in Hin as [? ?].
Qed.

Lemma find_row_Some {A} (key : A -> string) (l : list A) x :
  NoDup (key <$> l) -> x ∈ l -> find_row key (key x) l = Some x.
Proof.
  intros Hnd Hx. unfold find_row.
  pose proof (NoDup_group_head key (key x) l Hnd) as Hg. unfold Pd.group in Hg.
  assert (x ∈ filter (fun r => key r = key x) l) as Hin
    by (by apply list_elem_of_filter).
  rewrite Hg in Hin. destruct (head _) as [y|]; cbn in Hin.
  - by apply list_elem_of_singleton in Hin as ->.
  - by apply elem_of_nil in Hin.
Qed.

Lemma count_by_identity (c : list Constituent) (ids : list string)
    (F : option Constituent -> Prop) `{forall o, Decision (F o)} :
  NoDup ids -> NoDup (pid_of <$> c) ->
  (forall k, k ∈ pid_of <$> c -> k ∈ ids) -> ~ F None ->
  length (filter (fun id => F (find_row pid_of id c)) ids)
  = length (filter (fun r => F (Some r)) c).
Proof.
  intros Hids Hc Hsub HNone.
  assert (ids ≡ₚ (pid_of <$> c)
                 ++ filter (fun id => id ∉ pid_of <$> c) ids) as Hperm.
  { apply NoDup_Permutation; [done| |].
    - apply NoDup_app. split; [done|]. split; [|by apply NoDup_filter].
      intros x Hx Hx'. by apply list_elem_of_filter in Hx' as [Hn _].
    - intros x. rewrite elem_of_app, list_elem_of_filter. split.
      + intros Hx. destruct (decide (x ∈ pid_of <$> c)); [by left|by right].
      + intros [Hx|[_ Hx]]; [by apply Hsub|done]. }
  rewrite (Permutation_length
             (filter_Permutation (fun id => F (find_row pid_of id c)) _ _ Hperm)).
  rewrite filter_app, length_app.
  rewrite (filter_none _ (filter _ ids)).
  2: { intros id Hid HF. apply list_elem_of_filter in Hid as [Hn _].
       by rewrite find_row_None in HF. }
  rewrite Nat.add_0_r, filter_fmap_comm, length_fmap.
  f_equal. apply filter_ext_in. intros r Hr. by rewrite find_row_Some.
Qed.

Lemma split_tags_fillna x :
  split_tags (Some (Pd.fillna_empty x)) = split_tags x.
Proof. by destruct x. Qed.

Section TagsAgree.
Context `{RT : Runtime}.

Lemma cb_tags_assembled c0 em d mapping id :
  cb_tags (assembled c0 em d mapping id)
  = Py.join ", "
      (final_tags mapping
         (find_row pid_of id (dedupe_constituents_latest c0) ≫= tags)).
Proof.
  unfold assembled, out_row, core_row. cbn [cb_tags k_tags fst snd].
  unfold final_tags. by rewrite split_tags_fillna.
Qed.

Lemma row_tag_carrier mapping (c : list Constituent) id t :
  t ∈ final_tags mapping (find_row pid_of id c ≫= tags) ->
  exists r, r ∈ c /\ t ∈ final_tags mapping (tags r).
Proof.
  destruct (find_row pid_of id c) as [r|] eqn:Hr; cbn [mbind option_bind].
  - intros Ht. exists r. by apply find_row_elem in Hr as [? _].
  - intros Ht. by apply elem_of_nil in Ht.
Qed.

(** X20 ([transform]).  The two output tables agree: when no
    replacement name of the mapping holds a comma, the count of a tag in
    the tags table is the number of rows of the constituents table whose
    CB Tags column lists that tag, and every tag listed in a CB Tags
    column has a row in the tags table. *)
Theorem tags_table_matches_rows (c0 : list Constituent)
    (em : list EmailRow) (d : Donations) (mapping : gmap string string)
    (out : list OutRow) (T : Frame) :
  (forall k v, mapping !! k = Some v -> Py.contains_char "," v = false) ->
  transform c0 em d mapping = Some (out, T) ->
  (forall rec, rec ∈ records T ->
     exists t n,
       rec = [VStr t; VInt (Z.of_nat n)] /\
       n = length
             (filter (fun row => t ∈ split_tags (Some (cb_tags row))) out)) /\
  (forall row t, row ∈ out -> t ∈ split_tags (Some (cb_tags row)) ->
     exists n, [VStr t; VInt n] ∈ records T).
Proof.
  intros Hmap H.
  assert (forall id,
            split_tags (Some (cb_tags (assembled c0 em d mapping id)))
            = final_tags mapping
                (find_row pid_of id (dedupe_constituents_latest c0) ≫= tags))
    as Hrow.
  { intros id. by rewrite cb_tags_assembled, final_tags_round_trip. }
  assert (forall t,
            length (filter (fun row => t ∈ split_tags (Some (cb_tags row)))
                      out)
            = length (filter (fun r => t ∈ final_tags mapping (tags r))
                        (dedupe_constituents_latest c0))) as Hcount.
  { intros t. rewrite (transform_rows _ _ _ _ _ _ H) at 1.
    rewrite filter_fmap_comm, length_fmap.
    rewrite (filter_ext_in _
               (fun id => t ∈ final_tags mapping
                                (find_row pid_of id
                                   (dedupe_constituents_latest c0) ≫= tags)))
      by (intros id _; by rewrite Hrow).
    transitivity
      (length (filter (fun r => t ∈ final_tags mapping (Some r ≫= tags))
                 (dedupe_constituents_latest c0))); [|reflexivity].
    match goal with
    | |- length (filter _ ?ids) = _ =>
        pose proof (count_by_identity (dedupe_constituents_latest c0) ids
                      (fun o => t ∈ final_tags mapping (o ≫= tags))) as Hc
    end.
    apply Hc.
    - apply index_union_NoDup; [|apply metrics_pids_NoDup].
      apply index_union_NoDup; [apply dedupe_NoDup|].
      rewrite email_columns_pids. apply candidates_NoDup.
    - apply dedupe_NoDup.
    - intros k Hk. apply elem_of_index_union. left.
      apply elem_of_index_union. by left.
    - intros Ht. by apply elem_of_nil in Ht. }
  assert (forall row t, row ∈ out -> t ∈ split_tags (Some (cb_tags row)) ->
            exists r, r ∈ dedupe_constituents_latest c0
                      /\ t ∈ final_tags mapping (tags r)) as Hcarrier.
  { intros row t Hin Ht. rewrite (transform_rows _ _ _ _ _ _ H) in Hin.
    apply list_elem_of_fmap in Hin as (id & -> & _).
    rewrite Hrow in Ht. by apply row_tag_carrier in Ht. }
  rewrite (transform_tags _ _ _ _ _ _ H). unfold tags_table.
  case_bool_decide as Hrows; cbn [records].
  - split; [by intros rec Hrec%elem_of_nil|].
    intros row t Hin Ht. exfalso.
    destruct (Hcarrier row t Hin Ht) as (r & Hr & Htr).
    assert ((pid_of r, t) ∈ tag_rows mapping (dedupe_constituents_latest c0))
      as Hp by (apply elem_of_tag_rows; by exists r).
    rewrite Hrows in Hp. by apply elem_of_nil in Hp.
  - destruct (tag_counts_spec mapping _ (dedupe_NoDup c0))
      as (_ & H2 & H3 & _).
    split.
    + intros rec Hrec. apply list_elem_of_fmap in Hrec as ([t n] & -> & Htn).
      exists t, n. split; [done|]. rewrite Hcount. by apply H3.
    + intros row t Hin Ht.
      destruct (Hcarrier row t Hin Ht) as (r & Hr & Htr).
      assert (t ∈ fst <$> tag_counts
                            (tag_rows mapping (dedupe_constituents_latest c0)))
        as Htc by (apply H2; by exists r).
      apply list_elem_of_fmap in Htc as ([t' n] & -> & Htn).
      exists (Z.of_nat n). apply list_elem_of_fmap. by exists (t', n).
Qed.

End TagsAgree.

Lemma tags_table_matches_rows_witness :
  (forall k v, run_mapping !! k = Some v -> Py.contains_char "," v = false) /\
  transform (RT := Sample.runtime) run_constituents run_emails
    settled_and_refunded run_mapping
  = Some (fst run_result, snd run_result) /\
  [VStr "Major Donor"; VInt 2] ∈ records (snd run_result) /\
  exists t n,
    [VStr "Major Donor"; VInt 2] = [VStr t; VInt (Z.of_nat n)] /\
    n = length (filter (fun row => t ∈ split_tags (Some (cb_tags row)))
                  (fst run_result)).
Proof.
  assert (forall k v, run_mapping !! k = Some v ->
                      Py.contains_char "," v = false) as Hmap.
  { intros k v Hkv. unfold run_mapping in Hkv.
    apply lookup_singleton_Some in Hkv as [_ <-]. reflexivity. }
  assert (transform (RT := Sample.runtime) run_constituents run_emails
            settled_and_refunded run_mapping
          = Some (fst run_result, snd run_result)) as H
    by (vm_compute; reflexivity).
  assert ([VStr "Major Donor"; VInt 2] ∈ records (snd run_result)) as Hin
    by (vm_compute; left).
  split; [exact Hmap|]. split; [exact H|]. split; [exact Hin|].
  destruct (tags_table_matches_rows _ _ _ _ _ _ Hmap H) as [Hrec _].
  exact (Hrec _ Hin).
Defined.
